(** * brave-deep-research-mcp: the crawl engine and the content extractors

    A shallow embedding of the TypeScript sources

    - [src/utils/content-extractor.ts]  (module [UtilsExtractor]),
    - [src/content-extractor.ts]        (module [ContentExtractor]),
    - [src/browser-manager.ts]          (module [BrowserManager], [newPage]),
    - [src/services/puppeteer.ts]       (module [PuppeteerService]),
    - [src/tools/deep-search.ts]        (modules [DeepSearchTool] and
                                         [DeepSearchHandler]),
    - [src/services/brave-search.ts]    (module [BraveSearch]),
    - [src/server.ts]                   (module [Server], the handler of
                                         tool calls),
    - [src/brave-search-client.ts]      (module [BraveSearchClient]),
    - [src/deep-search-service.ts]      (module [DeepSearchService]),
    - [src/utils/browser.ts]            (module [UtilsBrowser]),
    - [src/browser-manager.ts]          (module [ManagedBrowser], the
                                         browser [BrowserManager] shares),
    - [src/utils/config.ts]             (module [Config]),

    over a model of JavaScript strings and completions ([Js]), of the
    rendered document ([Dom]), of the calls made to the browser
    ([Browser]) and of the requests sent to the search API ([Http]).
    The modules [Kept], [History], [Enriched], [Pages], [Report],
    [Trimmed], [DocumentOrder], [Removal] and [Density] hold the
    predicates the properties are stated with, and [StaticWeb] and
    [MorePages] are a small concrete web on which the model runs.  The properties follow
    the definitions.

    Conventions.  A JavaScript string is a [string] whose characters
    stand for its UTF-16 code units, each below U+0100 (the characters
    of Latin-1), so that the [length] of the [string] is the [length] of
    JavaScript; a string with a code unit from U+0100 on is outside the
    model.  White space is what [trim], [parseInt] and the DOM take for
    it among these characters.  A JavaScript number that the code uses as a counter or a
    bound is a [Z].  An [async] function is a state transformer over the
    rendering session that ends in a completion: a returned value or a
    thrown one.  What the browser answers to a call is decided by a
    state of the outside world of an arbitrary type, so that a property
    proved for every such world holds whatever pages, failures and
    timeouts the traversal meets. *)

From Stdlib Require Import ZArith List Bool Ascii String Lia Wellfounded.
From Stdlib Require Import Decimal DecimalPos DecimalZ DecimalString.
From stdpp Require Import base gmap strings list sets sorting.
From Equations Require Import Equations.
From Equations.Prop Require Import Logic.

Import ListNotations.
Set Warnings "-register-all".
Local Open Scope string_scope.
Local Open Scope list_scope.

(* ================================================================== *)
(** * JavaScript values, strings and completions                        *)
(* ================================================================== *)

Module Js.

(** What a [throw] carries: an [Error] object with its message, or any
    other value, kept as the text [String(value)] gives for it. *)
Inductive Thrown :=
| ErrorObject (message : string)
| OtherValue (text : string).

(** [error instanceof Error ? error.message : String(error)] *)
Definition error_text (e : Thrown) : string :=
  match e with
  | ErrorObject m => m
  | OtherValue t => t
  end.

(** How the evaluation of a call ends. *)
Inductive Completion (A : Type) :=
| Return (a : A)
| Throw (e : Thrown).
Arguments Return {A} a.
Arguments Throw {A} e.

Definition returned {A} (c : Completion A) : option A :=
  match c with Return a => Some a | Throw _ => None end.

Definition throws {A} (c : Completion A) : bool :=
  match c with Return _ => false | Throw _ => true end.

(** ** Characters *)

Definition backslash : ascii := ascii_of_nat 92.

(** The no-break space, U+00A0. *)
Definition nbsp : ascii := ascii_of_nat 160.

(** The white space and line terminators of ECMAScript below U+0100,
    which [String.prototype.trim] removes and [parseInt] skips: the
    tab, the line feed, the vertical tab, the form feed, the carriage
    return, the space and the no-break space. *)
Definition is_white_space (c : ascii) : bool :=
  let n := nat_of_ascii c in
  (n =? 9)%nat || (n =? 10)%nat || (n =? 11)%nat || (n =? 12)%nat
  || (n =? 13)%nat || (n =? 32)%nat || (n =? 160)%nat.

(** ** String methods *)

(** [s.startsWith(p)] *)
Definition startsWith (s p : string) : bool := String.prefix p s.

(** [s.endsWith(p)] *)
Definition endsWith (s p : string) : bool :=
  String.prefix (String.rev p) (String.rev s).

(** [s.includes(p)] *)
Definition includes (s p : string) : bool :=
  match String.index 0 p s with
  | Some _ => true
  | None => false
  end.

Fixpoint trimStart (s : string) : string :=
  match s with
  | EmptyString => EmptyString
  | String c r => if is_white_space c then trimStart r else s
  end.

Definition trimEnd (s : string) : string :=
  String.rev (trimStart (String.rev s)).

(** [s.trim()] *)
Definition trim (s : string) : string := trimEnd (trimStart s).

(** A string that is empty or made of white space only. *)
Definition whitespace_only (s : string) : bool :=
  String.eqb (trimStart s) "".

(** The regular expressions of [src/content-extractor.ts] are written
    with a doubled backslash, [/\\s+/g] and [/\\n+/g]: in a regular
    expression literal that is a backslash character followed by one or
    more letters s (or n), not the class of white space.  [replace_run]
    is [s.replace(/\\x+/g, by)] for the letter [x]: every maximal run
    "backslash, x, x, ..." is replaced by [by]. *)
Definition starts_with_char (x : ascii) (s : string) : bool :=
  match s with
  | String c _ => Ascii.eqb c x
  | EmptyString => false
  end.

Fixpoint replace_run_go (x : ascii) (by_ : string) (inside : bool) (s : string)
  : string :=
  match s with
  | EmptyString => EmptyString
  | String c r =>
      if inside && Ascii.eqb c x then replace_run_go x by_ true r
      else if Ascii.eqb c backslash && starts_with_char x r
           then (by_ ++ replace_run_go x by_ true r)%string
           else String c (replace_run_go x by_ false r)
  end.

Definition replace_run (x : ascii) (by_ : string) (s : string) : string :=
  replace_run_go x by_ false s.

(** A string with a backslash character in it. *)
Fixpoint has_backslash (s : string) : bool :=
  match s with
  | EmptyString => false
  | String c r => Ascii.eqb c backslash || has_backslash r
  end.

(** ** Numbers and [parseInt] *)

(** [String(n)] for an integer [n]: its decimal digits, with a minus
    sign when negative.  JavaScript prints an integer this way while
    [|n| < 10^21]; beyond that it switches to exponent notation, which
    is outside this model. *)
Definition Number_toString (n : Z) : string :=
  NilZero.string_of_int (Z.to_int n).

Definition prints_as_decimal (n : Z) : Prop :=
  (Z.abs n < 10 ^ 21)%Z.

Definition digit_value (radix : Z) (c : ascii) : option Z :=
  let n := Z.of_nat (nat_of_ascii c) in
  let v :=
    if (48 <=? n)%Z && (n <=? 57)%Z then Some (n - 48)%Z
    else if (97 <=? n)%Z && (n <=? 122)%Z then Some (n - 87)%Z
    else if (65 <=? n)%Z && (n <=? 90)%Z then Some (n - 55)%Z
    else None in
  match v with
  | Some d => if (d <? radix)%Z then Some d else None
  | None => None
  end.

(** The longest prefix of digits of [s], read in [radix] after the
    digits already read ([acc]); [None] while no digit has been read. *)
Fixpoint parse_digits (radix : Z) (acc : option Z) (s : string) : option Z :=
  match s with
  | EmptyString => acc
  | String c r =>
      match digit_value radix c with
      | Some d =>
          parse_digits radix
            (Some (match acc with Some a => a * radix + d | None => d end)%Z) r
      | None => acc
      end
  end.

Definition strip_hex_prefix (s : string) : option string :=
  match s with
  | String "0" (String "x" r) => Some r
  | String "0" (String "X" r) => Some r
  | _ => None
  end.

(** [parseInt(s)] with no radix: leading white space is skipped, a sign
    is read, a [0x] prefix selects base 16, and the longest prefix of
    digits is the value; [None] is [NaN]. *)
Definition parseInt (s : string) : option Z :=
  let s1 := trimStart s in
  let '(sign, s2) :=
    match s1 with
    | String "-" r => ((-1)%Z, r)
    | String "+" r => (1%Z, r)
    | _ => (1%Z, s1)
    end in
  let '(radix, s3) :=
    match strip_hex_prefix s2 with
    | Some r => (16%Z, r)
    | None => (10%Z, s2)
    end in
  match parse_digits radix None s3 with
  | Some v => Some (sign * v)%Z
  | None => None
  end.

(** The number the decimal digits [d] denote, read after the digits
    that gave [acc]. *)
Fixpoint uint_value (d : Decimal.uint) (acc : Z) : Z :=
  match d with
  | Decimal.Nil => acc
  | Decimal.D0 d => uint_value d (acc * 10 + 0)%Z
  | Decimal.D1 d => uint_value d (acc * 10 + 1)%Z
  | Decimal.D2 d => uint_value d (acc * 10 + 2)%Z
  | Decimal.D3 d => uint_value d (acc * 10 + 3)%Z
  | Decimal.D4 d => uint_value d (acc * 10 + 4)%Z
  | Decimal.D5 d => uint_value d (acc * 10 + 5)%Z
  | Decimal.D6 d => uint_value d (acc * 10 + 6)%Z
  | Decimal.D7 d => uint_value d (acc * 10 + 7)%Z
  | Decimal.D8 d => uint_value d (acc * 10 + 8)%Z
  | Decimal.D9 d => uint_value d (acc * 10 + 9)%Z
  end.

(** [x || d] for a number [x] that may be [NaN]: [d] replaces [NaN]
    and zero. *)
Definition or_default (x : option Z) (d : Z) : Z :=
  match x with
  | Some v => if (v =? 0)%Z then d else v
  | None => d
  end.

End Js.

(* ================================================================== *)
(** * The rendered document                                             *)
(* ================================================================== *)

Module Dom.

(** A node of the rendered tree: a text node or an element with its
    lower-case tag name, its attributes and its children. *)
Inductive Node :=
| Text (data : string)
| Element (tagName : string) (attributes : list (string * string))
          (childNodes : list Node).

(** An element is designated by the child indices that lead to it from
    the document element, innermost first: the parent is the tail. *)
Definition Path := list nat.

Record Document := {
  title : string;                 (* document.title *)
  location_href : string;         (* window.location.href *)
  location_origin : string;       (* window.location.origin *)
  documentElement : Node
}.

Definition is_element (n : Node) : bool :=
  match n with Element _ _ _ => true | Text _ => false end.

Definition tag_of (n : Node) : string :=
  match n with Element t _ _ => t | Text _ => "" end.

(** [el.getAttribute(name)] *)
Definition getAttribute (n : Node) (name : string) : option string :=
  match n with
  | Element _ attrs _ =>
      match List.find (fun kv => String.eqb (fst kv) name) attrs with
      | Some kv => Some (snd kv)
      | None => None
      end
  | Text _ => None
  end.

(** [node.textContent]: the text of all descendants, in document order. *)
Fixpoint textContent (n : Node) : string :=
  match n with
  | Text s => s
  | Element _ _ cs =>
      (fix all (l : list Node) : string :=
         match l with
         | [] => ""
         | c :: l' => (textContent c ++ all l')%string
         end) cs
  end.

(** The selectors the sources use. *)
Inductive Selector :=
| ByTag (tag : string)                         (* article *)
| ByClass (class : string)                     (* .content *)
| ById (id : string)                           (* #content *)
| ByTagAttr (tag attr : string)                (* a[href] *)
| ByTagAttrValue (tag attr value : string)     (* meta[name="description"] *)
| AnyOf (alternatives : list Selector).        (* script, style *)

(** The ASCII white space of the DOM, which separates the tokens of a
    [class] attribute: the tab, the line feed, the form feed, the
    carriage return and the space (not the vertical tab). *)
Definition is_ascii_whitespace (c : ascii) : bool :=
  let n := nat_of_ascii c in
  (n =? 9)%nat || (n =? 10)%nat || (n =? 12)%nat || (n =? 13)%nat
  || (n =? 32)%nat.

(** The tokens of [s] after the characters read into [current]. *)
Fixpoint tokens_go (current : string) (s : string) : list string :=
  match s with
  | EmptyString => if String.eqb current "" then [] else [current]
  | String c r =>
      if is_ascii_whitespace c
      then (if String.eqb current "" then tokens_go "" r
            else current :: tokens_go "" r)
      else tokens_go (current ++ String c "") r
  end.

(** [el.classList]: the [class] attribute split on ASCII white space. *)
Definition classList (n : Node) : list string :=
  match getAttribute n "class" with
  | Some v => tokens_go "" v
  | None => []
  end.

(** A class selector matches an element that has the class among its
    tokens, compared character by character (no quirks mode). *)
Definition has_class (n : Node) (c : string) : bool :=
  existsb (String.eqb c) (classList n).

Fixpoint matches (sel : Selector) (n : Node) : bool :=
  is_element n &&
  match sel with
  | ByTag t => String.eqb (tag_of n) t
  | ByClass c => has_class n c
  | ById i =>
      match getAttribute n "id" with
      | Some v => String.eqb v i
      | None => false
      end
  | ByTagAttr t a =>
      String.eqb (tag_of n) t &&
      match getAttribute n a with Some _ => true | None => false end
  | ByTagAttrValue t a v =>
      String.eqb (tag_of n) t &&
      match getAttribute n a with
      | Some w => String.eqb w v
      | None => false
      end
  | AnyOf l => existsb (fun s => matches s n) l
  end.

(** The elements below [n] ([n] itself left out), in document order,
    each with its path; [here] is the path of [n]. *)
Fixpoint descendants (here : Path) (n : Node) : list (Path * Node) :=
  match n with
  | Text _ => []
  | Element _ _ cs =>
      (fix each (i : nat) (l : list Node) : list (Path * Node) :=
         match l with
         | [] => []
         | c :: l' =>
             (if is_element c then [(i :: here, c)] else [])
             ++ descendants (i :: here) c ++ each (S i) l'
         end) 0%nat cs
  end.

(** All elements of the document, the document element first. *)
Definition elements (d : Document) : list (Path * Node) :=
  (if is_element (documentElement d) then [([], documentElement d)] else [])
  ++ descendants [] (documentElement d).

(** [document.querySelectorAll(sel)] *)
Definition querySelectorAll (d : Document) (sel : Selector)
  : list (Path * Node) :=
  List.filter (fun e => matches sel (snd e)) (elements d).

(** [document.querySelector(sel)]: the first match. *)
Definition querySelector (d : Document) (sel : Selector)
  : option (Path * Node) :=
  List.head (querySelectorAll d sel).

(** [document.body]: the first [body] child of the document element. *)
Definition body (d : Document) : option (Path * Node) :=
  List.find (fun e => String.eqb (tag_of (snd e)) "body"
                      && (length (fst e) =? 1)%nat)
            (elements d).

(** The node a path designates. *)
Definition node_at (d : Document) (p : Path) : option Node :=
  match List.find (fun e => bool_decide (fst e = p)) (elements d) with
  | Some e => Some (snd e)
  | None => None
  end.

(** [root.querySelectorAll(sel).forEach(el => el.remove())] on a copy of
    [root]: every descendant that matches is taken out, with all that
    is below it; the root itself stays. *)
Fixpoint remove_matching (sel : Selector) (n : Node) : Node :=
  match n with
  | Text s => Text s
  | Element t a cs =>
      Element t a
        ((fix each (l : list Node) : list Node :=
            match l with
            | [] => []
            | c :: l' =>
                if matches sel c then each l'
                else remove_matching sel c :: each l'
            end) cs)
  end.

Definition remove_all (sels : list Selector) (n : Node) : Node :=
  fold_left (fun acc sel => remove_matching sel acc) sels n.

End Dom.

(** A hyperlink as the extractors return it: [{ url, text }]. *)
Module Link.
Record t := { url : string; text : string }.
End Link.

(* ================================================================== *)
(** * The rendering session (Puppeteer)                                 *)
(* ================================================================== *)

Module Browser.
Import Js.

(** A page (tab) of the shared browser, by its handle. *)
Definition Page := nat.

(** What a call did to the rendering session, in the order of the
    calls. *)
Inductive Event :=
| NewPage (p : Page)                      (* browser.newPage() gave p *)
| Goto (p : Page) (url : string)          (* page.goto(url) was called *)
| Evaluate (p : Page) (d : Dom.Document)  (* page.evaluate ran in d *)
| Close (p : Page).                       (* page.close() was called *)

(** The capabilities the code consumes and does not implement: the
    browser, over a state [W] of the outside world that decides what
    every call gives, and the configuration. *)
Class Puppeteer (W : Type) := {
  (* the shared browser, launched on first use; launching can fail *)
  getBrowser_ : W -> W * Completion unit;
  browser_newPage_ : W -> W * Completion Page;
  page_setDefaultTimeout_ : Page -> Z -> W -> W;
  page_setDefaultNavigationTimeout_ : Page -> Z -> W -> W;
  page_setUserAgent_ : Page -> string -> W -> W * Completion unit;
  page_goto_ : Page -> string -> W -> W * Completion unit;
  page_title_ : Page -> W -> W * Completion string;
  (* the document a script evaluated in the page sees *)
  page_document_ : Page -> W -> W * Completion Dom.Document;
  page_close_ : Page -> W -> W * Completion unit;
  (* PAGE_TIMEOUT of the environment, in milliseconds *)
  PAGE_TIMEOUT : Z
}.

(** [new URL(href, base).href]; [None] when the constructor throws. *)
Class UrlParser := { URL_href : string -> string -> option string }.

Record Session (W : Type) := {
  world : W;
  trace : list Event
}.
Arguments world {W} s.
Arguments trace {W} s.

(** An [async] computation. *)
Definition Async (W A : Type) : Type :=
  Session W -> Session W * Completion A.

Definition ret {W A} (a : A) : Async W A := fun s => (s, Return a).

Definition throw {W A} (e : Thrown) : Async W A := fun s => (s, Throw e).

(** [const x = await m; k x] *)
Definition bind {W A B} (m : Async W A) (k : A -> Async W B) : Async W B :=
  fun s =>
    match m s with
    | (s', Return a) => k a s'
    | (s', Throw e) => (s', Throw e)
    end.

(** [try { body } catch (error) { handler error }] *)
Definition try_catch {W A} (body : Async W A) (handler : Thrown -> Async W A)
  : Async W A :=
  fun s =>
    match body s with
    | (s', Return a) => (s', Return a)
    | (s', Throw e) => handler e s'
    end.

(** [try { body } finally { final }]: [final] runs on every exit of
    [body]; when it throws, its exception replaces the completion of
    [body]. *)
Definition try_finally {W A} (body : Async W A) (final : Async W unit)
  : Async W A :=
  fun s =>
    let '(s1, c) := body s in
    match final s1 with
    | (s2, Return _) => (s2, c)
    | (s2, Throw e) => (s2, Throw e)
    end.

(** [promise.catch(handler)] with a handler that only logs. *)
Definition catch_and_log {W} (m : Async W unit) : Async W unit :=
  fun s =>
    match m s with
    | (s', _) => (s', Return tt)
    end.

Definition lift {W A} (c : Completion A) : Async W A := fun s => (s, c).

Section Calls.
Context {W : Type} `{Puppeteer W}.

Definition record_call {A} (op : W -> W * Completion A)
           (events : Completion A -> list Event) : Async W A :=
  fun s =>
    let '(w, c) := op (world s) in
    ({| world := w; trace := trace s ++ events c |}, c).

Definition getBrowser : Async W unit :=
  record_call getBrowser_ (fun _ => []).

Definition browser_newPage : Async W Page :=
  record_call browser_newPage_
    (fun c => match c with Return p => [NewPage p] | Throw _ => [] end).

Definition page_setDefaultTimeout (p : Page) (ms : Z) : Async W unit :=
  fun s => ({| world := page_setDefaultTimeout_ p ms (world s);
               trace := trace s |}, Return tt).

Definition page_setDefaultNavigationTimeout (p : Page) (ms : Z)
  : Async W unit :=
  fun s => ({| world := page_setDefaultNavigationTimeout_ p ms (world s);
               trace := trace s |}, Return tt).

Definition page_setUserAgent (p : Page) (ua : string) : Async W unit :=
  record_call (page_setUserAgent_ p ua) (fun _ => []).

Definition page_goto (p : Page) (url : string) : Async W unit :=
  record_call (page_goto_ p url) (fun _ => [Goto p url]).

Definition page_title (p : Page) : Async W string :=
  record_call (page_title_ p) (fun _ => []).

Definition page_close (p : Page) : Async W unit :=
  record_call (page_close_ p) (fun _ => [Close p]).

(** [page.evaluate(f)]: [f] runs against the document of the page;
    the call fails when the page cannot run it or when [f] throws. *)
Definition page_evaluate {A} (p : Page) (f : Dom.Document -> Completion A)
  : Async W A :=
  bind
    (record_call (page_document_ p)
       (fun c => match c with Return d => [Evaluate p d] | Throw _ => [] end))
    (fun d => lift (f d)).
End Calls.

End Browser.

Declare Scope async_scope.
Delimit Scope async_scope with async.
Notation "'await' x <- m ;; k" := (Browser.bind m (fun x => k))
  (at level 10, x name, m at level 99, k at level 200) : async_scope.
Notation "'perform' m ;; k" := (Browser.bind m (fun _ => k))
  (at level 10, m at level 99, k at level 200) : async_scope.

Local Open Scope async_scope.

(* ================================================================== *)
(** * src/utils/content-extractor.ts                                    *)
(* ================================================================== *)

Module UtilsExtractor.
Import Js Dom Browser.

(** Potential content selectors, ordered by priority. *)
Definition contentSelectors : list Selector :=
  [ ByTag "article"; ByTag "main"; ByClass "content"; ById "content";
    ByClass "post-content"; ByClass "entry-content";
    ByClass "article-content"; ByClass "article-body"; ByClass "post-body" ].

(** Elements to exclude. *)
Definition excludeSelectors : list Selector :=
  [ ByTag "nav"; ByTag "header"; ByTag "footer"; ByClass "navigation";
    ByClass "menu"; ByClass "sidebar"; ByClass "ads";
    ByClass "advertisement"; ByClass "comments"; ByClass "related";
    ByClass "share"; ByClass "social" ].

(** The loop over [contentSelectors]: the first selector whose first
    match has more than 100 characters of trimmed text decides. *)
Fixpoint firstLongMatch (d : Document) (selectors : list Selector)
  : option string :=
  match selectors with
  | [] => None
  | selector :: rest =>
      match querySelector d selector with
      | Some (_, element) =>
          let text := textContent element in
          if negb (String.eqb text "")
             && (100 <? String.length (trim text))%nat
          then Some (trim text)
          else firstLongMatch d rest
      | None => firstLongMatch d rest
      end
  end.

(** The function [extractMainContent] evaluates in the page. *)
Definition extractMainContent_in_page (d : Document) : Completion string :=
  match firstLongMatch d contentSelectors with
  | Some text => Return text
  | None =>
      match body d with
      | None => Throw (ErrorObject "Cannot read properties of null")
      | Some (_, body) =>
          let clonedBody := remove_all excludeSelectors body in
          let text := trim (textContent clonedBody) in
          Return (if String.eqb text "" then "No content found" else text)
      end
  end.

(** The [forEach] over the anchors of [extractLinks]. *)
Fixpoint collectLinks `{UrlParser} (d : Document) (anchorElements : list Node)
         (links : list Link.t) : Completion (list Link.t) :=
  match anchorElements with
  | [] => Return links
  | anchor :: rest =>
      match getAttribute anchor "href" with
      | None => collectLinks d rest links
      | Some href =>
          if String.eqb href "" || startsWith href "javascript:"
             || startsWith href "mailto:" || startsWith href "tel:"
             || startsWith href "#"
          then collectLinks d rest links
          else
            match URL_href href (location_href d) with
            | None => Throw (ErrorObject "Invalid URL")
            | Some url =>
                let trimmed := trim (textContent anchor) in
                let text := if String.eqb trimmed "" then url else trimmed in
                if negb (String.eqb text "")
                   && startsWith url (location_origin d)
                then collectLinks d rest
                       (links ++ [ {| Link.url := url; Link.text := text |} ])
                else collectLinks d rest links
            end
      end
  end.

(** The function [extractLinks] evaluates in the page. *)
Definition extractLinks_in_page `{UrlParser} (d : Document)
  : Completion (list Link.t) :=
  collectLinks d (map snd (querySelectorAll d (ByTagAttr "a" "href"))) [].

Definition meta_content (d : Document) (selector : Selector) : option string :=
  match querySelector d selector with
  | Some (_, element) => getAttribute element "content"
  | None => None
  end.

(** [a || b] on strings that may be missing. *)
Definition or_else (a : option string) (b : string) : string :=
  match a with
  | Some s => if String.eqb s "" then b else s
  | None => b
  end.

(** The function [extractMetadata] evaluates in the page. *)
Definition extractMetadata_in_page (d : Document) : string * string :=
  let title := Dom.title d in
  let metaDescription :=
    or_else (meta_content d (ByTagAttrValue "meta" "name" "description"))
      (or_else
         (meta_content d (ByTagAttrValue "meta" "property" "og:description"))
         "") in
  (title, metaDescription).

Section Async.
Context {W : Type} `{Puppeteer W} `{UrlParser}.

Definition extractMainContent (page : Page) : Async W string :=
  page_evaluate page extractMainContent_in_page.

Definition extractLinks (page : Page) : Async W (list Link.t) :=
  page_evaluate page extractLinks_in_page.

Definition extractMetadata (page : Page) : Async W (string * string) :=
  page_evaluate page (fun d => Return (extractMetadata_in_page d)).
End Async.

End UtilsExtractor.

(* ================================================================== *)
(** * src/browser-manager.ts                                            *)
(* ================================================================== *)

Module BrowserManager.
Import Js Browser.

Definition userAgent : string :=
  "Mozilla/5.0 (Macintosh; Intel Mac OS X 10_15_7) AppleWebKit/537.36 (KHTML, like Gecko) Chrome/100.0.4896.127 Safari/537.36".

(** [browserManager.newPage()]: a new page with default settings. *)
Definition newPage {W : Type} `{Puppeteer W} : Async W Page :=
  perform getBrowser ;;
  await page <- browser_newPage ;;
  perform page_setDefaultTimeout page PAGE_TIMEOUT ;;
  perform page_setDefaultNavigationTimeout page PAGE_TIMEOUT ;;
  perform page_setUserAgent page userAgent ;;
  ret page.

End BrowserManager.

(* ================================================================== *)
(** * src/content-extractor.ts                                          *)
(* ================================================================== *)

Module ContentExtractor.
Import Js Dom Browser.

(** The extracted content of a webpage. *)
Record ExtractedContent := {
  url : string;
  title : string;
  content : string;
  links : list Link.t;
  error : option string
}.

(** Potential content selectors in order of preference. *)
Definition contentSelectors : list Selector :=
  [ ByTag "article"; ByTag "main"; ByClass "post-content";
    ByClass "entry-content"; ByClass "content"; ById "content";
    ByClass "post"; ByClass "article"; ByClass "blog-post" ].

(** Elements to ignore. *)
Definition elementsToIgnore : list Selector :=
  [ ByTag "nav"; ByTag "header"; ByTag "footer"; ByTag "aside";
    ByClass "sidebar"; ByClass "menu"; ByClass "navigation"; ByClass "ads";
    ByClass "advertisement"; ByClass "related"; ByClass "comments" ].

(** The largest element by content length: the first one whose text is
    strictly longer than all before it; none when every text is empty. *)
Definition largest (elements : list (Path * Node)) : option (Path * Node) :=
  snd (fold_left
         (fun (acc : nat * option (Path * Node)) el =>
            let '(maxLength, maxElement) := acc in
            let length := String.length (textContent (snd el)) in
            if (maxLength <? length)%nat then (length, Some el)
            else (maxLength, maxElement))
         elements (0%nat, None)).

(** First try with defined selectors. *)
Fixpoint selectBySelectors (d : Document) (selectors : list Selector)
  : option (Path * Node) :=
  match selectors with
  | [] => None
  | selector :: rest =>
      match querySelectorAll d selector with
      | [] => selectBySelectors d rest
      | [ el ] => Some el
      | elements =>
          match largest elements with
          | Some el => Some el
          | None => selectBySelectors d rest
          end
      end
  end.

(** [ancestors.set(current, (ancestors.get(current) || 0) + 1)] on a
    map that keeps the order in which its keys were first set. *)
Fixpoint increment (key : Path) (ancestors : list (Path * nat))
  : list (Path * nat) :=
  match ancestors with
  | [] => [(key, 1%nat)]
  | (k, count) :: rest =>
      if bool_decide (k = key) then (k, S count) :: rest
      else (k, count) :: increment key rest
  end.

(** [while (current && current !== document.body)]: the walk from a
    paragraph up its ancestors; the parent of an element is the tail of
    its path, and the document element has none. *)
Fixpoint countAncestors (body : option Path) (current : Path)
         (ancestors : list (Path * nat)) : list (Path * nat) :=
  if bool_decide (Some current = body) then ancestors
  else
    match current with
    | [] => increment current ancestors
    | _ :: parent => countAncestors body parent (increment current ancestors)
    end.

(** The element with the highest paragraph count. *)
Definition bestAncestor (ancestors : list (Path * nat)) : option Path :=
  snd (fold_left
         (fun (acc : nat * option Path) entry =>
            let '(maxCount, best) := acc in
            if (maxCount <? snd entry)%nat then (snd entry, Some (fst entry))
            else (maxCount, best))
         ancestors (0%nat, None)).

(** Density analysis: the common ancestor with most paragraphs. *)
Definition densityAnalysis (d : Document) : option Node :=
  let paragraphs := querySelectorAll d (ByTag "p") in
  let ancestors :=
    fold_left
      (fun acc p => countAncestors (option_map fst (body d)) (fst p) acc)
      paragraphs [] in
  match bestAncestor ancestors with
  | Some path => node_at d path
  | None => None
  end.

(** The main content container. *)
Definition contentElement (d : Document) : option Node :=
  match selectBySelectors d contentSelectors with
  | Some el => Some (snd el)
  | None =>
      match densityAnalysis d with
      | Some el => Some el
      | None => option_map snd (body d)
      end
  end.

(** [text.replace(/\\s+/g, ' ').replace(/\\n+/g, '\\n').trim()] *)
Definition cleanUp (text : string) : string :=
  trim (replace_run "n" (String backslash "n") (replace_run "s" " " text)).

(** The function [extractMainContent] evaluates in the page. *)
Definition extractMainContent_in_page (d : Document) : Completion string :=
  match contentElement d with
  | None => Throw (ErrorObject "Cannot read properties of null")
  | Some el =>
      let clonedContent := remove_all elementsToIgnore el in
      let clonedContent :=
        remove_matching
          (AnyOf [ByTag "script"; ByTag "style"; ByTag "iframe";
                  ByTag "noscript"])
          clonedContent in
      Return (cleanUp (textContent clonedContent))
  end.

(** URLs that likely are not content pages. *)
Definition notContentPage (url : string) : bool :=
  includes url "/cdn-cgi/" || includes url "/wp-admin/"
  || endsWith url ".jpg" || endsWith url ".jpeg" || endsWith url ".png"
  || endsWith url ".gif" || endsWith url ".pdf" || endsWith url ".zip".

(** The [forEach] over the anchors of [extractLinks], with the links
    collected and the URLs seen so far. *)
Fixpoint collectLinks `{UrlParser} (d : Document) (anchorElements : list Node)
         (links : list Link.t) (seen : gset string)
  : Completion (list Link.t) :=
  match anchorElements with
  | [] => Return links
  | anchor :: rest =>
      match getAttribute anchor "href" with
      | None => collectLinks d rest links seen
      | Some href =>
          if String.eqb href "" then collectLinks d rest links seen
          else
            match URL_href href (location_href d) with
            | None => Throw (ErrorObject "Invalid URL")
            | Some url =>
                if negb (startsWith url "http") || bool_decide (url ∈ seen)
                then collectLinks d rest links seen
                else if notContentPage url
                then collectLinks d rest links seen
                else
                  let text :=
                    trim (replace_run "s" " " (textContent anchor)) in
                  if (1 <? String.length text)%nat
                  then collectLinks d rest
                         (links ++ [ {| Link.url := url; Link.text := text |} ])
                         ({[ url ]} ∪ seen)
                  else collectLinks d rest links seen
            end
      end
  end.

(** The function [extractLinks] evaluates in the page: only the first
    ten links are returned. *)
Definition extractLinks_in_page `{UrlParser} (d : Document)
  : Completion (list Link.t) :=
  match collectLinks d (map snd (querySelectorAll d (ByTagAttr "a" "href")))
          [] ∅ with
  | Return links => Return (firstn 10 links)
  | Throw e => Throw e
  end.

Section Async.
Context {W : Type} `{Puppeteer W} `{UrlParser}.

Definition extractMainContent (page : Page) : Async W string :=
  page_evaluate page extractMainContent_in_page.

Definition extractLinks (page : Page) : Async W (list Link.t) :=
  page_evaluate page extractLinks_in_page.

(** The body of the [try] of [extractContent], after the page has
    been obtained.  The timeout given to [page.goto] is part of what the
    session decides. *)
Definition extractContent_try (url : string) (page : Page)
  : Async W ExtractedContent :=
  perform page_goto page url ;;
  await title <- page_title page ;;
  await content <- extractMainContent page ;;
  await links <- extractLinks page ;;
  ret {| url := url; title := title; content := content; links := links;
         error := None |}.

(** What the [catch] of [extractContent] returns. *)
Definition extractContent_catch (url : string) (error : Thrown)
  : ExtractedContent :=
  {| url := url; title := "Error"; content := ""; links := [];
     error := Some (error_text error) |}.

(** [ContentExtractor.extractContent(url)].  The variable [page] is
    [null] until [browserManager.newPage()] has returned. *)
Definition extractContent (url : string) : Async W ExtractedContent :=
  fun s =>
    (* try *)
    let '(s1, page, completion) :=
      match BrowserManager.newPage s with
      | (s1, Return page) =>
          let '(s2, c) := extractContent_try url page s1 in
          (s2, Some page, c)
      | (s1, Throw e) => (s1, None, Throw e)
      end in
    (* catch *)
    let completion :=
      match completion with
      | Return r => Return r
      | Throw error => Return (extractContent_catch url error)
      end in
    (* finally *)
    match page with
    | Some page =>
        let '(s2, _) := catch_and_log (page_close page) s1 in
        (s2, completion)
    | None => (s1, completion)
    end.
End Async.

End ContentExtractor.

(* ================================================================== *)
(** * src/services/puppeteer.ts                                         *)
(* ================================================================== *)

(** The order in which the traversal loop decreases: the pages still
    allowed first, the length of the queue second. *)
Definition lex_lt (a b : nat * nat) : Prop :=
  (fst a < fst b)%nat \/ (fst a = fst b /\ (snd a < snd b)%nat).

Lemma lex_lt_wf : well_founded lex_lt.
Proof.
  intros [a b]. revert b.
  induction a as [a IHa] using (well_founded_induction Nat.lt_wf_0).
  intros b. induction b as [b IHb] using (well_founded_induction Nat.lt_wf_0).
  constructor. intros [a' b'] [Hlt | [Heq Hlt]]; simpl in *.
  - apply IHa. exact Hlt.
  - subst a'. apply IHb. exact Hlt.
Defined.

#[global] Instance lex_lt_WellFounded : WellFounded lex_lt := lex_lt_wf.

Module PuppeteerService.
Import Js Dom Browser.

Record PageContent := {
  url : string;
  title : string;
  description : string;
  content : string;
  links : list Link.t
}.

Record DeepSearchOptions := {
  depth : option Z;
  maxPages : option Z
}.

(** An entry of the queue of URLs to visit, with its depth. *)
Record QueueEntry := {
  entry_url : string;
  currentDepth : Z
}.

Definition userAgent : string :=
  "Mozilla/5.0 (Windows NT 10.0; Win64; x64) AppleWebKit/537.36 (KHTML, like Gecko) Chrome/91.0.4472.124 Safari/537.36".

Section Service.
Context {W : Type} `{Puppeteer W} `{UrlParser}.

(** Extract content from a URL using Puppeteer. *)
Definition extractContentFromUrl (url : string) : Async W PageContent :=
  perform getBrowser ;;
  await page <- browser_newPage ;;
  try_finally
    (try_catch
       (perform page_setDefaultTimeout page PAGE_TIMEOUT ;;
        perform page_setUserAgent page userAgent ;;
        perform page_goto page url ;;
        await metadata <- UtilsExtractor.extractMetadata page ;;
        await content <- UtilsExtractor.extractMainContent page ;;
        await links <- UtilsExtractor.extractLinks page ;;
        ret {| url := url; title := fst metadata;
               description := snd metadata; content := content;
               links := links |})
       (fun error => throw error))
    (page_close page).

(** The variables of [performDeepSearch] while its loop runs.  The
    last two fields are history: the loop writes them and never reads
    them.  [enqueued] lists every entry ever put on the queue, in the
    order it was put; [fetched] lists every call of
    [extractContentFromUrl], with the entry it was made for and how
    it completed. *)
Record Traversal := {
  queue : list QueueEntry;
  visitedUrls : gset string;
  results : list PageContent;
  session : Session W;
  enqueued : list QueueEntry;
  fetched : list (QueueEntry * Completion PageContent)
}.

Section Loop.
Variables (depth_ maxPages_ : Z).

(** [queue.length > 0 && results.length < maxPages] *)
Definition loop_condition (t : Traversal) : bool :=
  (0 <? length (queue t))%nat
  && (Z.of_nat (length (results t)) <? maxPages_)%Z.

(** [linkedPages]: the links of the page not visited yet, one level
    deeper. *)
Definition linkedPages (visited : gset string) (currentDepth : Z)
           (pageContent : PageContent) : list QueueEntry :=
  map (fun link =>
         {| entry_url := Link.url link; currentDepth := currentDepth + 1 |})
      (List.filter
         (fun link => negb (bool_decide (Link.url link ∈ visited)))
         (links pageContent)).

(** One turn of the [while] loop.  On an empty queue, which the loop
    condition excludes, nothing changes. *)
Definition loop_body (t : Traversal) : Traversal :=
  match queue t with
  | [] => t
  | entry :: rest =>
      (* const { url, currentDepth } = queue.shift()! *)
      if bool_decide (entry_url entry ∈ visitedUrls t)
         || (maxPages_ <=? Z.of_nat (length (results t)))%Z
      then (* continue *)
        {| queue := rest; visitedUrls := visitedUrls t;
           results := results t; session := session t;
           enqueued := enqueued t; fetched := fetched t |}
      else
        let visited := {[ entry_url entry ]} ∪ visitedUrls t in
        match extractContentFromUrl (entry_url entry) (session t) with
        | (s, Return pageContent) =>
            let pushed :=
              if (currentDepth entry <? depth_)%Z
              then linkedPages visited (currentDepth entry) pageContent
              else [] in
            {| queue := rest ++ pushed; visitedUrls := visited;
               results := results t ++ [pageContent]; session := s;
               enqueued := enqueued t ++ pushed;
               fetched := fetched t ++ [(entry, Return pageContent)] |}
        | (s, Throw error) =>
            (* catch: continue with the next URL *)
            {| queue := rest; visitedUrls := visited;
               results := results t; session := s;
               enqueued := enqueued t;
               fetched := fetched t ++ [(entry, Throw error)] |}
        end
  end.

Definition measure (t : Traversal) : nat * nat :=
  (Z.to_nat (maxPages_ - Z.of_nat (length (results t))),
   length (queue t)).

Lemma loop_body_decreases (t : Traversal) :
  loop_condition t = true -> lex_lt (measure (loop_body t)) (measure t).
Proof.
  unfold loop_condition, loop_body, measure, lex_lt.
  intros Hc. apply andb_true_iff in Hc as [Hq Hr].
  apply Nat.ltb_lt in Hq. apply Z.ltb_lt in Hr.
  destruct (queue t) as [| entry rest]; simpl in *; [lia |].
  destruct (bool_decide _ || _); simpl; [right; lia |].
  destruct (extractContentFromUrl _ _) as [s [pageContent | error]];
    simpl.
  - left. rewrite length_app. simpl. lia.
  - right. lia.
Defined.

(** [while (queue.length > 0 && results.length < maxPages) { ... }] *)
Equations while_loop (t : Traversal) : Traversal
  by wf (measure t) lex_lt :=
  while_loop t with inspect (loop_condition t) := {
    | exist _ true Hc => while_loop (loop_body t)
    | exist _ false _ => t }.
Next Obligation. apply loop_body_decreases. exact Hc. Defined.

(** The loop run for at most [fuel] turns. *)
Fixpoint while_fuel (fuel : nat) (t : Traversal) : option Traversal :=
  if loop_condition t then
    match fuel with
    | O => None
    | S fuel' => while_fuel fuel' (loop_body t)
    end
  else Some t.
End Loop.

Definition initialQueue (initialUrls : list string) : list QueueEntry :=
  map (fun url => {| entry_url := url; currentDepth := 1 |}) initialUrls.

Definition initialTraversal (initialUrls : list string) (s : Session W)
  : Traversal :=
  {| queue := initialQueue initialUrls; visitedUrls := ∅; results := [];
     session := s; enqueued := initialQueue initialUrls; fetched := [] |}.

(** [performDeepSearch] up to the end of its loop. *)
Definition traverse (initialUrls : list string) (options : DeepSearchOptions)
           (s : Session W) : Traversal :=
  let depth := or_default (depth options) 1 in
  let maxPages := or_default (maxPages options) 5 in
  while_loop depth maxPages (initialTraversal initialUrls s).

(** Perform a deep search by following links to a specified depth. *)
Definition performDeepSearch (initialUrls : list string)
           (options : DeepSearchOptions) : Async W (list PageContent) :=
  fun s =>
    let t := traverse initialUrls options s in
    (session t, Return (results t)).
End Service.

Arguments Traversal : clear implicits.

End PuppeteerService.

(* ================================================================== *)
(** * What the extractors keep                                          *)
(* ================================================================== *)

Module Kept.
Import Js Dom Browser.

(** The anchors of a document that have an [href], in document order. *)
Definition anchors (d : Document) : list Node :=
  map snd (querySelectorAll d (ByTagAttr "a" "href")).

(** A link as [ContentExtractor.extractLinks] keeps it: its URL is what
    the [href] of an anchor of the document resolves to, it starts with
    [http] and is no image, archive, admin or CDN address; its text is
    the cleaned text of the anchor and has more than one character, so
    the text of the anchor is not white space only. *)
Definition by_class_extractor `{UrlParser} (d : Document) (all : list Node)
           (l : Link.t) : Prop :=
  startsWith (Link.url l) "http" = true
  /\ ContentExtractor.notContentPage (Link.url l) = false
  /\ (1 < String.length (Link.text l))%nat
  /\ exists anchor href,
       anchor ∈ all
       /\ getAttribute anchor "href" = Some href
       /\ URL_href href (location_href d) = Some (Link.url l)
       /\ Link.text l = trim (replace_run "s" " " (textContent anchor))
       /\ whitespace_only (textContent anchor) = false.

(** A link as [extractLinks] of [utils/content-extractor.ts] keeps it:
    its URL is what the [href] of an anchor resolves to, the [href] is
    not empty and starts with none of [javascript:], [mailto:], [tel:]
    and [#], the URL starts with the origin of the document, and its
    text is the trimmed text of the anchor, or the URL when that is
    empty. *)
Definition by_utils_extractor `{UrlParser} (d : Document) (all : list Node)
           (l : Link.t) : Prop :=
  startsWith (Link.url l) (location_origin d) = true
  /\ exists anchor href,
       anchor ∈ all
       /\ getAttribute anchor "href" = Some href
       /\ href <> ""
       /\ startsWith href "javascript:" = false
       /\ startsWith href "mailto:" = false
       /\ startsWith href "tel:" = false
       /\ startsWith href "#" = false
       /\ URL_href href (location_href d) = Some (Link.url l)
       /\ Link.text l
          = (if String.eqb (trim (textContent anchor)) "" then Link.url l
             else trim (textContent anchor)).




(** A selector the walk of [UtilsExtractor.firstLongMatch] goes past:
    it matches nothing, or the trimmed text of its first match has at
    most 100 characters. *)
Definition too_short (d : Document) (selector : Selector) : Prop :=
  match querySelector d selector with
  | Some x => (String.length (trim (textContent (snd x))) <= 100)%nat
  | None => True
  end.

End Kept.

(* ================================================================== *)
(** * Reading the history of a traversal                                *)
(* ================================================================== *)

Module History.
Import Js Dom Browser PuppeteerService.

(** The URLs a trace navigated to, in order. *)
Definition goto_urls (tr : list Event) : list string :=
  omap (fun ev => match ev with Goto _ u => Some u | _ => None end) tr.

(** The pages a trace opened, and those it closed. *)
Definition opened (tr : list Event) : list Page :=
  omap (fun ev => match ev with NewPage p => Some p | _ => None end) tr.

Definition closed (tr : list Event) : list Page :=
  omap (fun ev => match ev with Close p => Some p | _ => None end) tr.

(** The pages of the calls that returned one. *)
Definition successes (l : list (QueueEntry * Completion PageContent))
  : list PageContent :=
  omap (fun f => returned (snd f)) l.

(** The first entry for each URL, in the order of the list: an entry
    is left out when its URL is in [seen] or is the URL of an entry
    before it. *)
Fixpoint first_occurrences_from (seen : gset string) (l : list QueueEntry)
  : list QueueEntry :=
  match l with
  | [] => []
  | e :: l' =>
      if bool_decide (entry_url e ∈ seen) then first_occurrences_from seen l'
      else e :: first_occurrences_from ({[ entry_url e ]} ∪ seen) l'
  end.

Definition first_occurrences (l : list QueueEntry) : list QueueEntry :=
  first_occurrences_from ∅ l.

(** The entries of the calls that returned a page, in the order of the
    calls. *)
Definition entries_returned (l : list (QueueEntry * Completion PageContent))
  : list QueueEntry :=
  map fst (List.filter (fun f => negb (throws (snd f))) l).

Section Traversal.
Context {W : Type}.

(** The URLs [extractContentFromUrl] was called for, in order. *)
Definition fetched_urls (t : Traversal W) : list string :=
  map (fun f => entry_url (fst f)) (fetched t).

(** What the loop keeps true of its variables: the results are the
    pages of the successful calls, the visited set holds the URLs
    fetched, no URL was fetched twice, a page carries the URL it was
    fetched for, and the results stay within the budget. *)
Record bookkeeping (maxPages_ : Z) (t : Traversal W) : Prop := {
  bk_results : results t = successes (fetched t);
  bk_visited : forall u, u ∈ visitedUrls t <-> u ∈ fetched_urls t;
  bk_nodup : NoDup (fetched_urls t);
  bk_url : forall e p, (e, Return p) ∈ fetched t -> url p = entry_url e;
  bk_budget : (Z.of_nat (length (results t)) <= Z.max 0 maxPages_)%Z
}.

(** The pages of the results, each with the depth of the queue entry
    it was fetched for. *)
Definition results_with_depth (t : Traversal W) : list (PageContent * Z) :=
  omap (fun f => match snd f with
                 | Return p => Some (p, currentDepth (fst f))
                 | Throw _ => None
                 end) (fetched t).

(** The results as queue entries: the URL of the page and the
    depth it was fetched at. *)
Definition result_entries (t : Traversal W) : list QueueEntry :=
  map (fun pd => {| entry_url := url (fst pd); currentDepth := snd pd |})
      (results_with_depth t).

(** First in, first out, and breadth first: the queue is what is left
    of the entries put on it, the calls were made in the order the
    entries were put, the depths never decrease along that order, and
    no entry is more than one level deeper than a queued one. *)
Record breadth_first (t : Traversal W) : Prop := {
  bf_fifo : exists done,
      enqueued t = done ++ queue t
      /\ map fst (fetched t) `sublist_of` done;
  bf_sorted : StronglySorted Z.le (map currentDepth (enqueued t));
  bf_window : forall e q, e ∈ enqueued t -> q ∈ queue t ->
                          (currentDepth e <= currentDepth q + 1)%Z
}.

(** First come, first served: the calls of [extractContentFromUrl] were
    made for the entries taken off the queue, in the order they were
    put on it, once for each URL: for the first entry that has it. *)
Definition first_come (t : Traversal W) : Prop :=
  exists done,
    enqueued t = done ++ queue t
    /\ map fst (fetched t) = first_occurrences done.

(** The number of links of a list of pages. *)
Definition links_total (pages : list PageContent) : nat :=
  sum_list_with (fun p => length (links p)) pages.

(** The entries ever queued are the seeds and links of the results. *)
Definition bounded_frontier (seeds : list string) (t : Traversal W) : Prop :=
  (length (enqueued t) <= length seeds + links_total (results t))%nat.
End Traversal.

(** [u] is a link of a page that a call listed in [before] returned,
    and it starts with the origin of the document [d] in which that
    call extracted its links, as the trace [tr] records the call. *)
Definition discovered_from `{UrlParser} (tr : list Event)
           (before : list (QueueEntry * Completion PageContent))
           (u : string) : Prop :=
  exists parent p pg d1 d2 d tr1 tr2,
    (parent, Return p) ∈ before
    /\ u ∈ map Link.url (links p)
    /\ tr = tr1 ++ [NewPage pg; Goto pg (entry_url parent); Evaluate pg d1;
                   Evaluate pg d2; Evaluate pg d; Close pg] ++ tr2
    /\ UtilsExtractor.extractLinks_in_page d = Return (links p)
    /\ startsWith u (location_origin d) = true.

(** Every call but those for the seeds was made for a URL discovered
    from a page fetched before it. *)
Record discovery `{UrlParser} {W : Type} (seeds : list string)
       (tr0 : list Event) (t : Traversal W) : Prop := {
  dc_trace : exists evs, trace (session t) = tr0 ++ evs
                         /\ goto_urls evs `sublist_of` fetched_urls t;
  dc_queue : forall e, e ∈ queue t ->
      entry_url e ∈ seeds
      \/ discovered_from (trace (session t)) (fetched t) (entry_url e);
  dc_fetched : forall i f, fetched t !! i = Some f ->
      entry_url (fst f) ∈ seeds
      \/ discovered_from (trace (session t)) (take i (fetched t))
           (entry_url (fst f))
}.

End History.

(* ================================================================== *)
(** * src/tools/deep-search.ts                                          *)
(* ================================================================== *)

Module DeepSearchTool.
Import Js.

(** A value of the tool's arguments, which arrive as JSON. *)
Inductive Argument :=
| Num (n : Z)
| Str (s : string)
| Bool (b : bool)
| Null
| Obj (text : string).      (* an array or object for which String(value)
                               returns [text]; one for which it throws
                               is [DeepSearchHandler.Unconvertible] *)

Record Params := {
  query : string;
  results : option Argument;
  depth : option Argument
}.

(** [String(value)] *)
Definition String_ (a : Argument) : string :=
  match a with
  | Num n => Number_toString n
  | Str s => s
  | Bool true => "true"
  | Bool false => "false"
  | Null => "null"
  | Obj text => text
  end.

(** [const { results = 3 } = params]: the default stands in for a
    missing property. *)
Definition with_default (a : option Argument) (d : Z) : Argument :=
  match a with
  | Some v => v
  | None => Num d
  end.

(** [Math.min(Math.max(1, parseInt(String(results)) || 3), 10)] *)
Definition maxResults (params : Params) : Z :=
  Z.min (Z.max 1 (or_default (parseInt (String_ (with_default (results params) 3))) 3)) 10.

(** [Math.min(Math.max(1, parseInt(String(depth)) || 1), 3)] *)
Definition maxDepth (params : Params) : Z :=
  Z.min (Z.max 1 (or_default (parseInt (String_ (with_default (depth params) 1))) 1)) 3.

(** The options the handler passes to [performDeepSearch]. *)
Definition deepSearchOptions (params : Params)
  : PuppeteerService.DeepSearchOptions :=
  {| PuppeteerService.depth := Some (maxDepth params);
     PuppeteerService.maxPages := Some (maxResults params * maxDepth params)%Z |}.

(** The value [requested] kept inside the interval from [lo] to [hi]. *)
Definition clamp (lo hi requested : Z) : Z := Z.min (Z.max lo requested) hi.

End DeepSearchTool.

(* ================================================================== *)
(** * A small static web                                                *)
(* ================================================================== *)

(** A concrete outside world on which the model runs: a table from URLs
    to the documents they render, pages numbered in the order they are
    opened, and a switch that makes setting the user agent fail. *)
Module StaticWeb.
Import Js Browser.

Record World := {
  site : list (string * Dom.Document);
  next_page : nat;
  shown : list (Page * Dom.Document);
  agent_fails : bool
}.

Definition lookup_url (url : string) (w : World) : option Dom.Document :=
  match List.find (fun e => String.eqb (fst e) url) (site w) with
  | Some e => Some (snd e)
  | None => None
  end.

Definition lookup_page (p : Page) (w : World) : option Dom.Document :=
  match List.find (fun e => Nat.eqb (fst e) p) (shown w) with
  | Some e => Some (snd e)
  | None => None
  end.

#[global] Instance puppeteer : Puppeteer World := {|
  getBrowser_ w := (w, Return tt);
  browser_newPage_ w :=
    ({| site := site w; next_page := S (next_page w); shown := shown w;
        agent_fails := agent_fails w |}, Return (next_page w));
  page_setDefaultTimeout_ _ _ w := w;
  page_setDefaultNavigationTimeout_ _ _ w := w;
  page_setUserAgent_ _ _ w :=
    (w, if agent_fails w then Throw (ErrorObject "Protocol error")
        else Return tt);
  page_goto_ p url w :=
    match lookup_url url w with
    | Some d =>
        ({| site := site w; next_page := next_page w;
            shown := (p, d) :: shown w; agent_fails := agent_fails w |},
         Return tt)
    | None => (w, Throw (ErrorObject "net::ERR_NAME_NOT_RESOLVED"))
    end;
  page_title_ p w :=
    (w, match lookup_page p w with
        | Some d => Return (Dom.title d)
        | None => Throw (ErrorObject "no document")
        end);
  page_document_ p w :=
    (w, match lookup_page p w with
        | Some d => Return d
        | None => Throw (ErrorObject "no document")
        end);
  page_close_ _ w := (w, Return tt);
  PAGE_TIMEOUT := 30000%Z
|}.

(** A URL parser for absolute references and fragments: a reference
    that starts with [#] is appended to the base, any other is taken as
    absolute; the empty reference does not parse. *)
#[global] Instance urlParser : UrlParser := {|
  URL_href href base :=
    if String.eqb href "" then None
    else if startsWith href "#" then Some (base ++ href)%string
    else Some href
|}.

Definition start (pages : list (string * Dom.Document)) (agent_fails : bool)
  : Session World :=
  {| world := {| site := pages; next_page := 0; shown := [];
                 agent_fails := agent_fails |};
     trace := [] |}.

(** An anchor element. *)
Definition a (href text : string) : Dom.Node :=
  Dom.Element "a" [("href", href)] [Dom.Text text].

(** A document at [origin ++ path] whose body is [nodes]. *)
Definition page (origin path title : string) (nodes : list Dom.Node)
  : string * Dom.Document :=
  ((origin ++ path)%string,
   {| Dom.title := title;
      Dom.location_href := (origin ++ path)%string;
      Dom.location_origin := origin;
      Dom.documentElement :=
        Dom.Element "html" []
          [Dom.Element "head" [] []; Dom.Element "body" [] nodes] |}).

(** [performDeepSearch] run on a static web, up to the end of its
    loop. *)
Definition crawl (pages : list (string * Dom.Document))
           (initialUrls : list string)
           (options : PuppeteerService.DeepSearchOptions)
  : PuppeteerService.Traversal World :=
  PuppeteerService.traverse initialUrls options (start pages false).

(** [performDeepSearch] run on a static web. *)
Definition search (pages : list (string * Dom.Document))
           (initialUrls : list string)
           (options : PuppeteerService.DeepSearchOptions)
  : Session World * Completion (list PuppeteerService.PageContent) :=
  PuppeteerService.performDeepSearch initialUrls options (start pages false).

(** Two sites, A and B, each with one page linked from its home page;
    the page below A links back to the home page. *)
Definition two_sites : list (string * Dom.Document) :=
  [ page "https://a.example" "/" "A" [a "https://a.example/1" "first"];
    page "https://a.example" "/1" "A1" [a "https://a.example/" "home"];
    page "https://b.example" "/" "B" [a "https://b.example/1" "first"];
    page "https://b.example" "/1" "B1" [] ].

(** The same web with the home page of A taken away: navigating to it
    fails. *)
Definition site_b_only : list (string * Dom.Document) :=
  [ page "https://b.example" "/" "B" [a "https://b.example/1" "first"];
    page "https://b.example" "/1" "B1" [] ].

(** A page with the same link twice, the second time with a blank text,
    and a link to a .pdf; and a page with eleven links. *)
Definition repeated_links : string * Dom.Document :=
  page "https://a.example" "/" "A"
    [ a "https://a.example/x" "x"; a "https://a.example/x" " ";
      a "https://a.example/y.pdf" "paper" ].

Definition eleven_links : string * Dom.Document :=
  page "https://a.example" "/" "A"
    (map (fun n => a ("https://a.example/p" ++ n)%string n)
         ["0"; "1"; "2"; "3"; "4"; "5"; "6"; "7"; "8"; "9"; "10"]).





(** A site whose home page links to a host that only begins like its
    own. *)
Definition lookalike : list (string * Dom.Document) :=
  [ page "https://example.com" "/" "Home"
      [a "https://example.com.evil.org/x" "elsewhere"];
    page "https://example.com.evil.org" "/x" "Elsewhere" [] ].

End StaticWeb.

(* ================================================================== *)
(** * The Brave Search API (HTTP)                                       *)
(* ================================================================== *)

Module Http.
Import Js Browser.

(** A request as the clients build it: the address given to [new URL],
    the search parameters in the order they were appended, the method
    when one is given, and the headers. *)
Record Request := {
  url : string;
  searchParams : list (string * string);
  method : option string;
  headers : list (string * string)
}.

(** What the code reads of a [Response]. *)
Record Response := {
  ok : bool;
  status : Z;
  statusText : string
}.

(** The network: [fetch], and [response.json()] for a body of type
    [Data]; both can fail. *)
Class Fetch (W Data : Type) := {
  fetch_ : Request -> W -> W * Completion Response;
  response_json_ : Response -> W -> W * Completion Data
}.

Definition fetch {W Data : Type} `{Fetch W Data} (request : Request)
  : Async W Response :=
  record_call (fetch_ request) (fun _ => []).

Definition response_json {W Data : Type} `{Fetch W Data} (response : Response)
  : Async W Data :=
  record_call (response_json_ response) (fun _ => []).

(** [`Brave Search API error: ${response.status} ${response.statusText}`] *)
Definition api_error (response : Response) : Thrown :=
  ErrorObject ("Brave Search API error: " ++ Number_toString (status response)
               ++ " " ++ statusText response).

End Http.

(* ================================================================== *)
(** * src/services/brave-search.ts                                      *)
(* ================================================================== *)

Module BraveSearch.
Import Js Browser Http.

Definition BRAVE_SEARCH_API : string :=
  "https://api.search.brave.com/res/v1/web/search".

Record BraveSearchParams := {
  q : string;
  count : option Z;
  offset : option Z
}.

Record BraveSearchResult := {
  title : string;
  url : string;
  description : string
}.

Record BraveSearchResponse := {
  results : list BraveSearchResult;
  total : Z;
  query : string
}.

(** The body of an answer, as far as [searchWithBrave] reads it; the
    code writes [?.] and [||] where a property may be missing, and
    [None] is a missing property.  A property that is present holds a
    value of the type the interfaces of the file declare for it. *)
Record WebResult := {
  result_title : option string;
  result_url : option string;
  result_description : option string
}.

Record Web := {
  web_results : option (list WebResult);
  totalResults : option Z
}.

Record Query := { rawQuery : option string }.

Record Data := {
  web : option Web;
  data_query : option Query
}.

(** [if (n) params.append(name, n.toString())]: nothing is appended for
    a missing number and for zero. *)
Definition appended (name : string) (n : option Z) : list (string * string) :=
  match n with
  | Some v => if (v =? 0)%Z then [] else [(name, Number_toString v)]
  | None => []
  end.

(** The request of [searchWithBrave]. *)
Definition request (apiKey : string) (params : BraveSearchParams) : Request :=
  {| Http.url := BRAVE_SEARCH_API;
     searchParams :=
       [("q", q params)] ++ appended "count" (count params)
       ++ appended "offset" (offset params);
     method := None;
     headers := [("Accept", "application/json");
                 ("X-Subscription-Token", apiKey)] |}.

(** [data.web?.results?.map(...) || []] *)
Definition transform (data : Data) : list BraveSearchResult :=
  match web data with
  | Some w =>
      match web_results w with
      | Some l =>
          map (fun result =>
                 {| title := UtilsExtractor.or_else (result_title result) "";
                    url := UtilsExtractor.or_else (result_url result) "";
                    description :=
                      UtilsExtractor.or_else (result_description result) "" |})
              l
      | None => []
      end
  | None => []
  end.

Section Service.
Context {W : Type} `{Fetch W Data}.
Variable BRAVE_API_KEY : string.         (* config.BRAVE_API_KEY *)

(** Perform a search using the Brave Search API. *)
Definition searchWithBrave (params : BraveSearchParams)
  : Async W BraveSearchResponse :=
  let request := request BRAVE_API_KEY params in
  try_catch
    (await response <- fetch request ;;
     if negb (ok response) then throw (api_error response)
     else
       await data <- response_json response ;;
       ret {| results := transform data;
              total :=
                or_default
                  (match web data with
                   | Some w => totalResults w
                   | None => None
                   end) 0;
              query :=
                UtilsExtractor.or_else
                  (match data_query data with
                   | Some qu => rawQuery qu
                   | None => None
                   end) (q params) |})
    (fun error => throw error).
End Service.

End BraveSearch.

(* ================================================================== *)
(** * src/tools/deep-search.ts: the handler                             *)
(* ================================================================== *)

Module DeepSearchHandler.
Import Js Browser.

(** The line feed and the double quote of the template literals. *)
Definition newline : string := String (ascii_of_nat 10) "".
Definition quote : string := String (ascii_of_nat 34) "".

(** [s.slice(0, n)] *)
Definition slice_to (n : nat) (s : string) : string := String.substring 0 n s.

(** [{ type: "text", text }] *)
Record ContentItem := {
  type_ : string;
  text : string
}.

(** What the handler answers; [isError] is [false] where the source
    leaves the property out. *)
Record ToolResult := {
  isError : bool;
  content : list ContentItem
}.

Definition text_result (isError : bool) (text : string) : ToolResult :=
  {| isError := isError; content := [ {| type_ := "text"; text := text |} ] |}.

(** Step 4: the text of one page of the result. *)
Definition formatResult (result : PuppeteerService.PageContent) : string :=
  let content := PuppeteerService.content result in
  trim (newline
        ++ "# " ++ PuppeteerService.title result ++ newline
        ++ "URL: " ++ PuppeteerService.url result ++ newline
        ++ (if String.eqb (PuppeteerService.description result) "" then ""
            else "Description: " ++ PuppeteerService.description result)
        ++ newline
        ++ newline
        ++ "## Content" ++ newline
        ++ slice_to 1000 content
        ++ (if (1000 <? String.length content)%nat then "..." else "")
        ++ newline
        ++ "        ")%string.

(** [formattedResults.join('\n\n---\n\n')] *)
Definition separator : string :=
  (newline ++ newline ++ "---" ++ newline ++ newline)%string.

(** The summary the handler returns. *)
Definition summary (query : string) (maxDepth : Z)
           (deepSearchResults : list PuppeteerService.PageContent) : string :=
  let formattedResults := map formatResult deepSearchResults in
  trim (newline
        ++ "# Deep Search Results for " ++ quote ++ query ++ quote ++ newline
        ++ "Found " ++ Number_toString (Z.of_nat (length deepSearchResults))
        ++ " pages with depth " ++ Number_toString maxDepth ++ newline
        ++ newline
        ++ String.concat separator formattedResults ++ newline
        ++ "      ")%string.

(** A property of the arguments object as the handler receives it: a
    value that JavaScript turns into a string, or an object for which
    the conversion throws, with what is thrown: an object whose
    [toString] and [valueOf] give no primitive value, as the one of the
    JSON text [{"toString": 1}], makes [String(value)] throw a
    [TypeError]. *)
Inductive Received :=
| Converts (value : DeepSearchTool.Argument)
| Unconvertible (thrown : Thrown).

(** The arguments object [params]; [None] is a property that is
    missing, which reads as [undefined]. *)
Record Arguments := {
  arguments_query : option Received;
  arguments_results : option Received;
  arguments_depth : option Received
}.

(** [String(value)], which is also what a template literal puts for
    [${value}]. *)
Definition toString (value : option Received) : Completion string :=
  match value with
  | None => Return "undefined"
  | Some (Converts a) => Return (DeepSearchTool.String_ a)
  | Some (Unconvertible thrown) => Throw thrown
  end.

Definition value_of (value : option Received) : option DeepSearchTool.Argument :=
  match value with
  | Some (Converts a) => Some a
  | _ => None
  end.

Definition unconvertible (value : option Received) : bool :=
  match value with
  | Some (Unconvertible _) => true
  | _ => false
  end.

(** The statements of the handler before its [try]: the destructuring
    of [params] with its defaults, [String(results)], [String(depth)]
    and the template literal given to [debug], which converts [query].
    They throw when one of these conversions throws, the first one in
    this order, and otherwise give the parameters the rest of the
    handler works with. *)
Definition converted (arguments : Arguments)
  : Completion DeepSearchTool.Params :=
  match toString (arguments_results arguments) with
  | Throw thrown => Throw thrown
  | Return _ =>
      match toString (arguments_depth arguments) with
      | Throw thrown => Throw thrown
      | Return _ =>
          match toString (arguments_query arguments) with
          | Throw thrown => Throw thrown
          | Return query =>
              Return {| DeepSearchTool.query := query;
                        DeepSearchTool.results :=
                          value_of (arguments_results arguments);
                        DeepSearchTool.depth :=
                          value_of (arguments_depth arguments) |}
          end
      end
  end.

Section Handler.
Context {W : Type} `{Puppeteer W} `{UrlParser} `{Http.Fetch W BraveSearch.Data}.
Variable BRAVE_API_KEY : string.

(** Step 1: get initial search results from the Brave Search API,
    [searchWithBrave({ q: query, count: maxResults })]. *)
Definition initialSearch (params : DeepSearchTool.Params)
  : Async W BraveSearch.BraveSearchResponse :=
  BraveSearch.searchWithBrave BRAVE_API_KEY
    {| BraveSearch.q := DeepSearchTool.query params;
       BraveSearch.count := Some (DeepSearchTool.maxResults params);
       BraveSearch.offset := None |}.

(** Tool execution handler, from its [try] on: for arguments whose
    conversions to a string have returned.  The property [query] of the
    arguments is read only where JavaScript turns it into a string, and
    [DeepSearchTool.query] is that string. *)
Definition handler (params : DeepSearchTool.Params) : Async W ToolResult :=
  let query := DeepSearchTool.query params in
  let maxDepth := DeepSearchTool.maxDepth params in
  try_catch
    (await searchResponse <- initialSearch params ;;
     if (length (BraveSearch.results searchResponse) =? 0)%nat
     then ret (text_result false
                 ("No search results found for query: "
                  ++ quote ++ query ++ quote))
     else
       (* Step 2: extract URLs from search results *)
       let urls := map BraveSearch.url (BraveSearch.results searchResponse) in
       (* Step 3: perform deep search on the URLs *)
       await deepSearchResults <-
         PuppeteerService.performDeepSearch urls
           (* { depth: maxDepth, maxPages: maxResults * maxDepth } *)
           (DeepSearchTool.deepSearchOptions params) ;;
       ret (text_result false (summary query maxDepth deepSearchResults)))
    (fun error =>
       ret (text_result true
              ("Error performing deep search: " ++ error_text error))).

(** Tool execution handler, [deepSearchTool.handler(params)], whole:
    the conversions are made outside the [try], so what they throw
    leaves the function. *)
Definition deepSearchTool_handler (arguments : Arguments)
  : Async W ToolResult :=
  match converted arguments with
  | Return params => handler params
  | Throw thrown => throw thrown
  end.
End Handler.

End DeepSearchHandler.

(* ================================================================== *)
(** * src/server.ts                                                     *)
(* ================================================================== *)

Module Server.
Import Js Browser DeepSearchHandler.

(** [deepSearchTool.name] *)
Definition name : string := "deep-search".

Section Server.
Context {W : Type} `{Puppeteer W} `{UrlParser} `{Http.Fetch W BraveSearch.Data}.
Variable BRAVE_API_KEY : string.

(** [request.params.arguments || {}]: without arguments the handler
    reads every property as [undefined]. *)
Definition arguments_or_empty (arguments : option Arguments) : Arguments :=
  match arguments with
  | Some params => params
  | None => {| arguments_query := None;
               arguments_results := None;
               arguments_depth := None |}
  end.

(** The handler registered for [CallToolRequestSchema]. *)
Definition callTool (requested : string) (arguments : option Arguments)
  : Async W ToolResult :=
  if negb (String.eqb requested name)
  then ret (text_result true ("Unknown tool: " ++ requested))
  else deepSearchTool_handler BRAVE_API_KEY (arguments_or_empty arguments).
End Server.

End Server.

(* ================================================================== *)
(** * src/brave-search-client.ts                                        *)
(* ================================================================== *)

Module BraveSearchClient.
Import Js Browser Http.

(** A number that may be [NaN], which is [None]. *)
Definition Number := option Z.

(** [n.toString()] *)
Definition toString (n : Number) : string :=
  match n with
  | Some v => Number_toString v
  | None => "NaN"
  end.

Record BraveSearchResult := {
  url : string;
  title : string;
  description : string
}.

Record WebSearchParams := {
  query : string;
  count : option Number;
  offset : option Number
}.

(** The body of an answer, as far as [webSearch] reads it.  [None] is
    a property that is missing, and a result of the body carries the
    three strings that [BraveSearchResult] declares. *)
Record Web := { results : option (list BraveSearchResult) }.
Record Data := { web : option Web }.

Definition baseUrl : string :=
  "https://api.search.brave.com/res/v1/web/search".

(** [const { count = 10 } = params] *)
Definition with_default (n : option Number) (d : Z) : Number :=
  match n with
  | Some v => v
  | None => Some d
  end.

Section Client.
Context {W : Type} `{Fetch W Data}.
Variable apiKey : string.

(** Perform a web search using the Brave Search API. *)
Definition webSearch (params : WebSearchParams)
  : Async W (list BraveSearchResult) :=
  let count := with_default (count params) 10 in
  let offset := with_default (offset params) 0 in
  if String.eqb (query params) ""
  then throw (ErrorObject "Search query is required")
  else
    let request :=
      {| Http.url := baseUrl;
         searchParams := [("q", query params); ("count", toString count);
                          ("offset", toString offset)];
         method := Some "GET";
         headers := [("Accept", "application/json");
                     ("X-Subscription-Token", apiKey)] |} in
    try_catch
      (await response <- fetch request ;;
       if negb (ok response) then throw (api_error response)
       else
         await data <- response_json response ;;
         match web data with
         | None => ret []
         | Some w =>
             match results w with
             | None => ret []
             | Some l =>
                 ret (map (fun result =>
                             {| url := url result; title := title result;
                                description := description result |}) l)
             end
         end)
      (fun error => throw error).
End Client.

End BraveSearchClient.

(* ================================================================== *)
(** * src/deep-search-service.ts                                        *)
(* ================================================================== *)

Module DeepSearchService.
Import Js Browser.

(** Parameters for deep search. *)
Record DeepSearchParams := {
  query : string;
  count : option Z;
  depth : option Z
}.

(** Search result with extracted content. *)
Record EnrichedSearchResult := {
  url : string;
  title : string;
  description : string;
  extractedContent : option ContentExtractor.ExtractedContent;
  relatedPages : option (list ContentExtractor.ExtractedContent)
}.

(** Deep search response. *)
Record DeepSearchResponse := {
  response_query : string;
  results : list EnrichedSearchResult;
  summary : string
}.

(** [parseInt(s, 10)]: leading white space is skipped, a sign is read,
    and the longest prefix of decimal digits is the value; [None] is
    [NaN]. *)
Definition parseInt10 (s : string) : option Z :=
  let s1 := trimStart s in
  let '(sign, s2) :=
    match s1 with
    | String "-" r => ((-1)%Z, r)
    | String "+" r => (1%Z, r)
    | _ => (1%Z, s1)
    end in
  match parse_digits 10 None s2 with
  | Some v => Some (sign * v)%Z
  | None => None
  end.

(** [Math.min(a, b)] where [b] may be [NaN]. *)
Definition Math_min (a : Z) (b : option Z) : option Z :=
  match b with
  | Some v => Some (Z.min a v)
  | None => None
  end.

(** [{ ...result }]: a search result with nothing extracted. *)
Definition plain (result : BraveSearchClient.BraveSearchResult)
  : EnrichedSearchResult :=
  {| url := BraveSearchClient.url result;
     title := BraveSearchClient.title result;
     description := BraveSearchClient.description result;
     extractedContent := None; relatedPages := None |}.

(** [!error]: a missing error, or an empty message. *)
Definition no_error (page : ContentExtractor.ExtractedContent) : bool :=
  match ContentExtractor.error page with
  | Some message => String.eqb message ""
  | None => true
  end.

(** [r.extractedContent && !r.extractedContent.error] *)
Definition isValid (r : EnrichedSearchResult) : bool :=
  match extractedContent r with
  | Some page => no_error page
  | None => false
  end.

(** The counters of [generateSummary]. *)
Definition totalRelatedPages (validResults : list EnrichedSearchResult) : nat :=
  sum_list_with
    (fun result => match relatedPages result with
                   | Some pages => length pages
                   | None => 0%nat
                   end) validResults.

Definition successfulRelatedPages (validResults : list EnrichedSearchResult)
  : nat :=
  sum_list_with
    (fun result => match relatedPages result with
                   | Some pages => length (List.filter no_error pages)
                   | None => 0%nat
                   end) validResults.

(** Generate a summary of the search results. *)
Definition generateSummary (query : string)
           (results : list EnrichedSearchResult) : string :=
  let quote := DeepSearchHandler.quote in
  let validResults := List.filter isValid results in
  if (length validResults =? 0)%nat
  then ("No valid results found for " ++ quote ++ query ++ quote ++ ".")%string
  else
    let totalMainPages := length results in
    let successfulMainPages := length validResults in
    ("Deep search for " ++ quote ++ query ++ quote ++ " found "
     ++ Number_toString (Z.of_nat totalMainPages)
     ++ " results, with content successfully extracted from "
     ++ Number_toString (Z.of_nat successfulMainPages)
     ++ " pages. Additionally, "
     ++ Number_toString (Z.of_nat (totalRelatedPages validResults))
     ++ " related pages were analyzed, with "
     ++ Number_toString (Z.of_nat (successfulRelatedPages validResults))
     ++ " successfully processed.")%string.

Section Service.
Context {W : Type} `{Puppeteer W} `{UrlParser}
        `{Http.Fetch W BraveSearchClient.Data}.
Variable apiKey : string.
Variable MAX_PAGES_PER_SEARCH : option string.  (* process.env *)

(** The body of the loop of [processRelatedPages] for one link.  Its
    [catch] continues with the next link and sees [relatedPages] as it
    is when the exception is thrown: without the page of the link when
    its extraction failed, with it when the nested one failed. *)
Definition processRelatedPage (depth : Z) (link : Link.t)
           (relatedPages : list ContentExtractor.ExtractedContent)
  : Async W (list ContentExtractor.ExtractedContent) :=
  try_catch
    (await extractedContent <-
       ContentExtractor.extractContent (Link.url link) ;;
     let relatedPages := relatedPages ++ [extractedContent] in
     (* continue recursively if depth > 1 *)
     if (1 <? depth)%Z
        && (0 <? length (ContentExtractor.links extractedContent))%nat
     then
       match ContentExtractor.links extractedContent with
       | nextLevelLink :: _ =>
           try_catch
             (await nestedContent <-
                ContentExtractor.extractContent (Link.url nextLevelLink) ;;
              ret (relatedPages ++ [nestedContent]))
             (fun error => ret relatedPages)
       | [] => ret relatedPages
       end
     else ret relatedPages)
    (fun error => ret relatedPages).

Fixpoint processRelatedPages_loop (depth : Z) (pagesToProcess : list Link.t)
         (relatedPages : list ContentExtractor.ExtractedContent)
  : Async W (list ContentExtractor.ExtractedContent) :=
  match pagesToProcess with
  | [] => ret relatedPages
  | link :: rest =>
      await relatedPages <- processRelatedPage depth link relatedPages ;;
      processRelatedPages_loop depth rest relatedPages
  end.

(** Process related pages by extracting their content. *)
Definition processRelatedPages (links : list Link.t) (depth : Z)
  : Async W (list ContentExtractor.ExtractedContent) :=
  (* limit the number of related pages to process *)
  let pagesToProcess := firstn 3 links in
  processRelatedPages_loop depth pagesToProcess [].

(** The body of the loop of [processSearchResults] for one result. *)
Definition processSearchResult (depth : Z)
           (result : BraveSearchClient.BraveSearchResult)
           (enrichedResults : list EnrichedSearchResult)
  : Async W (list EnrichedSearchResult) :=
  try_catch
    (await extractedContent <-
       ContentExtractor.extractContent (BraveSearchClient.url result) ;;
     await related <-
       (if (0 <? depth)%Z
           && (0 <? length (ContentExtractor.links extractedContent))%nat
        then
          await pages <-
            processRelatedPages (ContentExtractor.links extractedContent)
              depth ;;
          ret (Some pages)
        else ret None) ;;
     ret (enrichedResults
          ++ [ {| url := BraveSearchClient.url result;
                  title := BraveSearchClient.title result;
                  description := BraveSearchClient.description result;
                  extractedContent := Some extractedContent;
                  relatedPages := related |} ]))
    (fun error =>
       (* still add the result, but without the extracted content *)
       ret (enrichedResults ++ [plain result])).

Fixpoint processSearchResults_loop (depth : Z)
         (searchResults : list BraveSearchClient.BraveSearchResult)
         (enrichedResults : list EnrichedSearchResult)
  : Async W (list EnrichedSearchResult) :=
  match searchResults with
  | [] => ret enrichedResults
  | result :: rest =>
      await enrichedResults <-
        processSearchResult depth result enrichedResults ;;
      processSearchResults_loop depth rest enrichedResults
  end.

(** Process search results by extracting content and related pages. *)
Definition processSearchResults
           (searchResults : list BraveSearchClient.BraveSearchResult)
           (depth : Z) : Async W (list EnrichedSearchResult) :=
  processSearchResults_loop depth searchResults [].

(** The limits [deepSearch] enforces. *)
Definition actualCount (params : DeepSearchParams) : option Z :=
  let count := match count params with Some c => c | None => 5%Z end in
  Math_min count
    (parseInt10 (UtilsExtractor.or_else MAX_PAGES_PER_SEARCH "5")).

Definition actualDepth (params : DeepSearchParams) : Z :=
  let depth := match depth params with Some d => d | None => 0%Z end in
  Z.min depth 2.

(** The initial search of [deepSearch]. *)
Definition initialSearch (params : DeepSearchParams)
  : Async W (list BraveSearchClient.BraveSearchResult) :=
  BraveSearchClient.webSearch apiKey
    {| BraveSearchClient.query := query params;
       BraveSearchClient.count := Some (actualCount params);
       BraveSearchClient.offset := None |}.

(** Perform a deep search. *)
Definition deepSearch (params : DeepSearchParams) : Async W DeepSearchResponse :=
  try_catch
    (await searchResults <- initialSearch params ;;
     await enrichedResults <-
       processSearchResults searchResults (actualDepth params) ;;
     let summary := generateSummary (query params) enrichedResults in
     ret {| response_query := query params; results := enrichedResults;
            summary := summary |})
    (fun error => throw error).
End Service.

End DeepSearchService.

(* ================================================================== *)
(** * What the deep search service returns                              *)
(* ================================================================== *)

Module Enriched.
Import Js Browser DeepSearchService.

(** The pages [processRelatedPages] adds for one link: the page
    extracted for the link and, when the depth is more than 1 and that
    page has links, the page extracted for the first of them. *)
Inductive related_to (depth : Z) (link : Link.t)
  : list ContentExtractor.ExtractedContent -> Prop :=
| related_page page :
    ContentExtractor.url page = Link.url link ->
    (depth <= 1)%Z \/ ContentExtractor.links page = [] ->
    related_to depth link [page]
| related_nested page nextLevelLink others nested :
    ContentExtractor.url page = Link.url link ->
    (1 < depth)%Z ->
    ContentExtractor.links page = nextLevelLink :: others ->
    ContentExtractor.url nested = Link.url nextLevelLink ->
    related_to depth link [page; nested].

(** The related pages of a list of links: those of its first three
    links, in their order. *)
Definition related_pages (depth : Z) (links : list Link.t)
           (pages : list ContentExtractor.ExtractedContent) : Prop :=
  exists groups,
    pages = concat groups
    /\ Forall2 (related_to depth) (firstn 3 links) groups.

(** An enriched result made from a search result: the same URL, title
    and description, the content extracted for its URL, and related
    pages exactly when the depth is positive and the page has links. *)
Definition enriched_from (depth : Z)
           (result : BraveSearchClient.BraveSearchResult)
           (r : EnrichedSearchResult) : Prop :=
  url r = BraveSearchClient.url result
  /\ title r = BraveSearchClient.title result
  /\ description r = BraveSearchClient.description result
  /\ exists page,
       extractedContent r = Some page
       /\ ContentExtractor.url page = BraveSearchClient.url result
       /\ match relatedPages r with
          | Some pages =>
              (0 < depth)%Z /\ ContentExtractor.links page <> []
              /\ related_pages depth (ContentExtractor.links page) pages
          | None => (depth <= 0)%Z \/ ContentExtractor.links page = []
          end.

End Enriched.

(* ================================================================== *)
(** * The shared browser                                                *)
(* ================================================================== *)

(** The two modules that keep one browser for all callers hold it in a
    variable that every call reads and writes.  A call runs without
    interruption from its start, or from the point where it was
    suspended by an [await], to its next [await] or to its end; between
    two such runs anything else may happen.  The models below have one
    action for each of these runs and for each thing that happens
    outside the code, and a state that holds the variables of the module
    and what is still in flight. *)

(** ** src/utils/browser.ts *)

Module UtilsBrowser.

Definition Browser := nat.

Record State := {
  browserInstance : option Browser;  (* let browserInstance: Browser | null *)
  pendingLaunches : nat;  (* calls of getBrowser suspended at puppeteer.launch *)
  pendingCloses : nat;    (* calls of closeBrowser suspended at browser.close *)
  listeners : list Browser;  (* browsers with a handler for 'disconnected' *)
  launches : nat          (* how many times puppeteer.launch was called *)
}.

Definition initial : State :=
  {| browserInstance := None; pendingLaunches := 0; pendingCloses := 0;
     listeners := []; launches := 0 |}.

Inductive Action :=
| GetBrowser                   (* a call of getBrowser() starts *)
| LaunchResolves (b : Browser) (* puppeteer.launch() resolves with b *)
| LaunchRejects                (* puppeteer.launch() rejects *)
| Disconnects (b : Browser)    (* b emits 'disconnected' *)
| CloseBrowser                 (* a call of closeBrowser() starts *)
| CloseResolves                (* browserInstance.close() resolves *)
| CloseRejects.                (* browserInstance.close() rejects *)

(** How a call ends, when the action ends one. *)
Inductive Outcome :=
| Returns (b : Browser)        (* getBrowser() returned b *)
| Done                         (* closeBrowser() returned *)
| Throws.

(** [getBrowser()], from its start to its [await] or its [return]. *)
Definition getBrowser_starts (st : State) : State * option Outcome :=
  match browserInstance st with
  | Some b => (st, Some (Returns b))
  | None =>
      ({| browserInstance := None;
          pendingLaunches := S (pendingLaunches st);
          pendingCloses := pendingCloses st;
          listeners := listeners st;
          launches := S (launches st) |}, None)
  end.

(** The rest of [getBrowser()], once [puppeteer.launch()] gave [b]. *)
Definition getBrowser_resumes (b : Browser) (st : State)
  : State * option Outcome :=
  ({| browserInstance := Some b;
      pendingLaunches := pred (pendingLaunches st);
      pendingCloses := pendingCloses st;
      listeners := b :: listeners st;
      launches := launches st |}, Some (Returns b)).

(** The handler of 'disconnected': [browserInstance = null]. *)
Definition disconnected (st : State) : State :=
  {| browserInstance := None;
     pendingLaunches := pendingLaunches st;
     pendingCloses := pendingCloses st;
     listeners := listeners st;
     launches := launches st |}.

(** [closeBrowser()], from its start to its [await] or its end. *)
Definition closeBrowser_starts (st : State) : State * option Outcome :=
  match browserInstance st with
  | Some _ =>
      ({| browserInstance := browserInstance st;
          pendingLaunches := pendingLaunches st;
          pendingCloses := S (pendingCloses st);
          listeners := listeners st;
          launches := launches st |}, None)
  | None => (st, Some Done)
  end.

(** The rest of [closeBrowser()]: [browserInstance = null]. *)
Definition closeBrowser_resumes (st : State) : State * option Outcome :=
  ({| browserInstance := None;
      pendingLaunches := pendingLaunches st;
      pendingCloses := pred (pendingCloses st);
      listeners := listeners st;
      launches := launches st |}, Some Done).

(** One action.  An action that resumes a call when none is suspended
    there, and the disconnection of a browser without a handler, change
    nothing. *)
Definition step (st : State) (a : Action) : State * option Outcome :=
  match a with
  | GetBrowser => getBrowser_starts st
  | LaunchResolves b =>
      if (0 <? pendingLaunches st)%nat then getBrowser_resumes b st
      else (st, None)
  | LaunchRejects =>
      if (0 <? pendingLaunches st)%nat
      then ({| browserInstance := browserInstance st;
               pendingLaunches := pred (pendingLaunches st);
               pendingCloses := pendingCloses st;
               listeners := listeners st;
               launches := launches st |}, Some Throws)
      else (st, None)
  | Disconnects b =>
      if existsb (Nat.eqb b) (listeners st) then (disconnected st, None)
      else (st, None)
  | CloseBrowser => closeBrowser_starts st
  | CloseResolves =>
      if (0 <? pendingCloses st)%nat then closeBrowser_resumes st
      else (st, None)
  | CloseRejects =>
      if (0 <? pendingCloses st)%nat
      then ({| browserInstance := browserInstance st;
               pendingLaunches := pendingLaunches st;
               pendingCloses := pred (pendingCloses st);
               listeners := listeners st;
               launches := launches st |}, Some Throws)
      else (st, None)
  end.

(** A sequence of actions, with the outcomes of the calls that ended. *)
Fixpoint run (st : State) (actions : list Action) : State * list Outcome :=
  match actions with
  | [] => (st, [])
  | a :: rest =>
      let '(st1, o) := step st a in
      let '(st2, os) := run st1 rest in
      (st2, match o with Some x => x :: os | None => os end)
  end.

End UtilsBrowser.

(** ** src/browser-manager.ts: the browser of [BrowserManager] *)

Module ManagedBrowser.

Definition Browser := nat.

(** A call of [initBrowser()], and the promise it returned, by its
    number in the order of these calls. *)
Definition Init := nat.

Record State := {
  browser : option Browser;       (* private browser: Browser | null *)
  isInitializing : bool;          (* private isInitializing *)
  initPromise : option Init;      (* private initPromise *)
  launching : list Init;  (* calls of initBrowser suspended at puppeteer.launch *)
  settled : list (Init * option Browser);
                          (* promises resolved with a browser, or rejected *)
  awaiting : list Init;   (* calls of getBrowser suspended at
                             await this.initPromise, by the promise awaited *)
  pendingCloses : nat;    (* calls of closeBrowser suspended at browser.close *)
  listeners : list Browser;  (* browsers with a handler for 'disconnected' *)
  launches : nat          (* how many times puppeteer.launch was called *)
}.

Definition initial : State :=
  {| browser := None; isInitializing := false; initPromise := None;
     launching := []; settled := []; awaiting := []; pendingCloses := 0;
     listeners := []; launches := 0 |}.

Inductive Action :=
| GetBrowser                   (* a call of getBrowser() starts *)
| LaunchResolves (i : Init) (b : Browser)
                               (* puppeteer.launch() of call i resolves *)
| LaunchRejects (i : Init)     (* puppeteer.launch() of call i rejects *)
| GetBrowserResumes (i : Init) (* the call that awaits promise i goes on *)
| Disconnects (b : Browser)    (* b emits 'disconnected' *)
| CloseBrowser                 (* a call of closeBrowser() starts *)
| CloseResolves                (* this.browser.close() resolves *)
| CloseRejects.                (* this.browser.close() rejects *)

Inductive Outcome :=
| Returns (b : Browser)        (* getBrowser() returned b *)
| ReturnsInitPromise           (* getBrowser() returned this.initPromise *)
| Done                         (* closeBrowser() returned *)
| Throws.

Definition without (i : Init) (l : list Init) : list Init :=
  List.filter (fun j => negb (Nat.eqb j i)) l.

Definition result_of (i : Init) (st : State) : option (option Browser) :=
  match List.find (fun e => Nat.eqb (fst e) i) (settled st) with
  | Some e => Some (snd e)
  | None => None
  end.

(** [getBrowser()], from its start to its [await] or its [return];
    [this.initBrowser()] runs up to its call of [puppeteer.launch]. *)
Definition getBrowser_starts (st : State) : State * option Outcome :=
  match browser st with
  | Some b => (st, Some (Returns b))
  | None =>
      if isInitializing st then (st, Some ReturnsInitPromise)
      else
        let i := launches st in
        ({| browser := None; isInitializing := true;
            initPromise := Some i;
            launching := i :: launching st;
            settled := settled st;
            awaiting := i :: awaiting st;
            pendingCloses := pendingCloses st;
            listeners := listeners st;
            launches := S (launches st) |}, None)
  end.

(** The rest of [initBrowser()], call [i]: it registers the handler
    and resolves its promise with the browser, or rejects it. *)
Definition initBrowser_resumes (i : Init) (launched : option Browser)
           (st : State) : State :=
  {| browser := browser st; isInitializing := isInitializing st;
     initPromise := initPromise st;
     launching := without i (launching st);
     settled := (i, launched) :: settled st;
     awaiting := awaiting st;
     pendingCloses := pendingCloses st;
     listeners := match launched with
                  | Some b => b :: listeners st
                  | None => listeners st
                  end;
     launches := launches st |}.

(** The rest of [getBrowser()], once the promise it awaits is settled:
    [this.browser = await this.initPromise], then the [finally]. *)
Definition getBrowser_resumes (i : Init) (result : option Browser) (st : State)
  : State * option Outcome :=
  ({| browser := match result with
                 | Some b => Some b
                 | None => browser st
                 end;
      isInitializing := false; initPromise := None;
      launching := launching st;
      settled := settled st;
      awaiting := without i (awaiting st);
      pendingCloses := pendingCloses st;
      listeners := listeners st;
      launches := launches st |},
   Some (match result with Some b => Returns b | None => Throws end)).

(** The handler of 'disconnected': [this.browser = null]. *)
Definition disconnected (st : State) : State :=
  {| browser := None; isInitializing := isInitializing st;
     initPromise := initPromise st;
     launching := launching st; settled := settled st;
     awaiting := awaiting st;
     pendingCloses := pendingCloses st;
     listeners := listeners st;
     launches := launches st |}.

(** [closeBrowser()], from its start to its [await] or its end. *)
Definition closeBrowser_starts (st : State) : State * option Outcome :=
  match browser st with
  | Some _ =>
      ({| browser := browser st; isInitializing := isInitializing st;
          initPromise := initPromise st;
          launching := launching st; settled := settled st;
          awaiting := awaiting st;
          pendingCloses := S (pendingCloses st);
          listeners := listeners st;
          launches := launches st |}, None)
  | None => (st, Some Done)
  end.

(** The rest of [closeBrowser()]: [this.browser = null] when the
    browser closed; otherwise the error is logged.  The call returns
    either way. *)
Definition closeBrowser_resumes (closed : bool) (st : State)
  : State * option Outcome :=
  ({| browser := if closed then None else browser st;
      isInitializing := isInitializing st;
      initPromise := initPromise st;
      launching := launching st; settled := settled st;
      awaiting := awaiting st;
      pendingCloses := pred (pendingCloses st);
      listeners := listeners st;
      launches := launches st |}, Some Done).

(** One action.  An action that resumes a call which is not suspended
    there, and the disconnection of a browser without a handler, change
    nothing. *)
Definition step (st : State) (a : Action) : State * option Outcome :=
  match a with
  | GetBrowser => getBrowser_starts st
  | LaunchResolves i b =>
      if existsb (Nat.eqb i) (launching st)
      then (initBrowser_resumes i (Some b) st, None)
      else (st, None)
  | LaunchRejects i =>
      if existsb (Nat.eqb i) (launching st)
      then (initBrowser_resumes i None st, None)
      else (st, None)
  | GetBrowserResumes i =>
      if existsb (Nat.eqb i) (awaiting st)
      then match result_of i st with
           | Some result => getBrowser_resumes i result st
           | None => (st, None)
           end
      else (st, None)
  | Disconnects b =>
      if existsb (Nat.eqb b) (listeners st) then (disconnected st, None)
      else (st, None)
  | CloseBrowser => closeBrowser_starts st
  | CloseResolves =>
      if (0 <? pendingCloses st)%nat then closeBrowser_resumes true st
      else (st, None)
  | CloseRejects =>
      if (0 <? pendingCloses st)%nat then closeBrowser_resumes false st
      else (st, None)
  end.

(** A sequence of actions, with the outcomes of the calls that ended. *)
Fixpoint run (st : State) (actions : list Action) : State * list Outcome :=
  match actions with
  | [] => (st, [])
  | a :: rest =>
      let '(st1, o) := step st a in
      let '(st2, os) := run st1 rest in
      (st2, match o with Some x => x :: os | None => os end)
  end.

(** The calls and promises of a state were all made before. *)
Definition fresh (st : State) : Prop :=
  forall i, In i (awaiting st) \/ In i (launching st)
            \/ result_of i st <> None -> (i < launches st)%nat.

(** What every reachable state satisfies: nothing is initializing; or
    one call of [getBrowser] awaits the promise of the one launch in
    flight; or it awaits a promise that is settled and no launch is in
    flight. *)
Definition one_initialization (st : State) : Prop :=
  fresh st
  /\ ((isInitializing st = false /\ awaiting st = [] /\ launching st = [])
      \/ (exists i, isInitializing st = true /\ awaiting st = [i]
                    /\ launching st = [i] /\ result_of i st = None)
      \/ (exists i, isInitializing st = true /\ awaiting st = [i]
                    /\ launching st = [] /\ result_of i st <> None)).

End ManagedBrowser.

(* ================================================================== *)
(** * Reading the use of pages off a trace                              *)
(* ================================================================== *)

Module Pages.
Import Browser.

(** The trace uses the pages one at a time: a page is opened only when
    none is open, every navigation and evaluation is made in the page
    that is open, the page closed is the one that is open, and no page
    is open at the end.  [current] is the page open at the start. *)
Fixpoint one_at_a_time (current : option Page) (tr : list Event) : bool :=
  match tr with
  | [] => match current with None => true | Some _ => false end
  | NewPage p :: rest =>
      match current with
      | None => one_at_a_time (Some p) rest
      | Some _ => false
      end
  | Goto p _ :: rest | Evaluate p _ :: rest =>
      match current with
      | Some q => Nat.eqb p q && one_at_a_time current rest
      | None => false
      end
  | Close p :: rest =>
      match current with
      | Some q => Nat.eqb p q && one_at_a_time None rest
      | None => false
      end
  end.

End Pages.

(* ================================================================== *)
(** * The report of the handler, written out                            *)
(* ================================================================== *)

Module Report.
Import Js DeepSearchHandler.

(** A string that does not end in white space: it is not empty, and
    trimming its end changes nothing. *)
Definition ends_in_text (s : string) : Prop := s <> "" /\ trimEnd s = s.

(** What the report shows of a content, from the end of the line
    before it: the first 1000 characters, followed by three dots when
    the content is longer, without the white space at the end. *)
Definition excerpt (content : string) : string :=
  trimEnd (newline
           ++ slice_to 1000 content
           ++ (if (1000 <? String.length content)%nat then "..." else ""))
  %string.

(** The text of one page: its title, its URL, its description when it
    has one, and the excerpt of its content. *)
Definition block (result : PuppeteerService.PageContent) : string :=
  ("# " ++ PuppeteerService.title result ++ newline
   ++ "URL: " ++ PuppeteerService.url result ++ newline
   ++ (if String.eqb (PuppeteerService.description result) "" then ""
       else "Description: " ++ PuppeteerService.description result)
   ++ newline
   ++ newline
   ++ "## Content"
   ++ excerpt (PuppeteerService.content result))%string.

(** The first two lines of the report. *)
Definition header (query : string) (maxDepth : Z) (pages : nat) : string :=
  ("# Deep Search Results for " ++ quote ++ query ++ quote ++ newline
   ++ "Found " ++ Number_toString (Z.of_nat pages)
   ++ " pages with depth " ++ Number_toString maxDepth)%string.

(** The report: the header and, after an empty line, the texts of the
    pages with a rule between them. *)
Definition report (query : string) (maxDepth : Z)
           (pages : list PuppeteerService.PageContent) : string :=
  (header query maxDepth (length pages)
   ++ match pages with
      | [] => ""
      | _ => newline ++ newline ++ String.concat separator (map block pages)
      end)%string.

End Report.

(* ================================================================== *)
(** * The ends of a text                                                *)
(* ================================================================== *)

Module Trimmed.
Import Js.

Definition first_char (s : string) : option ascii :=
  match s with
  | String c _ => Some c
  | EmptyString => None
  end.

Definition last_char (s : string) : option ascii :=
  first_char (String.rev s).

(** The string neither starts nor ends with a character of white
    space. *)
Definition no_white_space_at_ends (s : string) : Prop :=
  (forall c, first_char s = Some c -> is_white_space c = false)
  /\ (forall c, last_char s = Some c -> is_white_space c = false).

End Trimmed.

(* ================================================================== *)
(** * The order of the links                                            *)
(* ================================================================== *)

Module DocumentOrder.
Import Js Dom Browser.

(** The link [l] was made from [anchor]: its URL is what the [href] of
    the anchor resolves to in the document. *)
Definition from_anchor `{UrlParser} (d : Document) (anchor : Node)
           (l : Link.t) : Prop :=
  exists href,
    getAttribute anchor "href" = Some href
    /\ URL_href href (location_href d) = Some (Link.url l).

(** The links were made, one each and in this order, from anchors that
    follow one another in the document. *)
Definition in_document_order `{UrlParser} (d : Document)
           (links : list Link.t) : Prop :=
  exists kept,
    kept `sublist_of` Kept.anchors d
    /\ Forall2 (from_anchor d) kept links.

End DocumentOrder.

(* ================================================================== *)
(** * src/utils/config.ts                                               *)
(* ================================================================== *)

Module Config.

(** [process.env], as far as the schema reads it, after [dotenv] has
    filled it: a variable is a string or is not set. *)
Record Env := {
  env_BRAVE_API_KEY : option string;
  env_PUPPETEER_HEADLESS : option string;
  env_PAGE_TIMEOUT : option string;
  env_DEBUG_MODE : option string
}.

Section Schema.
(** [Number(s)] for a string, with the type of its values. *)
Variable JsNumber : Type.
Variable Number_ : string -> JsNumber.

(** The exported [config]. *)
Record t := {
  BRAVE_API_KEY : string;
  PUPPETEER_HEADLESS : string;
  PAGE_TIMEOUT : JsNumber;
  DEBUG_MODE : string;
  isHeadless : bool;
  isDebugMode : bool
}.

(** [z.string().min(1, ...)]: a string of at least one character. *)
Definition required (v : option string) : option string :=
  match v with
  | Some s => if String.eqb s "" then None else Some s
  | None => None
  end.

(** [z.enum(['true', 'false']).default(d)]: the default for a variable
    that is not set, and otherwise one of the two values. *)
Definition flag (v : option string) (d : string) : option string :=
  match v with
  | None => Some d
  | Some s => if String.eqb s "true" || String.eqb s "false" then Some s
              else None
  end.

(** [z.string().default('30000').transform(Number)] *)
Definition timeout (v : option string) : JsNumber :=
  Number_ (match v with Some s => s | None => "30000" end).

(** [v !== 'false'] and [v === 'true'] on a variable that may not be
    set. *)
Definition differs_from (v : option string) (s : string) : bool :=
  match v with
  | Some x => negb (String.eqb x s)
  | None => true
  end.

Definition equals (v : option string) (s : string) : bool :=
  match v with
  | Some x => String.eqb x s
  | None => false
  end.

(** The configuration the module exports; [None] when the validation
    fails and [parseEnv] ends the process with [process.exit(1)]. *)
Definition config (env : Env) : option t :=
  match required (env_BRAVE_API_KEY env),
        flag (env_PUPPETEER_HEADLESS env) "true",
        flag (env_DEBUG_MODE env) "false" with
  | Some key, Some headless, Some debugMode =>
      Some {| BRAVE_API_KEY := key;
              PUPPETEER_HEADLESS := headless;
              PAGE_TIMEOUT := timeout (env_PAGE_TIMEOUT env);
              DEBUG_MODE := debugMode;
              isHeadless := differs_from (env_PUPPETEER_HEADLESS env) "false";
              isDebugMode := equals (env_DEBUG_MODE env) "true" |}
  | _, _, _ => None
  end.
End Schema.

End Config.

(* ================================================================== *)
(** * What the removal of elements leaves                               *)
(* ================================================================== *)

Module Removal.
Import Dom.

(** The children [remove_matching] keeps of a list of children. *)
Definition kept_children (sel : Selector) (l : list Node) : list Node :=
  (fix each (l : list Node) : list Node :=
     match l with
     | [] => []
     | c :: l' =>
         if matches sel c then each l' else remove_matching sel c :: each l'
     end) l.

(** The elements below a list of children, the first of which has the
    index [i]. *)
Definition below (here : Path) (i : nat) (l : list Node) : list (Path * Node) :=
  (fix each (i : nat) (l : list Node) : list (Path * Node) :=
     match l with
     | [] => []
     | c :: l' =>
         (if is_element c then [(i :: here, c)] else [])
         ++ descendants (i :: here) c ++ each (S i) l'
     end) i l.

(** No element below the root [n] matches one of the selectors. *)
Definition free_of (sels : list Selector) (n : Node) : Prop :=
  Forall (fun sel =>
            Forall (fun e => matches sel (snd e) = false) (descendants [] n))
         sels.

(** The node matches one of the selectors. *)
Definition matches_any (sels : list Selector) (n : Node) : bool :=
  existsb (fun sel => matches sel n) sels.

(** The text of [n] outside the elements that match one of the
    selectors: the text of its descendants in document order, without
    every element below [n] that matches and without all that is
    inside such an element; [n] itself is not tested. *)
Fixpoint text_outside (sels : list Selector) (n : Node) : string :=
  match n with
  | Text s => s
  | Element _ _ cs =>
      (fix all (l : list Node) : string :=
         match l with
         | [] => ""
         | c :: l' =>
             ((if matches_any sels c then "" else text_outside sels c)
              ++ all l')%string
         end) cs
  end.

(** The same for a list of children. *)
Definition texts_outside (sels : list Selector) (l : list Node) : string :=
  (fix all (l : list Node) : string :=
     match l with
     | [] => ""
     | c :: l' =>
         ((if matches_any sels c then "" else text_outside sels c)
          ++ all l')%string
     end) l.

(** The text of a list of children. *)
Definition texts (l : list Node) : string :=
  (fix all (l : list Node) : string :=
     match l with
     | [] => ""
     | c :: l' => (textContent c ++ all l')%string
     end) l.

(** What [ContentExtractor.extractMainContent] removes from the copy of
    the content element: the elements to ignore, then the scripts,
    styles, frames and [noscript] elements. *)
Definition ignored : list Selector :=
  ContentExtractor.elementsToIgnore
  ++ [AnyOf [ByTag "script"; ByTag "style"; ByTag "iframe"; ByTag "noscript"]].

End Removal.

(* ================================================================== *)
(** * What the density analysis counts                                  *)
(* ================================================================== *)

Module Density.
Import Dom.

(** The elements the walk of [countAncestors] counts for a paragraph:
    the paragraph and its ancestors, up to the body, which is left
    out, or up to the document element. *)
Fixpoint chain (body : option Path) (current : Path) : list Path :=
  if bool_decide (Some current = body) then []
  else
    match current with
    | [] => [current]
    | _ :: parent => current :: chain body parent
    end.

(** All the elements counted, in the order they are counted: for each
    paragraph of the document, the elements of its walk. *)
Definition visits (d : Document) : list Path :=
  concat (map (fun p => chain (option_map fst (body d)) (fst p))
              (querySelectorAll d (ByTag "p"))).

(** The number of paragraphs whose walk counts the element at [path]:
    the paragraphs at or below it. *)
Definition paragraphs_at_or_below (d : Document) (path : Path) : nat :=
  length (List.filter (fun visited => bool_decide (visited = path)) (visits d)).

(** The map [ancestors] at the end of the density analysis. *)
Definition counted (d : Document) : list (Path * nat) :=
  fold_left
    (fun acc p =>
       ContentExtractor.countAncestors (option_map fst (body d)) (fst p) acc)
    (querySelectorAll d (ByTag "p")) [].

(** The count a map holds for a key, 0 for a key it does not hold. *)
Definition count_of (key : Path) (ancestors : list (Path * nat)) : nat :=
  match List.find (fun e => bool_decide (fst e = key)) ancestors with
  | Some e => snd e
  | None => 0
  end.

(** The map after the elements of a list have been counted. *)
Definition counting (visited : list Path) (acc : list (Path * nat))
  : list (Path * nat) :=
  fold_left (fun a k => ContentExtractor.increment k a) visited acc.

(** The keys of a map, and a map that holds every key once, with a
    count that is not zero. *)
Definition well_counted (m : list (Path * nat)) : Prop :=
  NoDup (map fst m) /\ Forall (fun e => (0 < snd e)%nat) m.

End Density.

(* ================================================================== *)
(** * More pages for the static web                                     *)
(* ================================================================== *)

Module MorePages.

(** Two paragraphs, each in a division of its own, and nothing the
    content selectors match. *)
Definition two_paragraphs_page : string * Dom.Document :=
  StaticWeb.page "https://a.example" "/paragraphs" "Paragraphs"
    [ Dom.Element "div" [] [Dom.Element "p" [] [Dom.Text "First paragraph."]];
      Dom.Element "div" [] [Dom.Element "p" [] [Dom.Text "Second paragraph."]] ].

(** Two paragraphs in one division, and a third one beside it. *)
Definition three_paragraphs_page : string * Dom.Document :=
  StaticWeb.page "https://a.example" "/three" "Three"
    [ Dom.Element "div" []
        [ Dom.Element "p" [] [Dom.Text "One."];
          Dom.Element "p" [] [Dom.Text "Two."] ];
      Dom.Element "p" [] [Dom.Text "Three."] ].

(** A menu beside the text of the body. *)
Definition menu_page : string * Dom.Document :=
  StaticWeb.page "https://a.example" "/menu" "Menu"
    [ Dom.Element "div" [("class", "top menu")] [Dom.Text "MENU "];
      Dom.Text "body text" ].



(** A paragraph between two no-break spaces. *)
Definition price_page : string * Dom.Document :=
  StaticWeb.page "https://a.example" "/price" "Price"
    [ Dom.Element "p" []
        [ Dom.Text (String Js.nbsp ("price" ++ String Js.nbsp "")) ] ].

(** Two pages, A and B, that link to the same page X; A links to a
    page Y as well. *)
Definition shared_link : list (string * Dom.Document) :=
  [ StaticWeb.page "https://a.example" "/a" "A"
      [ StaticWeb.a "https://a.example/x" "to x";
        StaticWeb.a "https://a.example/y" "to y" ];
    StaticWeb.page "https://a.example" "/b" "B"
      [ StaticWeb.a "https://a.example/x" "to x" ];
    StaticWeb.page "https://a.example" "/x" "X" [];
    StaticWeb.page "https://a.example" "/y" "Y" [] ].

End MorePages.

(* ================================================================== *)
(** * Properties                                                        *)
(* ================================================================== *)

Import Js Dom Browser PuppeteerService.
Section AsyncRules.
Context {W : Type} `{Puppeteer W}.

Lemma bind_inv {A B} (m : Async W A) (k : A -> Async W B) s r :
  bind m k s = r ->
  (exists s1 a, m s = (s1, Return a) /\ k a s1 = r)
  \/ (exists s1 e, m s = (s1, Throw e) /\ r = (s1, Throw e)).
Proof.
  unfold bind. destruct (m s) as [s1 [a | e]]; intros <-; eauto.
Qed.

Lemma try_catch_inv {A} (body : Async W A) handler s r :
  try_catch body handler s = r ->
  (exists s1 a, body s = (s1, Return a) /\ r = (s1, Return a))
  \/ (exists s1 e, body s = (s1, Throw e) /\ handler e s1 = r).
Proof.
  unfold try_catch. destruct (body s) as [s1 [a | e]]; intros <-; eauto.
Qed.

Lemma try_finally_inv {A} (body : Async W A) final s r :
  try_finally body final s = r ->
  exists s1 c s2 cf,
    body s = (s1, c) /\ final s1 = (s2, cf)
    /\ r = (s2, match cf with Return _ => c | Throw e => Throw e end).
Proof.
  unfold try_finally. destruct (body s) as [s1 c].
  destruct (final s1) as [s2 [[] | e]] eqn:Hf; intros <-;
    exists s1, c, s2; eexists; eauto.
Qed.

Lemma record_call_inv {A} (op : W -> W * Completion A) events s s' c :
  record_call op events s = (s', c) ->
  exists w, op (world s) = (w, c)
            /\ s' = {| world := w; trace := trace s ++ events c |}.
Proof.
  unfold record_call. destruct (op (world s)) as [w c']. intros [= <- <-].
  eauto.
Qed.

Lemma page_evaluate_inv {A} (p : Page) (f : Document -> Completion A) s s' c :
  page_evaluate p f s = (s', c) ->
  (exists w d, page_document_ p (world s) = (w, Return d)
               /\ s' = {| world := w; trace := trace s ++ [Evaluate p d] |}
               /\ c = f d)
  \/ (exists w e, page_document_ p (world s) = (w, Throw e)
                  /\ s' = {| world := w; trace := trace s |}
                  /\ c = Throw e).
Proof.
  unfold page_evaluate, lift. intros Hb.
  apply bind_inv in Hb as [(s1 & d & Hc & Hk) | (s1 & e & Hc & Hk)];
    apply record_call_inv in Hc as (w & Hop & Hs1); injection Hk as ? ?;
    subst.
  - left. eauto.
  - right. rewrite app_nil_r. eauto.
Qed.
End AsyncRules.

Ltac invert_async :=
  repeat
    match goal with
    | H : ex _ |- _ => destruct H
    | H : _ /\ _ |- _ => destruct H
    | H : (_, _) = (_, _) |- _ => injection H as ? ?
    | H : Return _ = Throw _ |- _ => discriminate H
    | H : Throw _ = Return _ |- _ => discriminate H
    | H : Return _ = Return _ |- _ => injection H as ?
    | H : Throw _ = Throw _ |- _ => injection H as ?
    | H : ret _ _ = _ |- _ => unfold ret in H
    | H : throw _ _ = _ |- _ => unfold throw in H
    | H : bind _ _ _ = _ |- _ => apply bind_inv in H as [H | H]
    | H : try_catch _ _ _ = _ |- _ => apply try_catch_inv in H as [H | H]
    | H : try_finally _ _ _ = _ |- _ => apply try_finally_inv in H
    | H : page_evaluate _ _ _ = _ |- _ => apply page_evaluate_inv in H as [H | H]
    | H : record_call _ _ _ = _ |- _ => apply record_call_inv in H
    end.

Section Fetch.
Context {W : Type} `{Puppeteer W} `{UrlParser}.

Lemma extractContentFromUrl_events (url_ : string) (s s' : Session W) c :
  extractContentFromUrl url_ s = (s', c) ->
  exists evs,
    trace s' = trace s ++ evs
    /\ ((evs = [] /\ throws c = true)
        \/ exists pg mid,
             evs = NewPage pg :: mid ++ [Close pg]
             /\ (mid = [] \/ mid = [Goto pg url_]
                 \/ (exists d1, mid = [Goto pg url_; Evaluate pg d1])
                 \/ (exists d1 d2,
                       mid = [Goto pg url_; Evaluate pg d1; Evaluate pg d2])
                 \/ (exists d1 d2 d3,
                       mid = [Goto pg url_; Evaluate pg d1; Evaluate pg d2;
                              Evaluate pg d3]))
             /\ forall p, c = Return p ->
                  url p = url_
                  /\ exists d1 d2 d3,
                       mid = [Goto pg url_; Evaluate pg d1; Evaluate pg d2;
                              Evaluate pg d3]
                       /\ (title p, description p)
                          = UtilsExtractor.extractMetadata_in_page d1
                       /\ UtilsExtractor.extractMainContent_in_page d2
                          = Return (content p)
                       /\ UtilsExtractor.extractLinks_in_page d3
                          = Return (links p)).
Proof.
  unfold extractContentFromUrl, getBrowser, browser_newPage,
    page_setDefaultTimeout, page_setUserAgent, page_goto, page_close,
    UtilsExtractor.extractMetadata, UtilsExtractor.extractMainContent,
    UtilsExtractor.extractLinks.
  intros Hrun. invert_async; subst; simpl.
  all: repeat match goal with x : Completion _ |- _ => destruct x end.
  all: simpl.
  all: rewrite <- ?app_assoc; simpl.
  all: match goal with
       | |- exists evs, _ ++ NewPage ?p :: ?rest = _ ++ evs /\ _ =>
           exists (NewPage p :: rest); split; [reflexivity |];
           right; exists p, (removelast rest); simpl;
           split; [reflexivity |]; split
       | |- _ => exists []; rewrite ?app_nil_r; auto
       end.
  all: try (intros ? [=]; subst; simpl).
  all: try solve [eauto 10].
Qed.
End Fetch.

Section LoopRules.
Context {W : Type} `{Puppeteer W} `{UrlParser}.
Variables (depth_ maxPages_ : Z).

Lemma if_inspect {A} (c b : bool) (e : c = b) (x y : A) :
  (if b as b' return c = b' -> A then fun _ => x else fun _ => y) e
  = if b then x else y.
Proof. destruct b; reflexivity. Qed.

Lemma while_loop_unfold (t : Traversal W) :
  while_loop depth_ maxPages_ t =
  if loop_condition maxPages_ t
  then while_loop depth_ maxPages_ (loop_body depth_ maxPages_ t)
  else t.
Proof.
  rewrite while_loop_equation_1. unfold while_loop_unfold_clause_1, inspect.
  exact (if_inspect _ _ eq_refl _ _).
Qed.

(** The rule of the loop invariant. *)
Lemma while_loop_invariant (P : Traversal W -> Prop) :
  (forall t, P t -> loop_condition maxPages_ t = true ->
             P (loop_body depth_ maxPages_ t)) ->
  forall t, P t ->
    P (while_loop depth_ maxPages_ t)
    /\ loop_condition maxPages_ (while_loop depth_ maxPages_ t) = false.
Proof.
  intros Hstep t.
  induction t as [t IH]
    using (well_founded_induction
             (wf_inverse_image _ _ _ (measure maxPages_) lex_lt_wf)).
  intros HP. rewrite while_loop_unfold.
  destruct (loop_condition maxPages_ t) eqn:Hc.
  - apply IH.
    + apply loop_body_decreases. exact Hc.
    + apply Hstep; assumption.
  - split; assumption.
Qed.


Lemma while_fuel_sound (fuel : nat) (t t' : Traversal W) :
  while_fuel depth_ maxPages_ fuel t = Some t' ->
  while_loop depth_ maxPages_ t = t'.
Proof.
  revert t. induction fuel as [| fuel IH]; intros t; simpl;
    rewrite while_loop_unfold; destruct (loop_condition maxPages_ t);
    try discriminate; try (intros [= <-]; reflexivity).
  apply IH.
Qed.
End LoopRules.

Section Invariants.
Context {W : Type} `{Puppeteer W} `{UrlParser}.
Variables (depth_ maxPages_ : Z).
Import History.

Lemma successes_app l k : successes (l ++ k) = successes l ++ successes k.
Proof. apply omap_app. Qed.

Lemma bookkeeping_initial initialUrls (s : Session W) :
  bookkeeping maxPages_ (initialTraversal initialUrls s).
Proof.
  constructor; simpl.
  - reflexivity.
  - intros u. unfold fetched_urls. simpl.
    rewrite elem_of_empty, elem_of_nil. tauto.
  - constructor.
  - intros e p Hin. inversion Hin.
  - lia.
Qed.

Lemma bookkeeping_step t :
  bookkeeping maxPages_ t -> loop_condition maxPages_ t = true ->
  bookkeeping maxPages_ (loop_body depth_ maxPages_ t).
Proof.
  intros [Hres Hvis Hnd Hurl Hbud] Hc.
  unfold loop_condition in Hc. apply andb_true_iff in Hc as [_ Hlt].
  apply Z.ltb_lt in Hlt.
  unfold loop_body. destruct (queue t) as [| entry rest]; [by constructor |].
  destruct (bool_decide (entry_url entry ∈ visitedUrls t)) eqn:Hv; simpl.
  { by constructor. }
  destruct (maxPages_ <=? Z.of_nat (length (results t)))%Z eqn:Hm; simpl.
  { by constructor. }
  apply bool_decide_eq_false in Hv.
  destruct (extractContentFromUrl (entry_url entry) (session t))
    as [s' [pageContent | error]] eqn:Hfetch.
  - apply extractContentFromUrl_events in Hfetch
      as (evs & _ & [[_ [=]] | (pg & mid & _ & _ & Hp)]).
    destruct (Hp _ eq_refl) as [Hu _].
    constructor; simpl; unfold fetched_urls; simpl.
    + rewrite successes_app, Hres. reflexivity.
    + intros u. rewrite map_app. simpl.
      rewrite elem_of_app, elem_of_union, elem_of_singleton,
        list_elem_of_singleton, Hvis.
      unfold fetched_urls. tauto.
    + rewrite map_app. simpl. apply NoDup_app. split; [exact Hnd |].
      split; [| apply NoDup_singleton].
      intros u Hin Hin'. apply list_elem_of_singleton in Hin'. subst u.
      apply Hv, Hvis, Hin.
    + intros e p Hin. apply elem_of_app in Hin as [Hin | Hin];
        [by apply Hurl |].
      apply list_elem_of_singleton in Hin. injection Hin as -> ->. exact Hu.
    + rewrite length_app. simpl. lia.
  - constructor; simpl; unfold fetched_urls; simpl.
    + rewrite successes_app, Hres. simpl. by rewrite app_nil_r.
    + intros u. rewrite map_app. simpl.
      rewrite elem_of_app, elem_of_union, elem_of_singleton,
        list_elem_of_singleton, Hvis.
      unfold fetched_urls. tauto.
    + rewrite map_app. simpl. apply NoDup_app. split; [exact Hnd |].
      split; [| apply NoDup_singleton].
      intros u Hin Hin'. apply list_elem_of_singleton in Hin'. subst u.
      apply Hv, Hvis, Hin.
    + intros e p Hin. apply elem_of_app in Hin as [Hin | Hin];
        [by apply Hurl |].
      apply list_elem_of_singleton in Hin. discriminate.
    + lia.
Qed.
End Invariants.

Section BreadthFirst.
Context {W : Type} `{Puppeteer W} `{UrlParser}.
Variables (depth_ maxPages_ : Z).
Import History.

Lemma StronglySorted_sublist {A} (R : A -> A -> Prop) (l k : list A) :
  l `sublist_of` k -> StronglySorted R k -> StronglySorted R l.
Proof.
  induction 1 as [| x l k Hs IH | x l k Hs IH]; intros Hk.
  - constructor.
  - apply StronglySorted_cons in Hk as [Hall Hk].
    apply StronglySorted_cons. split; [| by apply IH].
    rewrite Forall_forall in Hall |- *. intros y Hy.
    apply Hall. eapply elem_of_sublist; eassumption.
  - apply StronglySorted_cons in Hk as [_ Hk]. by apply IH.
Qed.

Lemma linkedPages_depth visited d pageContent e :
  e ∈ linkedPages visited d pageContent -> currentDepth e = (d + 1)%Z.
Proof.
  unfold linkedPages. intros Hin. apply list_elem_of_In in Hin.
  apply in_map_iff in Hin as (l & <- & _). reflexivity.
Qed.

Lemma breadth_first_initial initialUrls (s : Session W) :
  breadth_first (initialTraversal initialUrls s).
Proof.
  assert (Hd : forall e, e ∈ initialQueue initialUrls -> currentDepth e = 1%Z).
  { intros e Hin. apply list_elem_of_In, in_map_iff in Hin as (u & <- & _).
    reflexivity. }
  constructor; simpl.
  - exists []. split; [reflexivity | constructor].
  - induction initialUrls as [| u l IH]; simpl; constructor.
    + apply IH. intros e He. apply Hd. by right.
    + apply Forall_forall. intros z Hz.
      apply list_elem_of_In, in_map_iff in Hz as (e & <- & He).
      rewrite (Hd e); [lia |]. right. by apply list_elem_of_In.
  - intros e q He Hq. rewrite (Hd e He), (Hd q Hq). lia.
Qed.

Lemma breadth_first_push (t : Traversal W) entry rest pushed fetched' :
  breadth_first t ->
  queue t = entry :: rest ->
  (forall e, e ∈ pushed -> currentDepth e = (currentDepth entry + 1)%Z) ->
  map fst fetched' `sublist_of` map fst (fetched t) ++ [entry] ->
  forall t' : Traversal W,
    queue t' = rest ++ pushed -> enqueued t' = enqueued t ++ pushed ->
    fetched t' = fetched' ->
    breadth_first t'.
Proof.
  intros [(done & Henq & Hsub) Hsorted Hwin] Hq Hpushed Hf t' Hq' Henq' Hf'.
  rewrite Hq in Henq, Hwin.
  assert (Hhead : forall q, q ∈ rest ->
                            (currentDepth entry <= currentDepth q)%Z).
  { intros q Hin. rewrite Henq, map_app in Hsorted.
    apply StronglySorted_app_1_r in Hsorted. simpl in Hsorted.
    apply StronglySorted_cons in Hsorted as [Hall _].
    rewrite Forall_forall in Hall. apply Hall.
    apply list_elem_of_In, in_map. by apply list_elem_of_In. }
  constructor.
  - exists (done ++ [entry]). rewrite Henq', Hq', Henq, Hf'.
    rewrite <- !app_assoc. simpl. split; [reflexivity |].
    etrans; [exact Hf |]. apply sublist_app; [exact Hsub | reflexivity].
  - rewrite Henq', map_app. apply StronglySorted_app. split; [| split].
    + intros x y Hx Hy.
      apply list_elem_of_In, in_map_iff in Hx as (e & <- & He).
      apply list_elem_of_In, in_map_iff in Hy as (e' & <- & He').
      rewrite (Hpushed e'); [| by apply list_elem_of_In].
      apply Hwin; [by apply list_elem_of_In | by left].
    + exact Hsorted.
    + clear -Hpushed. induction pushed as [| e l IH]; simpl; constructor.
      * apply IH. intros e' He'. apply Hpushed. by right.
      * apply Forall_forall. intros z Hz.
        apply list_elem_of_In, in_map_iff in Hz as (e' & <- & He').
        rewrite (Hpushed e), (Hpushed e'); [lia | |].
        -- right. by apply list_elem_of_In.
        -- by left.
  - intros e q He Hq0. rewrite Henq' in He. rewrite Hq' in Hq0.
    apply elem_of_app in He as [He | He];
      apply elem_of_app in Hq0 as [Hq0 | Hq0].
    + apply Hwin; [exact He | by right].
    + rewrite (Hpushed q Hq0).
      assert (currentDepth e <= currentDepth entry + 1)%Z; [| lia].
      apply Hwin; [exact He | by left].
    + rewrite (Hpushed e He). specialize (Hhead q Hq0). lia.
    + rewrite (Hpushed e He), (Hpushed q Hq0). lia.
Qed.

Lemma breadth_first_step (t : Traversal W) :
  breadth_first t -> loop_condition maxPages_ t = true ->
  breadth_first (loop_body depth_ maxPages_ t).
Proof.
  intros Hbf _. unfold loop_body.
  destruct (queue t) as [| entry rest] eqn:Hq; [exact Hbf |].
  destruct (bool_decide _ || _).
  { eapply (breadth_first_push t entry rest [] (fetched t)); eauto.
    - intros e He. inversion He.
    - apply sublist_inserts_r. reflexivity.
    - simpl. by rewrite app_nil_r.
    - simpl. by rewrite app_nil_r. }
  destruct (extractContentFromUrl (entry_url entry) (session t))
    as [s' [pageContent | error]].
  - eapply (breadth_first_push t entry rest); eauto; simpl.
    + destruct (currentDepth entry <? depth_)%Z.
      * intros e. apply linkedPages_depth.
      * intros e He. inversion He.
    + rewrite map_app. reflexivity.
  - eapply (breadth_first_push t entry rest []); eauto; simpl.
    + intros e He. inversion He.
    + rewrite map_app. reflexivity.
    + by rewrite app_nil_r.
    + by rewrite app_nil_r.
Qed.
End BreadthFirst.

Section Counting.
Context {W : Type} `{Puppeteer W} `{UrlParser}.
Variables (depth_ maxPages_ : Z).
Import History.

Lemma links_total_app l k : links_total (l ++ k) = (links_total l + links_total k)%nat.
Proof. apply sum_list_with_app. Qed.

Lemma linkedPages_length visited d pageContent :
  (length (linkedPages visited d pageContent) <= length (links pageContent))%nat.
Proof.
  unfold linkedPages. rewrite length_map. apply List.filter_length_le.
Qed.

Lemma bounded_frontier_initial initialUrls (s : Session W) :
  bounded_frontier initialUrls (initialTraversal initialUrls s).
Proof.
  unfold bounded_frontier, initialTraversal, initialQueue. simpl.
  rewrite length_map. lia.
Qed.

Lemma bounded_frontier_step seeds (t : Traversal W) :
  bounded_frontier seeds t -> loop_condition maxPages_ t = true ->
  bounded_frontier seeds (loop_body depth_ maxPages_ t).
Proof.
  unfold bounded_frontier, loop_body. intros Hb _.
  destruct (queue t) as [| entry rest]; [exact Hb |].
  destruct (bool_decide _ || _); [exact Hb |].
  destruct (extractContentFromUrl _ _) as [s' [pageContent | error]];
    simpl; [| exact Hb].
  rewrite length_app, links_total_app. unfold links_total at 2. simpl.
  destruct (currentDepth entry <? depth_)%Z; simpl.
  - pose proof (linkedPages_length
                  ({[entry_url entry]} ∪ visitedUrls t)
                  (currentDepth entry) pageContent). lia.
  - lia.
Qed.


End Counting.

Section Discovery.
Context {W : Type} `{Puppeteer W} `{UrlParser}.
Variables (depth_ maxPages_ : Z).
Import History.

Lemma utils_collectLinks_origin (d : Document) anchors acc ls :
  UtilsExtractor.collectLinks d anchors acc = Return ls ->
  (forall l, l ∈ acc -> startsWith (Link.url l) (location_origin d) = true) ->
  forall l, l ∈ ls -> startsWith (Link.url l) (location_origin d) = true.
Proof.
  revert acc. induction anchors as [| anchor rest IH]; intros acc; simpl.
  - intros [= ->]. auto.
  - destruct (getAttribute anchor "href") as [href |]; [| apply IH].
    destruct (_ || _); [apply IH |].
    destruct (URL_href href (location_href d)) as [url_ |]; [| discriminate].
    destruct (negb _ && startsWith url_ (location_origin d)) eqn:Hk;
      [| apply IH].
    intros Hrun Hacc. apply (IH _ Hrun).
    intros l Hl. apply elem_of_app in Hl as [Hl | Hl]; [by apply Hacc |].
    apply list_elem_of_singleton in Hl. subst l. simpl.
    apply andb_true_iff in Hk. tauto.
Qed.

Lemma utils_extractLinks_origin (d : Document) ls :
  UtilsExtractor.extractLinks_in_page d = Return ls ->
  forall l, l ∈ ls -> startsWith (Link.url l) (location_origin d) = true.
Proof.
  intros Hrun. eapply utils_collectLinks_origin; [exact Hrun |].
  intros l Hl. inversion Hl.
Qed.

Lemma discovered_from_mono tr before u evs more :
  discovered_from tr before u ->
  discovered_from (tr ++ evs) (before ++ more) u.
Proof.
  intros (parent & p & pg & d1 & d2 & d & tr1 & tr2 & Hin & Hu & -> & Hl & Ho).
  exists parent, p, pg, d1, d2, d, tr1, (tr2 ++ evs).
  split; [apply elem_of_app; by left |]. split; [exact Hu |].
  split; [| by split]. rewrite <- !app_assoc. reflexivity.
Qed.

Lemma fetch_goto_urls url_ (s s' : Session W) c evs :
  extractContentFromUrl url_ s = (s', c) ->
  trace s' = trace s ++ evs ->
  goto_urls evs `sublist_of` [url_].
Proof.
  intros Hrun Htr.
  apply extractContentFromUrl_events in Hrun as (evs' & Htr' & Hcases).
  rewrite Htr' in Htr. apply app_inv_head in Htr. subst evs'.
  destruct Hcases as [[-> _] | (pg & mid & -> & Hmid & _)].
  - apply sublist_nil_l.
  - destruct Hmid as [-> | [-> | [(d1 & ->) | [(d1 & d2 & ->) | (d1 & d2 & d3 & ->)]]]];
      simpl; try reflexivity. apply sublist_nil_l.
Qed.

Lemma linkedPages_link visited d pageContent e :
  e ∈ linkedPages visited d pageContent ->
  entry_url e ∈ map Link.url (links pageContent).
Proof.
  unfold linkedPages. intros Hin.
  apply list_elem_of_In, in_map_iff in Hin as (l & <- & Hl).
  apply List.filter_In in Hl as [Hl _]. simpl.
  apply list_elem_of_In, in_map. exact Hl.
Qed.

Lemma discovery_initial initialUrls (s : Session W) :
  discovery initialUrls (trace s) (initialTraversal initialUrls s).
Proof.
  constructor; simpl.
  - exists []. rewrite app_nil_r. split; [reflexivity | apply sublist_nil_l].
  - intros e He. left.
    apply list_elem_of_In, in_map_iff in He as (u & <- & Hu).
    simpl. by apply list_elem_of_In.
  - intros i f Hf. rewrite lookup_nil in Hf. discriminate.
Qed.

Lemma discovery_fetch seeds tr0 (t : Traversal W) entry rest s' c pushed :
  discovery seeds tr0 t ->
  queue t = entry :: rest ->
  extractContentFromUrl (entry_url entry) (session t) = (s', c) ->
  (forall e, e ∈ pushed ->
     exists p, c = Return p /\ entry_url e ∈ map Link.url (links p)) ->
  forall t' : Traversal W,
    queue t' = rest ++ pushed -> session t' = s' ->
    fetched t' = fetched t ++ [(entry, c)] ->
    discovery seeds tr0 t'.
Proof.
  intros [(evs & Htr & Hgoto) Hqueue Hfetched] Hq Hrun Hpushed t' Hq' Hs' Hf'.
  pose proof Hrun as Hev.
  apply extractContentFromUrl_events in Hev as (new & Hnew & Hcases).
  constructor.
  - exists (evs ++ new). rewrite Hs', Hnew, Htr, <- app_assoc.
    split; [reflexivity |].
    unfold goto_urls, fetched_urls. rewrite omap_app, Hf', map_app. simpl.
    apply sublist_app; [exact Hgoto |].
    eapply fetch_goto_urls; eassumption.
  - intros e He. rewrite Hq' in He. rewrite Hs', Hnew, Hf'.
    apply elem_of_app in He as [He | He].
    + destruct (Hqueue e) as [Hseed | Hd]; [rewrite Hq; by right | by left |].
      right. by apply discovered_from_mono.
    + right. destruct (Hpushed e He) as (p & -> & Hlink).
      destruct Hcases as [[_ [=]] | (pg & mid & -> & _ & Hp)].
      destruct (Hp p eq_refl) as (_ & d1 & d2 & d3 & -> & _ & _ & Hlinks).
      exists entry, p, pg, d1, d2, d3, (trace (session t)), [].
      split; [apply elem_of_app; right; by apply list_elem_of_singleton |].
      split; [exact Hlink |]. split; [by rewrite app_nil_r |].
      split; [exact Hlinks |].
      apply list_elem_of_In, in_map_iff in Hlink as (l & <- & Hl).
      eapply utils_extractLinks_origin; [exact Hlinks |].
      by apply list_elem_of_In.
  - intros i f Hi. rewrite Hf' in Hi |- *. rewrite Hs', Hnew.
    destruct (decide (i < length (fetched t))%nat) as [Hlt | Hge].
    + rewrite lookup_app_l in Hi by exact Hlt.
      rewrite take_app_le by lia.
      destruct (Hfetched i f Hi) as [Hseed | Hd]; [by left |].
      right. rewrite <- (app_nil_r (take i (fetched t))).
      by apply discovered_from_mono.
    + rewrite lookup_app_r in Hi by lia.
      apply list_lookup_singleton_Some in Hi as [Hi <-]. simpl.
      assert (i = length (fetched t)) as -> by lia.
      rewrite take_app_length.
      destruct (Hqueue entry) as [Hseed | Hd]; [rewrite Hq; by left | by left |].
      right. rewrite <- (app_nil_r (fetched t)).
      by apply discovered_from_mono.
Qed.

Lemma discovery_step seeds tr0 (t : Traversal W) :
  discovery seeds tr0 t -> loop_condition maxPages_ t = true ->
  discovery seeds tr0 (loop_body depth_ maxPages_ t).
Proof.
  intros Hd _. unfold loop_body.
  destruct (queue t) as [| entry rest] eqn:Hq; [exact Hd |].
  destruct (bool_decide _ || _).
  { destruct Hd as [Htr Hqueue Hfetched]. constructor; simpl; auto.
    intros e He. apply Hqueue. rewrite Hq. by right. }
  destruct (extractContentFromUrl (entry_url entry) (session t))
    as [s' [pageContent | error]] eqn:Hrun.
  - eapply (discovery_fetch seeds tr0 t entry rest); eauto; simpl.
    intros e He. exists pageContent. split; [reflexivity |].
    destruct (currentDepth entry <? depth_)%Z; [| inversion He].
    eapply linkedPages_link; eassumption.
  - eapply (discovery_fetch seeds tr0 t entry rest s' _ []); eauto; simpl.
    + intros e He. inversion He.
    + by rewrite app_nil_r.
Qed.
End Discovery.

Section Traverse.
Context {W : Type} `{Puppeteer W} `{UrlParser}.
Import History.

(** Everything the loop keeps true, at the end of [performDeepSearch]. *)
Lemma traverse_invariants initialUrls options (s : Session W) :
  let maxPages_ := or_default (maxPages options) 5 in
  let t := traverse initialUrls options s in
  bookkeeping maxPages_ t /\ breadth_first t
  /\ bounded_frontier initialUrls t /\ discovery initialUrls (trace s) t
  /\ loop_condition maxPages_ t = false.
Proof.
  intros maxPages_ t. unfold t, traverse. fold maxPages_.
  set (depth_ := or_default (depth options) 1).
  pose proof (while_loop_invariant depth_ maxPages_
    (fun t => bookkeeping maxPages_ t /\ breadth_first t
              /\ bounded_frontier initialUrls t
              /\ discovery initialUrls (trace s) t)) as Hinv.
  destruct (Hinv) with (t := initialTraversal initialUrls s)
    as [(Hb & Hbf & Hfr & Hd) Hc].
  - intros t0 (Hb & Hbf & Hfr & Hd) Hc. split; [| split; [| split]].
    + by apply bookkeeping_step.
    + by eapply breadth_first_step.
    + by eapply bounded_frontier_step.
    + by eapply discovery_step.
  - split; [| split; [| split]].
    + apply bookkeeping_initial.
    + apply breadth_first_initial.
    + apply bounded_frontier_initial.
    + apply discovery_initial.
  - auto.
Qed.

Lemma successes_urls (l : list (QueueEntry * Completion PageContent)) :
  (forall e p, (e, Return p) ∈ l -> url p = entry_url e) ->
  map url (successes l) `sublist_of` map (fun f => entry_url (fst f)) l.
Proof.
  induction l as [| [e [p | err]] l IH]; intros Hurl; simpl.
  - constructor.
  - rewrite (Hurl e p) by (by left). apply sublist_skip, IH.
    intros e' p' Hin. apply Hurl. by right.
  - apply sublist_cons, IH. intros e' p' Hin. apply Hurl. by right.
Qed.

Lemma traverse_fuel initialUrls options (s : Session W) fuel t' :
  while_fuel (or_default (depth options) 1) (or_default (maxPages options) 5)
    fuel (initialTraversal initialUrls s) = Some t' ->
  traverse initialUrls options s = t'.
Proof. apply while_fuel_sound. Qed.
End Traverse.

Section Order.
Context {W : Type} `{Puppeteer W} `{UrlParser}.
Import History.

Lemma with_depth_pages (l : list (QueueEntry * Completion PageContent)) :
  map fst (omap (fun f => match snd f with
                          | Return p => Some (p, currentDepth (fst f))
                          | Throw _ => None
                          end) l) = successes l.
Proof.
  induction l as [| [e [p | err]] l IH]; simpl; [reflexivity | | exact IH].
  f_equal. exact IH.
Qed.

Lemma with_depth_entries (l : list (QueueEntry * Completion PageContent)) :
  (forall e p, (e, Return p) ∈ l -> url p = entry_url e) ->
  map (fun pd => {| entry_url := url (fst pd); currentDepth := snd pd |})
      (omap (fun f => match snd f with
                      | Return p => Some (p, currentDepth (fst f))
                      | Throw _ => None
                      end) l)
  `sublist_of` map fst l.
Proof.
  induction l as [| [e [p | err]] l IH]; intros Hurl; simpl.
  - constructor.
  - rewrite (Hurl e p) by (by left). destruct e as [u d]. simpl.
    apply sublist_skip, IH. intros e' p' Hin. apply Hurl. by right.
  - apply sublist_cons, IH. intros e' p' Hin. apply Hurl. by right.
Qed.

Lemma sublist_map {A B} (f : A -> B) (l k : list A) :
  l `sublist_of` k -> map f l `sublist_of` map f k.
Proof. induction 1; simpl; by constructor. Qed.

Lemma result_entries_depths (t : Traversal W) :
  map currentDepth (result_entries t) = map snd (results_with_depth t).
Proof.
  unfold result_entries. rewrite map_map. reflexivity.
Qed.

Lemma seeds_first_step depth_ maxPages_ initialUrls (t : Traversal W) :
  initialQueue initialUrls `prefix_of` enqueued t ->
  initialQueue initialUrls `prefix_of` enqueued (loop_body depth_ maxPages_ t).
Proof.
  intros Hp. unfold loop_body.
  destruct (queue t) as [| entry rest]; [exact Hp |].
  destruct (bool_decide _ || _); [exact Hp |].
  destruct (extractContentFromUrl _ _) as [s' [pageContent | error]];
    simpl; [| exact Hp].
  by apply prefix_app_r.
Qed.

Lemma traverse_seeds_first initialUrls options (s : Session W) :
  initialQueue initialUrls `prefix_of` enqueued (traverse initialUrls options s).
Proof.
  unfold traverse.
  apply (while_loop_invariant _ _
           (fun t => initialQueue initialUrls `prefix_of` enqueued t)).
  - intros t Hp _. by apply seeds_first_step.
  - reflexivity.
Qed.

Lemma NoDup_map_inj {A B} (f : A -> B) (l : list A) x y :
  NoDup (map f l) -> x ∈ l -> y ∈ l -> f x = f y -> x = y.
Proof.
  induction l as [| a l IH]; simpl; intros Hnd Hx Hy Hf; [inversion Hx |].
  apply NoDup_cons in Hnd as [Hnotin Hnd].
  apply elem_of_cons in Hx as [-> | Hx]; apply elem_of_cons in Hy as [-> | Hy].
  - reflexivity.
  - exfalso. apply Hnotin. rewrite Hf.
    apply list_elem_of_In, in_map. by apply list_elem_of_In.
  - exfalso. apply Hnotin. rewrite <- Hf.
    apply list_elem_of_In, in_map. by apply list_elem_of_In.
  - by apply IH.
Qed.

Lemma elem_of_successes (l : list (QueueEntry * Completion PageContent)) p :
  p ∈ successes l -> exists e, (e, Return p) ∈ l.
Proof.
  unfold successes. intros Hin. apply list_elem_of_omap in Hin as ([e c] & Hin & Hc).
  destruct c as [p' | err]; simpl in Hc; [| discriminate].
  injection Hc as ->. eauto.
Qed.
End Order.

Section FirstOccurrences.
Import History.

Lemma first_occurrences_app seen l k :
  first_occurrences_from seen (l ++ k)
  = first_occurrences_from seen l
    ++ first_occurrences_from (seen ∪ list_to_set (map entry_url l)) k.
Proof.
  revert seen. induction l as [| a l IH]; intros seen; simpl.
  - by rewrite union_empty_r_L.
  - destruct (decide (entry_url a ∈ seen)) as [Hin | Hout].
    + rewrite (bool_decide_eq_true_2 _ Hin), IH. do 2 f_equal.
      rewrite (assoc_L (∪)). f_equal. symmetry.
      rewrite (comm_L (∪)). apply subseteq_union_1_L.
      by apply singleton_subseteq_l.
    + rewrite (bool_decide_eq_false_2 _ Hout). simpl. rewrite IH.
      do 3 f_equal. rewrite (assoc_L (∪)). f_equal. apply (comm_L (∪)).
Qed.

Lemma first_occurrences_urls seen l u :
  u ∈ map entry_url (first_occurrences_from seen l)
  <-> u ∈ map entry_url l /\ u ∉ seen.
Proof.
  revert seen. induction l as [| a l IH]; intros seen; simpl.
  - split; [intros Hu; inversion Hu | intros [Hu _]; inversion Hu].
  - destruct (decide (entry_url a ∈ seen)) as [Hin | Hout].
    + rewrite (bool_decide_eq_true_2 _ Hin), IH, elem_of_cons.
      split; [intros [Hu Hn]; auto | intros [[-> | Hu] Hn]; [contradiction | auto]].
    + rewrite (bool_decide_eq_false_2 _ Hout). simpl.
      rewrite !elem_of_cons, IH, elem_of_union, elem_of_singleton.
      destruct (decide (u = entry_url a)) as [-> | Hne].
      * split; [intros _; auto | intros _; by left].
      * split.
        -- intros [Heq | [Hu Hn]]; [contradiction |]. split; [by right |].
           intros Hs. apply Hn. by right.
        -- intros [[Heq | Hu] Hn]; [contradiction |]. right. split; [exact Hu |].
           intros [Heq | Hs]; contradiction.
Qed.

Lemma first_occurrences_NoDup seen l :
  NoDup (map entry_url (first_occurrences_from seen l)).
Proof.
  revert seen. induction l as [| a l IH]; intros seen; simpl.
  - constructor.
  - destruct (bool_decide (entry_url a ∈ seen)); [apply IH |].
    simpl. constructor; [| apply IH].
    rewrite first_occurrences_urls. intros [_ Hn]. apply Hn.
    apply elem_of_union. left. by apply elem_of_singleton.
Qed.

Lemma first_occurrences_sublist seen l :
  first_occurrences_from seen l `sublist_of` l.
Proof.
  revert seen. induction l as [| a l IH]; intros seen; simpl.
  - constructor.
  - destruct (bool_decide _); [apply sublist_cons | apply sublist_skip]; apply IH.
Qed.

Lemma entries_returned_sublist l :
  entries_returned l `sublist_of` map fst l.
Proof.
  unfold entries_returned. apply sublist_map.
  induction l as [| f l IH]; simpl; [constructor |].
  destruct (negb _); [by apply sublist_skip | by apply sublist_cons].
Qed.

Lemma with_depth_returned (l : list (QueueEntry * Completion PageContent)) :
  (forall e p, (e, Return p) ∈ l -> url p = entry_url e) ->
  map (fun pd => {| entry_url := url (fst pd); currentDepth := snd pd |})
      (omap (fun f => match snd f with
                      | Return p => Some (p, currentDepth (fst f))
                      | Throw _ => None
                      end) l)
  = entries_returned l.
Proof.
  unfold entries_returned.
  induction l as [| [e [p | err]] l IH]; intros Hurl; simpl.
  - reflexivity.
  - rewrite (Hurl e p) by (by left). destruct e as [u d]. simpl.
    f_equal. apply IH. intros e' p' Hin. apply Hurl. by right.
  - apply IH. intros e' p' Hin. apply Hurl. by right.
Qed.
End FirstOccurrences.

Section FirstCome.
Context {W : Type} `{Puppeteer W} `{UrlParser}.
Variables (depth_ maxPages_ : Z).
Import History.

Lemma first_come_initial initialUrls (s : Session W) :
  first_come (initialTraversal initialUrls s).
Proof. exists []. split; reflexivity. Qed.

Lemma first_come_step (t : Traversal W) :
  bookkeeping maxPages_ t -> first_come t ->
  loop_condition maxPages_ t = true ->
  first_come (loop_body depth_ maxPages_ t).
Proof.
  intros [_ Hvis _ _ _] (done & Henq & Hf) Hc. unfold loop_body.
  destruct (queue t) as [| entry rest] eqn:Hq; [exists done; by rewrite Hq |].
  assert (Hseen : entry_url entry ∈ visitedUrls t
                  <-> entry_url entry ∈ map entry_url done).
  { rewrite Hvis. unfold fetched_urls.
    rewrite <- (map_map fst entry_url), Hf. unfold first_occurrences.
    rewrite first_occurrences_urls. split; [intros [Hu _]; exact Hu |].
    intros Hu. split; [exact Hu | apply not_elem_of_empty]. }
  assert (Hsnoc : first_occurrences (done ++ [entry])
                  = first_occurrences done
                    ++ (if bool_decide (entry_url entry ∈ visitedUrls t) then []
                        else [entry])).
  { unfold first_occurrences. rewrite first_occurrences_app, union_empty_l_L.
    f_equal. simpl.
    destruct (decide (entry_url entry ∈ visitedUrls t)) as [Hin | Hout].
    - rewrite (bool_decide_eq_true_2 _ Hin), bool_decide_eq_true_2; [reflexivity |].
      apply elem_of_list_to_set. by apply Hseen.
    - rewrite (bool_decide_eq_false_2 _ Hout), bool_decide_eq_false_2; [reflexivity |].
      rewrite elem_of_list_to_set, <- Hseen. exact Hout. }
  assert (Hbudget : (maxPages_ <=? Z.of_nat (length (results t)))%Z = false).
  { unfold loop_condition in Hc. apply andb_true_iff in Hc as [_ Hr].
    apply Z.ltb_lt in Hr. apply Z.leb_gt. exact Hr. }
  rewrite Hbudget, orb_false_r.
  destruct (bool_decide (entry_url entry ∈ visitedUrls t)) eqn:Hv.
  { exists (done ++ [entry]). simpl. split.
    - rewrite Henq, <- app_assoc. reflexivity.
    - rewrite Hsnoc, app_nil_r. exact Hf. }
  destruct (extractContentFromUrl (entry_url entry) (session t))
    as [s' [pageContent | error]]; exists (done ++ [entry]); simpl.
  - split.
    + rewrite Henq, <- !app_assoc. reflexivity.
    + rewrite map_app, Hf, Hsnoc. reflexivity.
  - split.
    + rewrite Henq, <- app_assoc. reflexivity.
    + rewrite map_app, Hf, Hsnoc. reflexivity.
Qed.
End FirstCome.

Section FirstComeTraverse.
Context {W : Type} `{Puppeteer W} `{UrlParser}.
Import History.

Lemma traverse_first_come initialUrls options (s : Session W) :
  first_come (traverse initialUrls options s).
Proof.
  unfold traverse.
  set (d := or_default (depth options) 1).
  set (m := or_default (maxPages options) 5).
  destruct (while_loop_invariant d m
              (fun t => bookkeeping m t /\ first_come t))
    with (t := initialTraversal initialUrls s) as [[_ Hf] _].
  - intros t [Hb Hf] Hc. split.
    + by apply bookkeeping_step.
    + by apply first_come_step.
  - split; [apply bookkeeping_initial | apply first_come_initial].
  - exact Hf.
Qed.
End FirstComeTraverse.

Lemma shared_link_run :
  exists t',
    while_fuel 2 4 8
      (initialTraversal ["https://a.example/a"; "https://a.example/b"]
         (StaticWeb.start MorePages.shared_link false)) = Some t'
    /\ map url (results t')
       = ["https://a.example/a"; "https://a.example/b";
          "https://a.example/x"; "https://a.example/y"]
    /\ map entry_url (enqueued t')
       = ["https://a.example/a"; "https://a.example/b";
          "https://a.example/x"; "https://a.example/y"; "https://a.example/x"].
Proof. eexists. split; [| split]; vm_compute; reflexivity. Qed.

Lemma two_sites_run :
  exists t',
    while_fuel 2 4 8
      (initialTraversal ["https://a.example/"; "https://b.example/"]
         (StaticWeb.start StaticWeb.two_sites false)) = Some t'
    /\ map url (results t')
       = ["https://a.example/"; "https://b.example/";
          "https://a.example/1"; "https://b.example/1"].
Proof. eexists. split; vm_compute; reflexivity. Qed.

Lemma two_sites_order :
  map url
    (results
       (StaticWeb.crawl StaticWeb.two_sites
          ["https://a.example/"; "https://b.example/"]
          {| depth := Some 2%Z; maxPages := Some 4%Z |}))
  = ["https://a.example/"; "https://b.example/";
     "https://a.example/1"; "https://b.example/1"].
Proof.
  destruct two_sites_run as (t' & Hfuel & Hurls).
  pose proof (traverse_fuel _ {| depth := Some 2%Z; maxPages := Some 4%Z |}
                _ 8 t' Hfuel) as Heq.
  exact (eq_trans (f_equal (fun x => map url (results x)) Heq) Hurls).
Qed.


(* ------------------------------------------------------------------ *)
(** ** The traversal                                                    *)
(* ------------------------------------------------------------------ *)

Import History.

(** C1.  For every seed list, every depth limit and every page budget of
    at least one, whatever the rendering session does: [performDeepSearch]
    returns (it does not throw) at most [maxPages] pages, no URL appears
    twice among them, [extractContentFromUrl] is called at most once per
    URL, the visited set holds exactly the URLs it was called for, and no
    URL is navigated to twice. *)
Theorem performDeepSearch_budget_single_fetch
  {W : Type} `{Puppeteer W} `{UrlParser}
  (initialUrls : list string) (depthLimit pageBudget : Z) (s : Session W) :
  (1 <= pageBudget)%Z ->
  let options := {| depth := Some depthLimit; maxPages := Some pageBudget |} in
  let t := traverse initialUrls options s in
  performDeepSearch initialUrls options s = (session t, Return (results t))
  /\ (Z.of_nat (length (results t)) <= pageBudget)%Z
  /\ NoDup (map url (results t))
  /\ NoDup (fetched_urls t)
  /\ (forall u, u ∈ visitedUrls t <-> u ∈ fetched_urls t)
  /\ exists evs, trace (session t) = trace s ++ evs /\ NoDup (goto_urls evs).
Proof.
  intros Hbudget options t.
  destruct (traverse_invariants initialUrls options s)
    as ([Hres Hvis Hnd Hurl Hbud] & _ & _ & [(evs & Htr & Hgoto) _ _] & _).
  fold t in Hres, Hvis, Hnd, Hurl, Hbud, Htr, Hgoto.
  assert (Hmp : or_default (maxPages options) 5 = pageBudget).
  { simpl. destruct (Z.eqb_spec pageBudget 0); [lia | reflexivity]. }
  rewrite Hmp in Hbud.
  split; [reflexivity |]. split; [lia |].
  split.
  { rewrite Hres. eapply sublist_NoDup; [exact Hnd | apply successes_urls; exact Hurl]. }
  split; [exact Hnd |]. split; [exact Hvis |].
  exists evs. split; [exact Htr |]. eapply sublist_NoDup; [exact Hnd | exact Hgoto].
Qed.

Lemma performDeepSearch_budget_single_fetch_witness :
  let options := {| depth := Some 2%Z; maxPages := Some 4%Z |} in
  let s := StaticWeb.start StaticWeb.two_sites false in
  let t := traverse ["https://a.example/"; "https://b.example/"] options s in
  performDeepSearch ["https://a.example/"; "https://b.example/"] options s
  = (session t, Return (results t))
  /\ (Z.of_nat (length (results t)) <= 4)%Z
  /\ NoDup (map url (results t))
  /\ NoDup (fetched_urls t)
  /\ (forall u, u ∈ visitedUrls t <-> u ∈ fetched_urls t)
  /\ exists evs, trace (session t) = trace s ++ evs /\ NoDup (goto_urls evs).
Proof.
  apply (performDeepSearch_budget_single_fetch
           ["https://a.example/"; "https://b.example/"] 2 4
           (StaticWeb.start StaticWeb.two_sites false)).
  lia.
Defined.

(** C5.  [performDeepSearch] returns the pages in the order in which
    their queue entries were taken off the queue, which is the order in
    which they were put on it (first in, first out).  The calls of
    [extractContentFromUrl] were made for the entries taken off the
    queue, in that order, once for each URL, for the first entry that
    has it; the loop went on until the queue was empty or the budget
    was reached; and the result holds the pages of the calls that
    returned, in the order of the calls.  So, read as queue entries, the
    pages are a subsequence of the entries ever queued with every URL
    kept at its first entry only, a sequence without a repeated URL
    that starts with the seeds: that fixes the order of any two pages.
    The depths never decrease along the result, so every page of depth
    d comes before every page of depth d+1.  On two sites A and B whose
    home pages link to one page each, with depth 2 and four pages
    allowed, the result is A, B, the link of A, the link of B; when A
    links to X and Y and B to X, the queue receives A, B, X, Y, X and
    the result is A, B, X, Y. *)
Theorem performDeepSearch_breadth_first_order
  {W : Type} `{Puppeteer W} `{UrlParser}
  (initialUrls : list string) (options : DeepSearchOptions) (s : Session W) :
  let maxPages_ := or_default (maxPages options) 5 in
  let t := traverse initialUrls options s in
  performDeepSearch initialUrls options s = (session t, Return (results t))
  /\ map fst (results_with_depth t) = results t
  /\ StronglySorted Z.le (map snd (results_with_depth t))
  /\ result_entries t = entries_returned (fetched t)
  /\ (exists done,
        enqueued t = done ++ queue t
        /\ map fst (fetched t) = first_occurrences done
        /\ (queue t = [] \/ (maxPages_ <= Z.of_nat (length (results t)))%Z))
  /\ result_entries t `sublist_of` first_occurrences (enqueued t)
  /\ NoDup (map entry_url (first_occurrences (enqueued t)))
  /\ result_entries t `sublist_of` enqueued t
  /\ initialQueue initialUrls `prefix_of` enqueued t
  /\ option_map (map url)
       (returned
          (snd (StaticWeb.search StaticWeb.two_sites
                  ["https://a.example/"; "https://b.example/"]
                  {| depth := Some 2%Z; maxPages := Some 4%Z |})))
     = Some ["https://a.example/"; "https://b.example/";
             "https://a.example/1"; "https://b.example/1"]
  /\ (let shared := StaticWeb.crawl MorePages.shared_link
                      ["https://a.example/a"; "https://a.example/b"]
                      {| depth := Some 2%Z; maxPages := Some 4%Z |} in
      map entry_url (enqueued shared)
      = ["https://a.example/a"; "https://a.example/b";
         "https://a.example/x"; "https://a.example/y"; "https://a.example/x"]
      /\ map url (results shared)
         = ["https://a.example/a"; "https://a.example/b";
            "https://a.example/x"; "https://a.example/y"]).
Proof.
  intros maxPages_ t.
  destruct (traverse_invariants initialUrls options s)
    as ([Hres _ _ Hurl _] & [_ Hsorted _] & _ & _ & Hc).
  fold t maxPages_ in Hres, Hurl, Hsorted, Hc.
  destruct (traverse_first_come initialUrls options s) as (done & Henq & Hf).
  fold t in Henq, Hf.
  assert (Hret : result_entries t = entries_returned (fetched t))
    by (apply with_depth_returned, Hurl).
  assert (Hfirst : result_entries t `sublist_of` first_occurrences (enqueued t)).
  { rewrite Hret, Henq. unfold first_occurrences.
    rewrite first_occurrences_app.
    change (first_occurrences_from ∅ done) with (first_occurrences done).
    rewrite <- Hf.
    etrans; [apply entries_returned_sublist |]. by apply sublist_inserts_r. }
  split; [reflexivity |].
  split; [rewrite Hres; apply with_depth_pages |].
  split.
  { rewrite <- result_entries_depths.
    eapply StronglySorted_sublist; [| exact Hsorted].
    apply sublist_map. etrans; [exact Hfirst | apply first_occurrences_sublist]. }
  split; [exact Hret |].
  split.
  { exists done. split; [exact Henq |]. split; [exact Hf |].
    unfold loop_condition in Hc. apply andb_false_iff in Hc as [Hq | Hr].
    - left. apply Nat.ltb_ge in Hq.
      destruct (queue t); [reflexivity | simpl in Hq; lia].
    - right. apply Z.ltb_ge in Hr. exact Hr. }
  split; [exact Hfirst |].
  split; [apply first_occurrences_NoDup |].
  split; [etrans; [exact Hfirst | apply first_occurrences_sublist] |].
  split; [apply traverse_seeds_first |].
  split.
  { unfold StaticWeb.search, performDeepSearch. simpl snd. simpl returned.
    simpl option_map. f_equal. exact two_sites_order. }
  destruct shared_link_run as (t' & Hfuel & Hurls & Henqs).
  pose proof (traverse_fuel _ {| depth := Some 2%Z; maxPages := Some 4%Z |}
                _ 8 t' Hfuel) as Heq.
  cbv zeta. unfold StaticWeb.crawl. rewrite Heq. split; assumption.
Qed.



Section FailedFetch.
Context {W : Type} `{Puppeteer W} `{UrlParser}.

Lemma failed_fetch_turn depth_ maxPages_ (t : Traversal W) entry rest s' error :
  queue t = entry :: rest ->
  entry_url entry ∉ visitedUrls t ->
  (Z.of_nat (length (results t)) < maxPages_)%Z ->
  extractContentFromUrl (entry_url entry) (session t) = (s', Throw error) ->
  loop_body depth_ maxPages_ t
  = {| queue := rest; visitedUrls := {[ entry_url entry ]} ∪ visitedUrls t;
       results := results t; session := s'; enqueued := enqueued t;
       fetched := fetched t ++ [(entry, Throw error)] |}.
Proof.
  intros Hq Hv Hb Hrun. unfold loop_body. rewrite Hq.
  rewrite bool_decide_eq_false_2 by exact Hv.
  destruct (Z.leb_spec maxPages_ (Z.of_nat (length (results t)))); [lia |].
  simpl. rewrite Hrun. reflexivity.
Qed.

Lemma failed_fetch_not_in_results initialUrls options (s : Session W) e error :
  (e, Throw error) ∈ fetched (traverse initialUrls options s) ->
  entry_url e ∉ map url (results (traverse initialUrls options s)).
Proof.
  destruct (traverse_invariants initialUrls options s)
    as ([Hres _ Hnd Hurl _] & _).
  intros Hin Hu. rewrite Hres in Hu.
  apply list_elem_of_In, in_map_iff in Hu as (p & Hp & Hps).
  apply list_elem_of_In, elem_of_successes in Hps as (e' & He').
  assert (Heq : (e, Throw error) = (e', Return p)); [| discriminate].
  eapply (NoDup_map_inj (fun f => entry_url (fst f))); eauto.
  simpl. rewrite <- (Hurl e' p He'). by symmetry.
Qed.
End FailedFetch.


(** C2, as stated, fails.  With the home page of A unreachable, seeds
    A and B and one page allowed: the fetch of A throws, the result has
    no entry for A, and the one page allowed is still spent on B. *)
Lemma failed_fetch_counterexample :
  let t := StaticWeb.crawl StaticWeb.site_b_only
             ["https://a.example/"; "https://b.example/"]
             {| depth := Some 1%Z; maxPages := Some 1%Z |} in
  map (fun f => (entry_url (fst f), throws (snd f))) (fetched t)
  = [("https://a.example/", true); ("https://b.example/", false)]
  /\ map url (results t) = ["https://b.example/"].
Proof.
  assert (Hrun : exists t',
    while_fuel 1 1 8
      (initialTraversal ["https://a.example/"; "https://b.example/"]
         (StaticWeb.start StaticWeb.site_b_only false)) = Some t'
    /\ map (fun f => (entry_url (fst f), throws (snd f))) (fetched t')
       = [("https://a.example/", true); ("https://b.example/", false)]
    /\ map url (results t') = ["https://b.example/"]).
  { eexists. split; [| split]; vm_compute; reflexivity. }
  destruct Hrun as (t' & Hfuel & Hres).
  pose proof (traverse_fuel _ {| depth := Some 1%Z; maxPages := Some 1%Z |}
                _ 8 t' Hfuel) as Heq.
  unfold StaticWeb.crawl. simpl. rewrite Heq. exact Hres.
Qed.

(** C2, amended.  A fetch that fails leaves no entry in the result and
    does not count against the page budget: the turn only takes the
    entry off the queue and marks its URL visited, the result and the
    entries ever queued stay as they were (no link of the failed page is
    queued); and at the end of the traversal the URL of a failed fetch
    is not the URL of any page of the result. *)
Theorem failed_fetch_is_skipped
  {W : Type} `{Puppeteer W} `{UrlParser}
  (initialUrls : list string) (options : DeepSearchOptions) (s : Session W) :
  let depth_ := or_default (depth options) 1 in
  let maxPages_ := or_default (maxPages options) 5 in
  (forall (t : Traversal W) entry rest s' error,
      queue t = entry :: rest ->
      entry_url entry ∉ visitedUrls t ->
      (Z.of_nat (length (results t)) < maxPages_)%Z ->
      extractContentFromUrl (entry_url entry) (session t) = (s', Throw error) ->
      loop_body depth_ maxPages_ t
      = {| queue := rest; visitedUrls := {[ entry_url entry ]} ∪ visitedUrls t;
           results := results t; session := s'; enqueued := enqueued t;
           fetched := fetched t ++ [(entry, Throw error)] |})
  /\ (forall e error,
        (e, Throw error) ∈ fetched (traverse initialUrls options s) ->
        entry_url e ∉ map url (results (traverse initialUrls options s))).
Proof.
  intros depth_ maxPages_. split.
  - intros t entry rest s' error. apply failed_fetch_turn.
  - intros e error. apply failed_fetch_not_in_results.
Qed.

Section DepthOne.
Context {W : Type} `{Puppeteer W} `{UrlParser}.

Lemma no_expansion_step depth_ maxPages_ initialUrls (t : Traversal W) :
  (depth_ <= 1)%Z ->
  enqueued t = initialQueue initialUrls
  /\ (forall e, e ∈ queue t -> currentDepth e = 1%Z) ->
  enqueued (loop_body depth_ maxPages_ t) = initialQueue initialUrls
  /\ (forall e, e ∈ queue (loop_body depth_ maxPages_ t) -> currentDepth e = 1%Z).
Proof.
  intros Hd [Henq Hq]. unfold loop_body.
  destruct (queue t) as [| entry rest] eqn:Hqueue.
  { split; [exact Henq |]. rewrite Hqueue. exact Hq. }
  assert (Hrest : forall e, e ∈ rest -> currentDepth e = 1%Z).
  { intros e He. apply Hq. by right. }
  destruct (bool_decide _ || _); [split; [exact Henq | exact Hrest] |].
  destruct (extractContentFromUrl _ _) as [s' [pageContent | error]];
    simpl; [| split; [exact Henq | exact Hrest]].
  rewrite (Hq entry) by (by left).
  destruct (Z.ltb_spec 1 depth_); [lia |].
  rewrite !app_nil_r. split; [exact Henq | exact Hrest].
Qed.
End DepthOne.

(** X4.  With a depth of 1 nothing is ever added to the queue, and
    [extractContentFromUrl] is called for seed URLs only. *)
Theorem depth_one_fetches_seeds_only
  {W : Type} `{Puppeteer W} `{UrlParser}
  (initialUrls : list string) (pageBudget : option Z) (s : Session W) :
  let t := traverse initialUrls
             {| depth := Some 1%Z; maxPages := pageBudget |} s in
  enqueued t = initialQueue initialUrls
  /\ (forall u, u ∈ fetched_urls t -> u ∈ initialUrls).
Proof.
  intros t.
  assert (Hinv : enqueued t = initialQueue initialUrls
                 /\ (forall e, e ∈ queue t -> currentDepth e = 1%Z)).
  { unfold t, traverse.
    apply (while_loop_invariant _ _
             (fun t => enqueued t = initialQueue initialUrls
                       /\ (forall e, e ∈ queue t -> currentDepth e = 1%Z))).
    - intros t0 Ht0 _. apply no_expansion_step; [simpl; lia | exact Ht0].
    - split; [reflexivity |]. simpl. intros e He.
      apply list_elem_of_In, in_map_iff in He as (u & <- & _). reflexivity. }
  destruct Hinv as [Henq _]. split; [exact Henq |].
  destruct (traverse_invariants initialUrls
              {| depth := Some 1%Z; maxPages := pageBudget |} s)
    as (_ & [(done & Hdone & Hsub) _ _] & _).
  fold t in Hdone, Hsub.
  intros u Hu. unfold fetched_urls in Hu.
  apply list_elem_of_In, in_map_iff in Hu as (f & <- & Hf).
  assert (He : fst f ∈ enqueued t).
  { rewrite Hdone. apply elem_of_app. left.
    eapply elem_of_sublist; [| exact Hsub].
    apply list_elem_of_In, in_map. exact Hf. }
  rewrite Henq in He.
  apply list_elem_of_In, in_map_iff in He as (u & Hu & Hin).
  rewrite <- Hu. simpl. by apply list_elem_of_In.
Qed.

Section PagesRules.
Context {W : Type} `{Puppeteer W} `{UrlParser}.
Import Pages.

Lemma one_at_a_time_app (current : option Page) (tr1 tr2 : list Event) :
  one_at_a_time current tr1 = true -> one_at_a_time None tr2 = true ->
  one_at_a_time current (tr1 ++ tr2) = true.
Proof.
  intros H1 H2. revert current H1.
  induction tr1 as [| ev tr1 IH]; intros current Hc; simpl in *.
  - destruct current; [discriminate | exact H2].
  - destruct ev as [p | p u | p d | p]; destruct current as [q |];
      try discriminate; try (apply IH; exact Hc).
    all: apply andb_true_iff in Hc as [Hp Hc]; rewrite Hp; simpl.
    all: apply IH; exact Hc.
Qed.

Lemma fetch_one_at_a_time url_ (s s' : Session W) c :
  extractContentFromUrl url_ s = (s', c) ->
  exists evs, trace s' = trace s ++ evs
              /\ one_at_a_time None evs = true
              /\ (length (opened evs) <= 1)%nat
              /\ opened evs = closed evs.
Proof.
  intros Hrun.
  apply extractContentFromUrl_events in Hrun as (evs & Htr & Hcases).
  exists evs. split; [exact Htr |].
  destruct Hcases as [[-> _] | (pg & mid & -> & Hmid & _)]; [simpl; auto |].
  destruct Hmid as [-> | [-> | [(d1 & ->) | [(d1 & d2 & ->) | (d1 & d2 & d3 & ->)]]]];
    simpl; rewrite ?Nat.eqb_refl; simpl; auto.
Qed.

Lemma traversal_one_at_a_time_step depth_ maxPages_ tr0 (t : Traversal W) :
  (exists evs, trace (session t) = tr0 ++ evs
               /\ one_at_a_time None evs = true
               /\ opened evs = closed evs
               /\ (length (opened evs) <= length (fetched t))%nat) ->
  exists evs, trace (session (loop_body depth_ maxPages_ t)) = tr0 ++ evs
              /\ one_at_a_time None evs = true
              /\ opened evs = closed evs
              /\ (length (opened evs)
                  <= length (fetched (loop_body depth_ maxPages_ t)))%nat.
Proof.
  intros (evs & Htr & Hone & Hoc & Hlen). unfold loop_body.
  destruct (queue t) as [| entry rest]; [eauto |].
  destruct (bool_decide _ || _); [simpl; eauto |].
  destruct (extractContentFromUrl (entry_url entry) (session t))
    as [s' c] eqn:Hrun.
  apply fetch_one_at_a_time in Hrun as (evs' & Htr' & Hone' & Hlen' & Hoc').
  assert (Hgoal : exists evs0, trace s' = tr0 ++ evs0
                    /\ one_at_a_time None evs0 = true
                    /\ opened evs0 = closed evs0
                    /\ (length (opened evs0) <= S (length (fetched t)))%nat).
  { exists (evs ++ evs'). split; [rewrite Htr', Htr, app_assoc; reflexivity |].
    split; [by apply one_at_a_time_app |].
    unfold opened, closed in *. rewrite !omap_app, Hoc, Hoc'.
    split; [reflexivity |]. rewrite length_app. 
    rewrite <- Hoc, <- Hoc'. lia. }
  destruct Hgoal as (evs0 & H1 & H2 & H3 & H4).
  destruct c as [pageContent | error]; simpl; exists evs0;
    rewrite length_app; simpl; (split; [exact H1 |]); (split; [exact H2 |]);
    (split; [exact H3 | lia]).
Qed.

Lemma traversal_one_at_a_time initialUrls options (s : Session W) :
  let t := traverse initialUrls options s in
  exists evs, trace (session t) = trace s ++ evs
              /\ one_at_a_time None evs = true
              /\ opened evs = closed evs
              /\ (length (opened evs) <= length (fetched t))%nat.
Proof.
  intros t. unfold t, traverse.
  apply (while_loop_invariant _ _
           (fun t => exists evs, trace (session t) = trace s ++ evs
                       /\ one_at_a_time None evs = true
                       /\ opened evs = closed evs
                       /\ (length (opened evs) <= length (fetched t))%nat)).
  - intros t0 Ht0 _. by apply traversal_one_at_a_time_step.
  - exists []. simpl. rewrite app_nil_r. auto.
Qed.
End PagesRules.

(** X5.  Whatever the rendering session does, [performDeepSearch]
    leaves no page open: the pages it opened are the pages it closed, in
    the same order, at most one per call of [extractContentFromUrl]; it
    never has two pages open, and every navigation and evaluation is
    made in the page that is open at that time.
    [ContentExtractor.extractContent] does not share this: when setting
    the user agent fails, its trace is the opening of a page alone. *)
Theorem performDeepSearch_leaves_no_page_open
  {W : Type} `{Puppeteer W} `{UrlParser}
  (initialUrls : list string) (options : DeepSearchOptions) (s : Session W) :
  let t := traverse initialUrls options s in
  (exists evs,
      trace (session t) = trace s ++ evs
      /\ Pages.one_at_a_time None evs = true
      /\ opened evs = closed evs
      /\ (length (opened evs) <= length (fetched t))%nat)
  /\ Pages.one_at_a_time None
       (trace (fst (ContentExtractor.extractContent "https://a.example/"
                      (StaticWeb.start StaticWeb.two_sites true))))
     = false.
Proof.
  intros t. split; [apply traversal_one_at_a_time |].
  vm_compute. reflexivity.
Qed.

Section Degenerate.
Context {W : Type} `{Puppeteer W} `{UrlParser}.

Lemma traverse_nothing_to_do initialUrls options (s : Session W) :
  loop_condition (or_default (maxPages options) 5)
    (initialTraversal initialUrls s) = false ->
  traverse initialUrls options s = initialTraversal initialUrls s.
Proof.
  intros Hc. apply (traverse_fuel _ _ _ 0). simpl. rewrite Hc. reflexivity.
Qed.

(** With a depth limit of 1 or less nothing is ever added to the
    queue, and only seeds are fetched. *)
Lemma shallow_traversal initialUrls options (s : Session W) :
  (or_default (depth options) 1 <= 1)%Z ->
  let t := traverse initialUrls options s in
  enqueued t = initialQueue initialUrls
  /\ (forall u, u ∈ fetched_urls t -> u ∈ initialUrls).
Proof.
  intros Hd t.
  assert (Hinv : enqueued t = initialQueue initialUrls
                 /\ (forall e, e ∈ queue t -> currentDepth e = 1%Z)).
  { unfold t, traverse.
    apply (while_loop_invariant _ _
             (fun t => enqueued t = initialQueue initialUrls
                       /\ (forall e, e ∈ queue t -> currentDepth e = 1%Z))).
    - intros t0 Ht0 _. apply no_expansion_step; [exact Hd | exact Ht0].
    - split; [reflexivity |]. simpl. intros e He.
      apply list_elem_of_In, in_map_iff in He as (u & <- & _). reflexivity. }
  destruct Hinv as [Henq _]. split; [exact Henq |].
  destruct (traverse_invariants initialUrls options s)
    as (_ & [(done & Hdone & Hsub) _ _] & _).
  fold t in Hdone, Hsub.
  intros u Hu. unfold fetched_urls in Hu.
  apply list_elem_of_In, in_map_iff in Hu as (f & <- & Hf).
  assert (He : fst f ∈ enqueued t).
  { rewrite Hdone. apply elem_of_app. left.
    eapply elem_of_sublist; [| exact Hsub].
    apply list_elem_of_In, in_map. exact Hf. }
  rewrite Henq in He.
  apply list_elem_of_In, in_map_iff in He as (u & Hu & Hin).
  rewrite <- Hu. simpl. by apply list_elem_of_In.
Qed.
End Degenerate.

(** X6.  The options of [performDeepSearch] at their edges.  A negative
    page budget gives an empty result without any use of the browser.
    A page budget of 0 is not a budget of no page: like a missing one
    it is replaced by 5.  An empty list of URLs gives an empty result
    without any use of the browser.  A depth of 0, like a missing one,
    is replaced by 1, and with any depth limit of 1 or less (negative
    ones too) nothing is ever queued besides the URLs given and only
    these are fetched. *)
Theorem performDeepSearch_options_at_the_edges
  {W : Type} `{Puppeteer W} `{UrlParser}
  (initialUrls : list string) (options : DeepSearchOptions) (s : Session W) :
  let t := traverse initialUrls options s in
  (forall n, maxPages options = Some n -> (n < 0)%Z ->
     results t = [] /\ fetched t = [] /\ session t = s)
  /\ (maxPages options = None \/ maxPages options = Some 0%Z ->
      t = traverse initialUrls
            {| depth := depth options; maxPages := Some 5%Z |} s
      /\ (length (results t) <= 5)%nat)
  /\ (initialUrls = [] ->
      results t = [] /\ fetched t = [] /\ session t = s)
  /\ (depth options = None \/ depth options = Some 0%Z ->
      t = traverse initialUrls
            {| depth := Some 1%Z; maxPages := maxPages options |} s)
  /\ ((or_default (depth options) 1 <= 1)%Z ->
      enqueued t = initialQueue initialUrls
      /\ (forall u, u ∈ fetched_urls t -> u ∈ initialUrls)).
Proof.
  intros t. split.
  { intros n Hn Hneg. unfold t.
    rewrite traverse_nothing_to_do; [simpl; auto |].
    rewrite Hn. unfold or_default, loop_condition.
    destruct (Z.eqb_spec n 0); [lia |].
    apply andb_false_iff. right. apply Z.ltb_ge. simpl. lia. }
  split.
  { intros Hbudget.
    assert (Heq : t = traverse initialUrls
                        {| depth := depth options; maxPages := Some 5%Z |} s).
    { unfold t, traverse. destruct Hbudget as [-> | ->]; reflexivity. }
    split; [exact Heq |].
    destruct (traverse_invariants initialUrls options s)
      as ([_ _ _ _ Hbud] & _). fold t in Hbud.
    destruct Hbudget as [Hb | Hb]; rewrite Hb in Hbud; simpl in Hbud; lia. }
  split.
  { intros ->. unfold t. rewrite traverse_nothing_to_do; [simpl; auto |].
    reflexivity. }
  split.
  { intros Hdepth. unfold t, traverse.
    destruct Hdepth as [-> | ->]; reflexivity. }
  intros Hd. by apply shallow_traversal.
Qed.

(* ------------------------------------------------------------------ *)
(** ** The page fetch                                                   *)
(* ------------------------------------------------------------------ *)

Section Fetchers.
Context {W : Type} `{Puppeteer W} `{UrlParser}.

Lemma newPage_events (s s' : Session W) c :
  BrowserManager.newPage s = (s', c) ->
  (exists pg, c = Return pg /\ trace s' = trace s ++ [NewPage pg])
  \/ (throws c = true /\ trace s' = trace s)
  \/ (exists pg, throws c = true /\ trace s' = trace s ++ [NewPage pg]).
Proof.
  unfold BrowserManager.newPage, getBrowser, browser_newPage,
    page_setDefaultTimeout, page_setDefaultNavigationTimeout,
    page_setUserAgent.
  intros Hrun. invert_async; subst; simpl; rewrite ?app_nil_r; eauto.
Qed.

Lemma extractContent_try_events url_ pg (s s' : Session W) c :
  ContentExtractor.extractContent_try url_ pg s = (s', c) ->
  exists mid, trace s' = trace s ++ Goto pg url_ :: mid
              /\ opened mid = [] /\ closed mid = []
              /\ forall r, c = Return r ->
                   ContentExtractor.url r = url_
                   /\ ContentExtractor.error r = None.
Proof.
  unfold ContentExtractor.extractContent_try, page_goto, page_title,
    ContentExtractor.extractMainContent, ContentExtractor.extractLinks.
  intros Hrun. invert_async; subst; simpl; rewrite <- ?app_assoc; simpl;
    rewrite ?app_nil_r;
    eexists; (split; [reflexivity |]); (split; [reflexivity |]);
    (split; [reflexivity |]); intros r [=]; subst; auto.
Qed.

(** What [ContentExtractor.extractContent] gives, by the cases of its
    [try]. *)
Lemma extractContent_cases url_ (s : Session W) :
  (exists s1 e,
      BrowserManager.newPage s = (s1, Throw e)
      /\ ContentExtractor.extractContent url_ s
         = (s1, Return (ContentExtractor.extractContent_catch url_ e)))
  \/ (exists s1 pg s2 c s3 closing,
        BrowserManager.newPage s = (s1, Return pg)
        /\ ContentExtractor.extractContent_try url_ pg s1 = (s2, c)
        /\ page_close pg s2 = (s3, closing)
        /\ ContentExtractor.extractContent url_ s
           = (s3, Return match c with
                         | Return r => r
                         | Throw e => ContentExtractor.extractContent_catch url_ e
                         end)).
Proof.
  unfold ContentExtractor.extractContent, catch_and_log.
  destruct (BrowserManager.newPage s) as [s1 [pg | e]] eqn:Hnew.
  - right. destruct (ContentExtractor.extractContent_try url_ pg s1)
      as [s2 c] eqn:Htry.
    destruct (page_close pg s2) as [s3 closing] eqn:Hclose.
    exists s1, pg, s2, c, s3, closing.
    split; [reflexivity |]. split; [exact Htry |]. split; [exact Hclose |].
    destruct c; reflexivity.
  - left. eauto.
Qed.

Lemma page_close_events pg (s s' : Session W) c :
  page_close pg s = (s', c) -> trace s' = trace s ++ [Close pg].
Proof.
  unfold page_close. intros Hrun. apply record_call_inv in Hrun as (w & _ & ->).
  reflexivity.
Qed.
End Fetchers.

(** C3, as stated, fails for [extractContentFromUrl], the fetch of the
    traversal engine: when the navigation fails it throws to its caller. *)
Lemma extractContentFromUrl_rethrows :
  snd (extractContentFromUrl "https://a.example/"
         (StaticWeb.start StaticWeb.site_b_only false))
  = Throw (ErrorObject "net::ERR_NAME_NOT_RESOLVED").
Proof. vm_compute. reflexivity. Qed.

(** C3, amended.  [ContentExtractor.extractContent] never throws to its
    caller, whatever the rendering session does: it returns a value for
    the URL asked, and when obtaining the page or any step after it
    failed, that value has the message of the failure in its error
    field, the title "Error", an empty content and no links.
    [extractContentFromUrl] returns a page only when every step
    succeeded (page opened, navigation, the three evaluations, page
    closed); it has no error field to return. *)
Theorem extractContent_never_throws
  {W : Type} `{Puppeteer W} `{UrlParser} (url_ : string) (s : Session W) :
  (exists s' r,
      ContentExtractor.extractContent url_ s = (s', Return r)
      /\ ContentExtractor.url r = url_
      /\ (forall message, ContentExtractor.error r = Some message ->
            ContentExtractor.title r = "Error"
            /\ ContentExtractor.content r = ""
            /\ ContentExtractor.links r = [])
      /\ (forall s1 e, BrowserManager.newPage s = (s1, Throw e) ->
            ContentExtractor.error r = Some (error_text e))
      /\ (forall s1 pg s2 e,
            BrowserManager.newPage s = (s1, Return pg) ->
            ContentExtractor.extractContent_try url_ pg s1 = (s2, Throw e) ->
            ContentExtractor.error r = Some (error_text e)))
  /\ (forall s' p,
        extractContentFromUrl url_ s = (s', Return p) ->
        url p = url_
        /\ exists pg d1 d2 d3,
             trace s' = trace s ++ [NewPage pg; Goto pg url_; Evaluate pg d1;
                                    Evaluate pg d2; Evaluate pg d3; Close pg]
             /\ (title p, description p)
                = UtilsExtractor.extractMetadata_in_page d1
             /\ UtilsExtractor.extractMainContent_in_page d2
                = Return (content p)
             /\ UtilsExtractor.extractLinks_in_page d3 = Return (links p)).
Proof.
  split.
  - destruct (extractContent_cases url_ s)
      as [(s1 & e & Hnew & Hrun)
         | (s1 & pg & s2 & c & s3 & closing & Hnew & Htry & _ & Hrun)].
    + eexists _, _. split; [exact Hrun |]. simpl.
      split; [reflexivity |]. split; [auto |].
      split.
      * intros s1' e' Hnew'. rewrite Hnew in Hnew'. by injection Hnew' as _ <-.
      * intros s1' pg s2 e' Hnew'. rewrite Hnew in Hnew'. discriminate.
    + eexists _, _. split; [exact Hrun |].
      apply extractContent_try_events in Htry as Hev.
      destruct Hev as (mid & _ & _ & _ & Hret).
      destruct c as [r | e]; simpl.
      * destruct (Hret r eq_refl) as [Hu He].
        split; [exact Hu |]. split; [intros m Hm; congruence |].
        split.
        -- intros s1' e' Hnew'. rewrite Hnew in Hnew'. discriminate.
        -- intros s1' pg' s2' e' Hnew' Htry'. rewrite Hnew in Hnew'.
           injection Hnew' as <- <-. rewrite Htry in Htry'. discriminate.
      * split; [reflexivity |]. split; [auto |].
        split.
        -- intros s1' e' Hnew'. rewrite Hnew in Hnew'. discriminate.
        -- intros s1' pg' s2' e' Hnew' Htry'. rewrite Hnew in Hnew'.
           injection Hnew' as <- <-. rewrite Htry in Htry'.
           by injection Htry' as _ <-.
  - intros s' p Hrun.
    apply extractContentFromUrl_events in Hrun
      as (evs & Htr & [[_ [=]] | (pg & mid & -> & _ & Hp)]).
    destruct (Hp p eq_refl) as (Hu & d1 & d2 & d3 & -> & Hm & Hc & Hl).
    split; [exact Hu |]. exists pg, d1, d2, d3. auto.
Qed.

Section Release.
Context {W : Type} `{Puppeteer W} `{UrlParser}.

(** [extractContentFromUrl] opens at most one page, and closes it. *)
Lemma extractContentFromUrl_releases url_ (s s' : Session W) c :
  extractContentFromUrl url_ s = (s', c) ->
  exists evs, trace s' = trace s ++ evs
    /\ (evs = []
        \/ exists pg mid, evs = NewPage pg :: mid ++ [Close pg]
                          /\ opened mid = [] /\ closed mid = []).
Proof.
  intros Hrun.
  apply extractContentFromUrl_events in Hrun as (evs & Htr & Hcases).
  exists evs. split; [exact Htr |].
  destruct Hcases as [[-> _] | (pg & mid & -> & Hmid & _)]; [by left |].
  right. exists pg, mid. split; [reflexivity |].
  destruct Hmid as [-> | [-> | [(d1 & ->) | [(d1 & d2 & ->) | (d1 & d2 & d3 & ->)]]]];
    split; reflexivity.
Qed.

(** [ContentExtractor.extractContent] closes the page that
    [browserManager.newPage()] returned to it. *)
Lemma extractContent_releases url_ (s s1 s' : Session W) pg c :
  BrowserManager.newPage s = (s1, Return pg) ->
  ContentExtractor.extractContent url_ s = (s', c) ->
  exists mid, trace s' = trace s ++ NewPage pg :: mid ++ [Close pg]
              /\ opened mid = [] /\ closed mid = [].
Proof.
  intros Hnew Hrun.
  destruct (extractContent_cases url_ s)
    as [(s1' & e & Hnew' & _)
       | (s1' & pg' & s2 & c' & s3 & closing & Hnew' & Htry & Hclose & Hrun')].
  { rewrite Hnew in Hnew'. discriminate. }
  rewrite Hnew in Hnew'. injection Hnew' as <- <-.
  rewrite Hrun in Hrun'. injection Hrun' as -> _.
  apply newPage_events in Hnew
    as [(pg' & [= <-] & Hp) | [[[=] _] | (pg' & [=] & _)]].
  apply extractContent_try_events in Htry as (mid & Ht & Ho & Hc & _).
  apply page_close_events in Hclose.
  exists (Goto pg url_ :: mid). rewrite Hclose, Ht, Hp, <- !app_assoc. simpl.
  split; [reflexivity |]. split; assumption.
Qed.
End Release.


(** C4, at the failing input.  When setting the user agent fails inside
    [browserManager.newPage()], after the browser has opened the page,
    [ContentExtractor.extractContent] returns its error value and the
    page it opened is never closed: the trace of the call holds the
    opening of page 0 and no closing. *)
Lemma extractContent_leaks_page :
  let run := ContentExtractor.extractContent "https://a.example/"
               (StaticWeb.start StaticWeb.two_sites true) in
  trace (fst run) = [NewPage 0%nat]
  /\ closed (trace (fst run)) = []
  /\ snd run = Return {| ContentExtractor.url := "https://a.example/";
                         ContentExtractor.title := "Error";
                         ContentExtractor.content := "";
                         ContentExtractor.links := [];
                         ContentExtractor.error := Some "Protocol error" |}.
Proof. vm_compute. auto. Qed.

(** On the same session [extractContentFromUrl], which sets the user
    agent inside its [try], closes the page before it throws. *)
Lemma extractContentFromUrl_same_failure_releases :
  let run := extractContentFromUrl "https://a.example/"
               (StaticWeb.start StaticWeb.two_sites true) in
  trace (fst run) = [NewPage 0%nat; Close 0%nat]
  /\ snd run = Throw (ErrorObject "Protocol error").
Proof. vm_compute. auto. Qed.

(** X2.  Every page that a fetch was given is closed before the fetch ends:
    [extractContentFromUrl] opens at most one page and its last action
    is to close it, and [ContentExtractor.extractContent] closes the
    page that [browserManager.newPage()] returned to it; nothing between
    the opening and the closing opens or closes a page. *)
Theorem fetch_closes_the_page_it_was_given
  {W : Type} `{Puppeteer W} `{UrlParser} (url_ : string) (s : Session W) :
  (forall s' c,
      extractContentFromUrl url_ s = (s', c) ->
      exists evs,
        trace s' = trace s ++ evs
        /\ (evs = []
            \/ exists pg mid, evs = NewPage pg :: mid ++ [Close pg]
                              /\ opened mid = [] /\ closed mid = []))
  /\ (forall s1 pg s' c,
        BrowserManager.newPage s = (s1, Return pg) ->
        ContentExtractor.extractContent url_ s = (s', c) ->
        exists mid,
          trace s' = trace s ++ NewPage pg :: mid ++ [Close pg]
          /\ opened mid = [] /\ closed mid = []).
Proof.
  split.
  - intros s' c. apply extractContentFromUrl_releases.
  - intros s1 pg s' c. apply extractContent_releases.
Qed.

(* ------------------------------------------------------------------ *)
(** ** The origin of the links followed                                 *)
(* ------------------------------------------------------------------ *)

(** C10, at the failing input.  On a document of origin
    https://example.com, [extractLinks] keeps a link to the host
    example.com.evil.org: its URL starts with the origin of the document
    and belongs to another origin. *)
Lemma extractLinks_admits_another_origin :
  let d := snd (StaticWeb.page "https://example.com" "/" "Home"
                  [StaticWeb.a "https://example.com.evil.org/x" "elsewhere"]) in
  location_origin d = "https://example.com"
  /\ UtilsExtractor.extractLinks_in_page d
     = Return [ {| Link.url := "https://example.com.evil.org/x";
                   Link.text := "elsewhere" |} ].
Proof. vm_compute. auto. Qed.

(** With depth 2 the traversal then fetches the page of the other
    host. *)
Lemma traversal_leaves_the_origin :
  map url
    (results
       (StaticWeb.crawl StaticWeb.lookalike ["https://example.com/"]
          {| depth := Some 2%Z; maxPages := Some 5%Z |}))
  = ["https://example.com/"; "https://example.com.evil.org/x"].
Proof.
  assert (Hrun : exists t',
    while_fuel 2 5 8
      (initialTraversal ["https://example.com/"]
         (StaticWeb.start StaticWeb.lookalike false)) = Some t'
    /\ map url (results t')
       = ["https://example.com/"; "https://example.com.evil.org/x"]).
  { eexists. split; vm_compute; reflexivity. }
  destruct Hrun as (t' & Hfuel & Hres).
  pose proof (traverse_fuel _ {| depth := Some 2%Z; maxPages := Some 5%Z |}
                _ 8 t' Hfuel) as Heq.
  exact (eq_trans (f_equal (fun x => map url (results x)) Heq) Hres).
Qed.

(** X1.  What does hold: every link [extractLinks] returns has a URL that
    starts with the origin of its document, and in every traversal a
    call of [extractContentFromUrl] is made for a seed or for a link of
    a page fetched before it, which starts with the origin of the
    document that page was rendered as. *)
Theorem links_start_with_the_origin
  {W : Type} `{Puppeteer W} `{UrlParser}
  (initialUrls : list string) (options : DeepSearchOptions) (s : Session W) :
  (forall d ls,
      UtilsExtractor.extractLinks_in_page d = Return ls ->
      forall l, l ∈ ls -> startsWith (Link.url l) (location_origin d) = true)
  /\ (forall i f,
        fetched (traverse initialUrls options s) !! i = Some f ->
        entry_url (fst f) ∈ initialUrls
        \/ discovered_from (trace (session (traverse initialUrls options s)))
             (take i (fetched (traverse initialUrls options s)))
             (entry_url (fst f))).
Proof.
  split.
  - apply utils_extractLinks_origin.
  - destruct (traverse_invariants initialUrls options s)
      as (_ & _ & _ & [_ _ Hf] & _). exact Hf.
Qed.

(* ------------------------------------------------------------------ *)
(** ** The content of a page                                            *)
(* ------------------------------------------------------------------ *)

Import Kept.

Section Links.
Context `{UrlParser}.

Lemma white_space_is_no_backslash c :
  is_white_space c = true -> Ascii.eqb c backslash = false.
Proof.
  destruct (Ascii.eqb_spec c backslash) as [-> |]; [| reflexivity].
  vm_compute. discriminate.
Qed.

Lemma whitespace_only_cons c r :
  whitespace_only (String c r) = true ->
  is_white_space c = true /\ whitespace_only r = true.
Proof.
  unfold whitespace_only. simpl. destruct (is_white_space c); [auto |].
  simpl. discriminate.
Qed.

Lemma replace_run_whitespace x by_ s :
  whitespace_only s = true -> replace_run_go x by_ false s = s.
Proof.
  induction s as [| c r IH]; intros Hw; simpl; [reflexivity |].
  apply whitespace_only_cons in Hw as [Hc Hr].
  rewrite (white_space_is_no_backslash c Hc). simpl. by rewrite IH.
Qed.

Lemma trim_whitespace s : whitespace_only s = true -> trim s = "".
Proof.
  unfold whitespace_only, trim. intros Hw. apply String.eqb_eq in Hw.
  rewrite Hw. reflexivity.
Qed.

Lemma cleaned_text_not_blank s :
  (1 < String.length (trim (replace_run "s" " " s)))%nat ->
  whitespace_only s = false.
Proof.
  intros Hlen. destruct (whitespace_only s) eqn:Hw; [| reflexivity].
  unfold replace_run in Hlen. rewrite replace_run_whitespace in Hlen by exact Hw.
  rewrite trim_whitespace in Hlen by exact Hw. simpl in Hlen. lia.
Qed.

Lemma class_collectLinks_kept (d : Document) all anchorElements links seen out :
  ContentExtractor.collectLinks d anchorElements links seen = Return out ->
  (forall a, a ∈ anchorElements -> a ∈ all) ->
  (forall l, l ∈ links -> by_class_extractor d all l) ->
  (forall l, l ∈ links -> Link.url l ∈ seen) ->
  NoDup (map Link.url links) ->
  (forall l, l ∈ out -> by_class_extractor d all l)
  /\ NoDup (map Link.url out).
Proof.
  revert links seen.
  induction anchorElements as [| anchor rest IH]; intros links seen; simpl.
  - intros [= ->]. auto.
  - intros Hrun Hall Hkept Hseen Hnd.
    assert (Hrest : forall a, a ∈ rest -> a ∈ all).
    { intros a Ha. apply Hall. by right. }
    destruct (getAttribute anchor "href") as [href |] eqn:Hhref; [| eauto].
    destruct (String.eqb href ""); [eauto |].
    destruct (URL_href href (location_href d)) as [url_ |] eqn:Hurl;
      [| discriminate].
    destruct (negb (startsWith url_ "http")) eqn:Hhttp; simpl in Hrun;
      [eauto |].
    destruct (bool_decide (url_ ∈ seen)) eqn:Hs; simpl in Hrun; [eauto |].
    destruct (ContentExtractor.notContentPage url_) eqn:Hnc; [eauto |].
    destruct (1 <? String.length (trim (replace_run "s" " " (textContent anchor))))%nat
      eqn:Hlen; [| eauto].
    apply bool_decide_eq_false in Hs. apply Nat.ltb_lt in Hlen.
    apply negb_false_iff in Hhttp.
    apply (IH _ _ Hrun Hrest).
    + intros l Hl. apply elem_of_app in Hl as [Hl | Hl]; [by apply Hkept |].
      apply list_elem_of_singleton in Hl. subst l.
      split; [exact Hhttp |]. split; [exact Hnc |]. split; [exact Hlen |].
      exists anchor, href. split; [apply Hall; by left |].
      split; [exact Hhref |]. split; [exact Hurl |]. split; [reflexivity |].
      by apply cleaned_text_not_blank.
    + intros l Hl. apply elem_of_app in Hl as [Hl | Hl].
      * apply elem_of_union. right. by apply Hseen.
      * apply list_elem_of_singleton in Hl. subst l. simpl.
        apply elem_of_union. left. by apply elem_of_singleton.
    + rewrite map_app. simpl. apply NoDup_app. split; [exact Hnd |].
      split; [| apply NoDup_singleton].
      intros u Hu Hu'. apply list_elem_of_singleton in Hu'. subst u.
      apply Hs. apply list_elem_of_In, in_map_iff in Hu as (l & <- & Hl).
      apply Hseen. by apply list_elem_of_In.
Qed.

Lemma utils_collectLinks_kept (d : Document) all anchorElements links out :
  UtilsExtractor.collectLinks d anchorElements links = Return out ->
  (forall a, a ∈ anchorElements -> a ∈ all) ->
  (forall l, l ∈ links -> by_utils_extractor d all l) ->
  forall l, l ∈ out -> by_utils_extractor d all l.
Proof.
  revert links.
  induction anchorElements as [| anchor rest IH]; intros links; simpl.
  - intros [= ->]. auto.
  - intros Hrun Hall Hkept.
    assert (Hrest : forall a, a ∈ rest -> a ∈ all).
    { intros a Ha. apply Hall. by right. }
    destruct (getAttribute anchor "href") as [href |] eqn:Hhref; [| eauto].
    destruct (String.eqb_spec href "") as [-> | Hne]; simpl in Hrun; [eauto |].
    destruct (startsWith href "javascript:") eqn:Hjs; simpl in Hrun; [eauto |].
    destruct (startsWith href "mailto:") eqn:Hmail; simpl in Hrun; [eauto |].
    destruct (startsWith href "tel:") eqn:Htel; simpl in Hrun; [eauto |].
    destruct (startsWith href "#") eqn:Hfrag; simpl in Hrun; [eauto |].
    destruct (URL_href href (location_href d)) as [url_ |] eqn:Hurl;
      [| discriminate].
    destruct (negb _ && startsWith url_ (location_origin d)) eqn:Hk;
      [| eauto].
    apply andb_true_iff in Hk as [_ Horigin].
    apply (IH _ Hrun Hrest).
    intros l Hl. apply elem_of_app in Hl as [Hl | Hl]; [by apply Hkept |].
    apply list_elem_of_singleton in Hl. subst l.
    split; [exact Horigin |]. exists anchor, href.
    split; [apply Hall; by left |]. simpl. auto 10.
Qed.
End Links.

(** C7, amended.  [ContentExtractor.extractLinks] returns at most ten
    links, no URL twice, and every link it returns comes from an anchor
    of the document: its URL is what the [href] resolves to, starts with
    [http], has none of the extensions .jpg .jpeg .png .gif .pdf .zip
    and contains neither /cdn-cgi/ nor /wp-admin/, and the text of the
    anchor is not white space only (the cleaned text has more than one
    character).  [extractLinks] of [utils/content-extractor.ts], the one
    the traversal uses, returns links of anchors whose [href] starts
    with none of [javascript:], [mailto:], [tel:] and [#], whose URL
    starts with the origin of the document, with the URL as text when
    the anchor has none. *)
Theorem extractLinks_keep {parser : UrlParser} (d : Document) :
  (forall links,
      ContentExtractor.extractLinks_in_page d = Return links ->
      (length links <= 10)%nat
      /\ NoDup (map Link.url links)
      /\ forall l, l ∈ links -> by_class_extractor d (anchors d) l)
  /\ (forall links,
        UtilsExtractor.extractLinks_in_page d = Return links ->
        forall l, l ∈ links -> by_utils_extractor d (anchors d) l).
Proof.
  split.
  - intros links. unfold ContentExtractor.extractLinks_in_page.
    destruct (ContentExtractor.collectLinks d _ [] ∅) as [out | e] eqn:Hrun;
      [| discriminate].
    intros [= <-].
    apply (class_collectLinks_kept d (anchors d)) in Hrun as [Hkept Hnd].
    + split; [rewrite length_take; lia |].
      split.
      * change (map Link.url (take 10 out)) with (Link.url <$> take 10 out).
        rewrite fmap_take. eapply sublist_NoDup; [exact Hnd |].
        apply sublist_take.
      * intros l Hl. apply Hkept.
        eapply elem_of_sublist; [exact Hl | apply sublist_take].
    + auto.
    + intros l Hl. inversion Hl.
    + intros l Hl. inversion Hl.
    + constructor.
  - intros links Hrun.
    apply (utils_collectLinks_kept d (anchors d) _ [] links Hrun); [auto |].
    intros l Hl. inversion Hl.
Qed.

(** C7, as stated, fails for [extractLinks] of
    [utils/content-extractor.ts]: it returns the same URL twice, keeps
    an anchor whose text is white space, keeps a .pdf address, and
    returns eleven links when the document has eleven. *)
Lemma utils_extractLinks_unfiltered :
  UtilsExtractor.extractLinks_in_page (snd StaticWeb.repeated_links)
  = Return [ {| Link.url := "https://a.example/x"; Link.text := "x" |};
             {| Link.url := "https://a.example/x";
                Link.text := "https://a.example/x" |};
             {| Link.url := "https://a.example/y.pdf"; Link.text := "paper" |} ]
  /\ option_map (@length Link.t)
       (returned (UtilsExtractor.extractLinks_in_page (snd StaticWeb.eleven_links)))
     = Some 11%nat.
Proof. split; vm_compute; reflexivity. Qed.

Section RemovalRules.
Import Removal.

Lemma Node_induction (P : Node -> Prop) :
  (forall s, P (Text s)) ->
  (forall t a cs, Forall P cs -> P (Element t a cs)) ->
  forall n, P n.
Proof.
  intros Htext Helement. fix IH 1. intros [s | t a cs].
  - apply Htext.
  - apply Helement. induction cs as [| c cs IHcs]; constructor;
      [apply IH | exact IHcs].
Qed.

Lemma Selector_induction (P : Selector -> Prop) :
  (forall t, P (ByTag t)) -> (forall c, P (ByClass c)) ->
  (forall i, P (ById i)) -> (forall t a, P (ByTagAttr t a)) ->
  (forall t a v, P (ByTagAttrValue t a v)) ->
  (forall l, Forall P l -> P (AnyOf l)) ->
  forall sel, P sel.
Proof.
  intros H1 H2 H3 H4 H5 H6. fix IH 1. intros [t | c | i | t a | t a v | l];
    [apply H1 | apply H2 | apply H3 | apply H4 | apply H5 |].
  apply H6. induction l as [| s l IHl]; constructor; [apply IH | exact IHl].
Qed.

(** Whether a selector matches an element depends on its tag and its
    attributes only. *)
Lemma matches_children sel t a cs cs' :
  matches sel (Element t a cs) = matches sel (Element t a cs').
Proof.
  induction sel as [| | | | | l IH] using Selector_induction; try reflexivity.
  simpl. induction IH as [| s l Hs _ IHl]; simpl; [reflexivity |].
  rewrite Hs. f_equal. exact IHl.
Qed.

Lemma matches_remove_matching sel sel' n :
  matches sel (remove_matching sel' n) = matches sel n.
Proof. destruct n as [s | t a cs]; [reflexivity | apply matches_children]. Qed.

Lemma is_element_remove_matching sel n :
  is_element (remove_matching sel n) = is_element n.
Proof. destruct n; reflexivity. Qed.

Lemma remove_matching_element sel t a cs :
  remove_matching sel (Element t a cs) = Element t a (kept_children sel cs).
Proof. reflexivity. Qed.

Lemma descendants_element here t a cs :
  descendants here (Element t a cs) = below here 0 cs.
Proof. reflexivity. Qed.

Lemma below_cons here i c l :
  below here i (c :: l)
  = (if is_element c then [(i :: here, c)] else [])
    ++ descendants (i :: here) c ++ below here (S i) l.
Proof. reflexivity. Qed.

Lemma kept_children_cons sel c l :
  kept_children sel (c :: l)
  = if matches sel c then kept_children sel l
    else remove_matching sel c :: kept_children sel l.
Proof. reflexivity. Qed.

(** After [remove_matching] no element below the root matches. *)
Lemma remove_matching_none_left sel n :
  forall here,
    Forall (fun e => matches sel (snd e) = false)
           (descendants here (remove_matching sel n)).
Proof.
  induction n as [s | t a cs IH] using Node_induction; intros here;
    [constructor |].
  rewrite remove_matching_element, descendants_element.
  generalize 0%nat. induction IH as [| c cs Hc _ IHcs]; intros i;
    [constructor |].
  rewrite kept_children_cons.
  destruct (matches sel c) eqn:Hm; [apply IHcs |].
  rewrite below_cons. apply Forall_app. split.
  - destruct (is_element (remove_matching sel c)); constructor; [| constructor].
    simpl. by rewrite matches_remove_matching.
  - apply Forall_app. split; [apply Hc | apply IHcs].
Qed.

(** Every element below the root of what [remove_matching] gives comes
    from an element below the root it was given, with the same tag and
    attributes. *)
Lemma remove_matching_from_original sel' n :
  forall here here' e',
    e' ∈ descendants here' (remove_matching sel' n) ->
    exists e, e ∈ descendants here n
              /\ forall sel, matches sel (snd e') = matches sel (snd e).
Proof.
  induction n as [s | t a cs IH] using Node_induction;
    intros here here' e'; [intros He; inversion He |].
  rewrite remove_matching_element, !descendants_element.
  generalize 0%nat at 1. generalize 0%nat.
  induction IH as [| c cs Hc _ IHcs]; intros i i';
    [intros He; inversion He |].
  rewrite kept_children_cons, below_cons.
  destruct (matches sel' c) eqn:Hm.
  - intros He. destruct (IHcs (S i) i' He) as (e & Hin & Hsame).
    exists e. split; [| exact Hsame].
    apply elem_of_app. right. apply elem_of_app. by right.
  - rewrite below_cons. intros He.
    apply elem_of_app in He as [He | He].
    + rewrite is_element_remove_matching in He.
      destruct (is_element c); [| inversion He].
      apply list_elem_of_singleton in He. subst e'.
      exists (i :: here, c). split; [apply elem_of_app; left; by left |].
      intros sel. simpl. apply matches_remove_matching.
    + apply elem_of_app in He as [He | He].
      * destruct (Hc (i :: here) _ _ He) as (e & Hin & Hsame).
        exists e. split; [| exact Hsame].
        apply elem_of_app. right. apply elem_of_app. by left.
      * destruct (IHcs (S i) _ He) as (e & Hin & Hsame).
        exists e. split; [| exact Hsame].
        apply elem_of_app. right. apply elem_of_app. by right.
Qed.

Lemma remove_matching_keeps_none sel sel' n here here' :
  Forall (fun e => matches sel (snd e) = false) (descendants here n) ->
  Forall (fun e => matches sel (snd e) = false)
         (descendants here' (remove_matching sel' n)).
Proof.
  intros Hnone. apply Forall_forall. intros e' He'.
  destruct (remove_matching_from_original sel' n here here' e' He')
    as (e & Hin & Hsame).
  rewrite Hsame. rewrite Forall_forall in Hnone. by apply Hnone.
Qed.

Lemma remove_all_none_left sels n here :
  Forall (fun sel =>
            Forall (fun e => matches sel (snd e) = false)
                   (descendants here (remove_all sels n))) sels.
Proof.
  unfold remove_all. revert n.
  induction sels as [| sel sels IH]; intros n; [constructor |].
  simpl. constructor; [| apply IH].
  assert (Hfold : forall l m,
            Forall (fun e => matches sel (snd e) = false) (descendants here m) ->
            Forall (fun e => matches sel (snd e) = false)
                   (descendants here
                      (fold_left (fun acc s => remove_matching s acc) l m))).
  { clear. induction l as [| s l IHl]; intros m Hm; [exact Hm |].
    simpl. apply IHl. by apply remove_matching_keeps_none with (here := here). }
  apply Hfold. apply remove_matching_none_left.
Qed.
End RemovalRules.

Section TextOutside.
Import Removal.

Lemma text_outside_element sels t a cs :
  text_outside sels (Element t a cs) = texts_outside sels cs.
Proof. reflexivity. Qed.

Lemma texts_outside_cons sels c l :
  texts_outside sels (c :: l)
  = ((if matches_any sels c then "" else text_outside sels c)
     ++ texts_outside sels l)%string.
Proof. reflexivity. Qed.

Lemma textContent_element t a cs :
  textContent (Element t a cs) = texts cs.
Proof. reflexivity. Qed.

Lemma texts_cons c l : texts (c :: l) = (textContent c ++ texts l)%string.
Proof. reflexivity. Qed.

Lemma matches_any_remove_matching sels sel n :
  matches_any sels (remove_matching sel n) = matches_any sels n.
Proof.
  unfold matches_any. induction sels as [| s sels IH]; simpl; [reflexivity |].
  by rewrite matches_remove_matching, IH.
Qed.

Lemma matches_any_text sels s : matches_any sels (Text s) = false.
Proof.
  unfold matches_any. induction sels as [| sel sels IH]; simpl; [reflexivity |].
  rewrite IH. destruct sel; reflexivity.
Qed.

(** Removing the matches of one selector, then reading the text
    outside the matches of others, is reading the text outside the
    matches of all of them. *)
Lemma text_outside_remove_matching sel sels n :
  text_outside sels (remove_matching sel n) = text_outside (sel :: sels) n.
Proof.
  induction n as [s | t a cs IH] using Node_induction; [reflexivity |].
  rewrite remove_matching_element, !text_outside_element.
  induction IH as [| c l Hc _ IHl]; [reflexivity |].
  rewrite kept_children_cons, (texts_outside_cons (sel :: sels)).
  change (matches_any (sel :: sels) c) with (matches sel c || matches_any sels c).
  destruct (matches sel c).
  - rewrite orb_true_l. exact IHl.
  - rewrite orb_false_l, texts_outside_cons, matches_any_remove_matching, Hc, IHl.
    reflexivity.
Qed.

Lemma text_outside_nil n : text_outside [] n = textContent n.
Proof.
  induction n as [s | t a cs IH] using Node_induction; [reflexivity |].
  rewrite text_outside_element, textContent_element.
  induction IH as [| c l Hc _ IHl]; [reflexivity |].
  rewrite texts_outside_cons, texts_cons, Hc, IHl. reflexivity.
Qed.

Lemma text_outside_remove_all sels others n :
  text_outside others (remove_all sels n) = text_outside (sels ++ others) n.
Proof.
  unfold remove_all. revert n.
  induction sels as [| sel sels IH]; intros n; simpl; [reflexivity |].
  rewrite IH. apply text_outside_remove_matching.
Qed.

(** The text left by the removals is the text outside the elements
    that match one of the selectors. *)
Lemma remove_all_text sels n :
  textContent (remove_all sels n) = text_outside sels n.
Proof.
  rewrite <- text_outside_nil, text_outside_remove_all, app_nil_r. reflexivity.
Qed.

Lemma matches_any_false sels n :
  matches_any sels n = false <-> Forall (fun sel => matches sel n = false) sels.
Proof.
  unfold matches_any. induction sels as [| sel sels IH]; simpl.
  - split; [constructor | reflexivity].
  - rewrite orb_false_iff, IH, Forall_cons. reflexivity.
Qed.

(** Where no element below matches, nothing is left out. *)
Lemma text_outside_free sels n here :
  Forall (fun e => matches_any sels (snd e) = false) (descendants here n) ->
  text_outside sels n = textContent n.
Proof.
  revert here.
  induction n as [s | t a cs IH] using Node_induction; intros here;
    [reflexivity |].
  rewrite descendants_element, text_outside_element, textContent_element.
  generalize 0%nat.
  induction IH as [| c l Hc _ IHl]; intros i Hfree; [reflexivity |].
  rewrite below_cons in Hfree.
  apply Forall_app in Hfree as [Hhere Hfree].
  apply Forall_app in Hfree as [Hbelow Hrest].
  rewrite texts_outside_cons, texts_cons, (IHl _ Hrest), (Hc _ Hbelow).
  destruct c as [s | t' a' cs']; [by rewrite matches_any_text |].
  simpl in Hhere. apply Forall_cons in Hhere as [Hm _]. simpl in Hm.
  by rewrite Hm.
Qed.

Lemma free_of_matches_any sels n :
  free_of sels n ->
  Forall (fun e => matches_any sels (snd e) = false) (descendants [] n).
Proof.
  unfold free_of. intros Hfree. apply Forall_forall. intros e He.
  apply matches_any_false. eapply Forall_impl; [exact Hfree |].
  intros sel Hsel. simpl in Hsel. rewrite Forall_forall in Hsel. by apply Hsel.
Qed.

(** The text [ContentExtractor.extractMainContent] reads from the copy
    of the content element. *)
Lemma class_extractor_text el :
  textContent
    (remove_matching
       (AnyOf [ByTag "script"; ByTag "style"; ByTag "iframe"; ByTag "noscript"])
       (remove_all ContentExtractor.elementsToIgnore el))
  = text_outside ignored el.
Proof.
  rewrite <- text_outside_nil, text_outside_remove_matching,
    text_outside_remove_all. reflexivity.
Qed.

Lemma class_extractor_result d el :
  ContentExtractor.contentElement d = Some el ->
  ContentExtractor.extractMainContent_in_page d
  = Return (ContentExtractor.cleanUp (text_outside ignored el)).
Proof.
  intros Hel. unfold ContentExtractor.extractMainContent_in_page.
  rewrite Hel, class_extractor_text. reflexivity.
Qed.
End TextOutside.

Section MainContent.





Lemma firstLongMatch_spec (d : Document) (selectors : list Selector) text :
  UtilsExtractor.firstLongMatch d selectors = Some text ->
  exists before selector after el,
    selectors = before ++ selector :: after
    /\ querySelector d selector = Some el
    /\ text = trim (textContent (snd el))
    /\ (100 < String.length text)%nat
    /\ forall s, s ∈ before -> too_short d s.
Proof.
  unfold too_short.
  induction selectors as [| selector rest IH]; simpl; [discriminate |].
  assert (Hnext : UtilsExtractor.firstLongMatch d rest = Some text ->
                  match querySelector d selector with
                  | Some x => (String.length (trim (textContent (snd x))) <= 100)%nat
                  | None => True
                  end ->
                  exists before sel after el,
                    selector :: rest = before ++ sel :: after
                    /\ querySelector d sel = Some el
                    /\ text = trim (textContent (snd el))
                    /\ (100 < String.length text)%nat
                    /\ forall s, s ∈ before ->
                         match querySelector d s with
                         | Some x => (String.length (trim (textContent (snd x))) <= 100)%nat
                         | None => True
                         end).
  { intros Hrun Hsel.
    destruct (IH Hrun) as (before & sel & after & el & -> & Hq & Ht & Hl & Hb).
    exists (selector :: before), sel, after, el. split; [reflexivity |].
    do 3 (split; [assumption |]).
    intros s Hs. apply elem_of_cons in Hs as [-> | Hs];
      [exact Hsel | by apply Hb]. }
  destruct (querySelector d selector) as [[path element] |] eqn:Hq;
    [| intros Hrun; apply Hnext; [exact Hrun | try rewrite Hq; exact I]].
  simpl.
  destruct (String.eqb_spec (textContent element) "") as [He | He]; simpl.
  { intros Hrun. apply Hnext; [exact Hrun |]. try rewrite Hq. simpl.
    rewrite He. simpl. lia. }
  destruct (Nat.ltb_spec 100 (String.length (trim (textContent element))))
    as [Hlt | Hge].
  - intros [= <-]. exists [], selector, rest, (path, element).
    rewrite Hq. split; [reflexivity |]. split; [reflexivity |].
    split; [reflexivity |]. split; [exact Hlt |]. intros s Hs. inversion Hs.
  - intros Hrun. apply Hnext; [exact Hrun |]. try rewrite Hq. exact Hge.
Qed.
End MainContent.

Lemma replace_run_without_backslash x by_ s :
  has_backslash s = false -> replace_run x by_ s = s.
Proof.
  unfold replace_run.
  induction s as [| c r IH]; simpl; [reflexivity |].
  intros Hb. apply orb_false_iff in Hb as [Hc Hr].
  rewrite Hc. simpl. by rewrite IH.
Qed.



(** X3.  The clean-up of [ContentExtractor.extractMainContent] does not
    collapse white space: on a text without a backslash character its
    two replacements change nothing, and only the trimming of the ends
    remains. *)
Theorem cleanUp_only_trims (text : string) :
  (has_backslash text = false -> ContentExtractor.cleanUp text = trim text)
  /\ ContentExtractor.cleanUp "one   two" = "one   two".
Proof.
  split; [| vm_compute; reflexivity].
  intros Hb. unfold ContentExtractor.cleanUp.
  rewrite (replace_run_without_backslash "s" " " text Hb).
  rewrite (replace_run_without_backslash "n" _ text Hb). reflexivity.
Qed.

Section TrimRules.

Lemma string_app_assoc (s t u : string) :
  ((s ++ t) ++ u = s ++ (t ++ u))%string.
Proof.
  induction s as [| c s IH]; [reflexivity |].
  change (String c ((s ++ t) ++ u) = String c (s ++ (t ++ u)))%string.
  by rewrite IH.
Qed.

Lemma rev_app_append (s t u : string) :
  String.rev_app (s ++ t) u = String.rev_app t (String.rev_app s u).
Proof. revert u. induction s as [| c s IH]; intros u; simpl; [reflexivity | apply IH]. Qed.

Lemma rev_app_rev (s t : string) :
  String.rev_app s t = (String.rev s ++ t)%string.
Proof.
  unfold String.rev. revert t.
  induction s as [| c s IH]; intros t; simpl; [reflexivity |].
  rewrite (IH (String c "")), IH.
  rewrite string_app_assoc. reflexivity.
Qed.

Lemma rev_append (s t : string) :
  String.rev (s ++ t) = (String.rev t ++ String.rev s)%string.
Proof. unfold String.rev at 1. rewrite rev_app_append, rev_app_rev. reflexivity. Qed.

Lemma rev_rev (s : string) : String.rev (String.rev s) = s.
Proof.
  induction s as [| c s IH]; [reflexivity |].
  change (String.rev (String c s)) with (String.rev_app s (String c "")).
  rewrite rev_app_rev, rev_append, IH. reflexivity.
Qed.

Lemma trimStart_fixed (s : string) : trimStart (trimStart s) = trimStart s.
Proof.
  induction s as [| c s IH]; simpl; [reflexivity |].
  destruct (is_white_space c) eqn:Hc; [exact IH |]. simpl. rewrite Hc. reflexivity.
Qed.

Lemma trimStart_keeps_last (x : string) (c : ascii) :
  is_white_space c = false ->
  exists u, trimStart (x ++ String c "") = (u ++ String c "")%string.
Proof.
  intros Hc. induction x as [| a x IH]; simpl.
  - rewrite Hc. exists "". reflexivity.
  - destruct (is_white_space a); [exact IH |].
    exists (String a x). reflexivity.
Qed.

Lemma trimEnd_fixed (s : string) : trimEnd (trimEnd s) = trimEnd s.
Proof. unfold trimEnd. rewrite rev_rev, trimStart_fixed. reflexivity. Qed.

Lemma trimStart_trimEnd (t : string) :
  trimStart t = t -> trimStart (trimEnd t) = trimEnd t.
Proof.
  destruct t as [| c r]; [reflexivity |]. simpl.
  destruct (is_white_space c) eqn:Hc.
  - intros Heq. exfalso.
    assert (Hlen : (String.length (trimStart r) <= String.length r)%nat).
    { clear. induction r as [| a r IH]; simpl; [lia |].
      destruct (is_white_space a); simpl; lia. }
    rewrite Heq in Hlen. simpl in Hlen. lia.
  - intros _. unfold trimEnd.
    change (String.rev (String c r)) with (String.rev_app r (String c "")).
    rewrite rev_app_rev.
    destruct (trimStart_keeps_last (String.rev r) c Hc) as (u & ->).
    rewrite rev_append. simpl. rewrite Hc. reflexivity.
Qed.

(** [s.trim().trim() === s.trim()] *)
Lemma trim_fixed (s : string) : trim (trim s) = trim s.
Proof.
  unfold trim.
  rewrite (trimStart_trimEnd (trimStart s)) by apply trimStart_fixed.
  apply trimEnd_fixed.
Qed.
End TrimRules.

Section TrimmedRules.
Import Trimmed.

Lemma trimStart_first (s : string) c :
  first_char (trimStart s) = Some c -> is_white_space c = false.
Proof.
  induction s as [| a s IH]; simpl; [discriminate |].
  destruct (is_white_space a) eqn:Ha; [exact IH |].
  simpl. intros [= <-]. exact Ha.
Qed.

(** What [trim] returns neither starts nor ends with white space. *)
Lemma trim_no_white_space_at_ends (s : string) :
  no_white_space_at_ends (trim s).
Proof.
  split; intros c Hc.
  - apply (trimStart_first (trim s)).
    unfold trim at 1.
    rewrite (trimStart_trimEnd (trimStart s)) by apply trimStart_fixed.
    exact Hc.
  - unfold last_char, trim, trimEnd in Hc. rewrite rev_rev in Hc.
    eapply trimStart_first. exact Hc.
Qed.

Lemma trimmed_no_white_space_at_ends (s : string) :
  trim s = s -> no_white_space_at_ends s.
Proof. intros <-. apply trim_no_white_space_at_ends. Qed.
End TrimmedRules.

(** X7.  [extractMainContent] of [utils/content-extractor.ts] never
    returns an empty text: it returns the trimmed text of a selector
    match of more than 100 characters, or the trimmed text of the body
    without the excluded elements, or, when that is empty, the text
    "No content found".  What it returns is left as it is by [trim]:
    its first and its last character are no white space, the no-break
    space included.  The same holds for
    [ContentExtractor.extractMainContent], whose text can be empty.  A
    paragraph that reads "price" between two no-break spaces yields
    "price" with both. *)
Theorem extractMainContent_is_trimmed (d : Document) :
  (forall text,
      UtilsExtractor.extractMainContent_in_page d = Return text ->
      text <> "" /\ trim text = text /\ Trimmed.no_white_space_at_ends text)
  /\ (forall text,
        ContentExtractor.extractMainContent_in_page d = Return text ->
        trim text = text /\ Trimmed.no_white_space_at_ends text)
  /\ (forall path b,
        UtilsExtractor.firstLongMatch d UtilsExtractor.contentSelectors = None ->
        body d = Some (path, b) ->
        whitespace_only
          (textContent (remove_all UtilsExtractor.excludeSelectors b)) = true ->
        UtilsExtractor.extractMainContent_in_page d = Return "No content found")
  /\ UtilsExtractor.extractMainContent_in_page
       (snd (StaticWeb.page "https://a.example" "/" "A"
               [Element "nav" [] [Text "Home About"]]))
     = Return "No content found"
  /\ textContent (documentElement (snd MorePages.price_page))
     = String nbsp ("price" ++ String nbsp "")
  /\ UtilsExtractor.extractMainContent_in_page (snd MorePages.price_page)
     = Return "price"
  /\ ContentExtractor.extractMainContent_in_page (snd MorePages.price_page)
     = Return "price".
Proof.
  assert (Hutils : forall text,
    UtilsExtractor.extractMainContent_in_page d = Return text ->
    text <> "" /\ trim text = text).
  { intros text. unfold UtilsExtractor.extractMainContent_in_page.
    destruct (UtilsExtractor.firstLongMatch d UtilsExtractor.contentSelectors)
      as [found |] eqn:Hfound.
    - intros [= <-].
      apply firstLongMatch_spec in Hfound
        as (before & selector & after & el & _ & _ & -> & Hlen & _).
      split; [| apply trim_fixed].
      intros Hempty. rewrite Hempty in Hlen. simpl in Hlen. lia.
    - destruct (body d) as [[path b] |]; [| discriminate].
      destruct (String.eqb_spec
                  (trim (textContent
                           (remove_all UtilsExtractor.excludeSelectors b))) "")
        as [Hempty | Hfull]; intros [= <-].
      + split; [discriminate | reflexivity].
      + split; [exact Hfull | apply trim_fixed]. }
  split.
  { intros text Hrun. destruct (Hutils text Hrun) as [Hne Htrim].
    split; [exact Hne |]. split; [exact Htrim |].
    by apply trimmed_no_white_space_at_ends. }
  split.
  { intros text. unfold ContentExtractor.extractMainContent_in_page.
    destruct (ContentExtractor.contentElement d); [| discriminate].
    intros [= <-]. unfold ContentExtractor.cleanUp.
    split; [apply trim_fixed | apply trim_no_white_space_at_ends]. }
  split.
  { intros path b Hnone Hbody Hblank.
    unfold UtilsExtractor.extractMainContent_in_page. rewrite Hnone, Hbody.
    unfold whitespace_only in Hblank. apply String.eqb_eq in Hblank.
    unfold trim. rewrite Hblank. reflexivity. }
  repeat split; vm_compute; reflexivity.
Qed.

(** X19.  The text the extractors read after their removals is the
    text of the element outside the elements that match one of the
    removed selectors: the text of its descendants in document order,
    without every element below it that matches and all that is inside
    such an element, whatever the order of the removals; no element
    that matches is left below the root, and where none matched
    nothing is left out.  So [ContentExtractor.extractMainContent]
    returns the cleaned text of the content element outside the nav,
    header, footer and aside elements, the elements of the classes
    sidebar, menu, navigation, ads, advertisement, related and
    comments, and the script, style, iframe and noscript elements it
    holds; and when [extractMainContent] of
    [utils/content-extractor.ts] falls back to the body, it returns the
    trimmed text of the body outside the elements it excludes.  A body
    that reads "MENU body text", of which "MENU " is in an element of
    class menu, yields "body text" with both. *)
Theorem ignored_elements_are_removed (d : Document) :
  (forall sels n,
      textContent (remove_all sels n) = Removal.text_outside sels n
      /\ forall here,
           Forall (fun sel =>
                     Forall (fun e => matches sel (snd e) = false)
                            (descendants here (remove_all sels n))) sels)
  /\ (forall sels n,
        Removal.free_of sels n -> Removal.text_outside sels n = textContent n)
  /\ match ContentExtractor.contentElement d with
     | Some el =>
         ContentExtractor.extractMainContent_in_page d
         = Return (ContentExtractor.cleanUp
                     (Removal.text_outside Removal.ignored el))
     | None => True
     end
  /\ match UtilsExtractor.firstLongMatch d UtilsExtractor.contentSelectors,
           body d with
     | None, Some (_, b) =>
         UtilsExtractor.extractMainContent_in_page d
         = Return
             (let text :=
                trim (Removal.text_outside UtilsExtractor.excludeSelectors b) in
              if String.eqb text "" then "No content found" else text)
     | _, _ => True
     end
  /\ textContent (documentElement (snd MorePages.menu_page)) = "MENU body text"
  /\ ContentExtractor.extractMainContent_in_page (snd MorePages.menu_page)
     = Return "body text"
  /\ UtilsExtractor.extractMainContent_in_page (snd MorePages.menu_page)
     = Return "body text".
Proof.
  split.
  { intros sels n. split; [apply remove_all_text |].
    intros here. apply remove_all_none_left. }
  split.
  { intros sels n Hfree. eapply text_outside_free.
    apply free_of_matches_any. exact Hfree. }
  split.
  { destruct (ContentExtractor.contentElement d) as [el |] eqn:Hel; [| exact I].
    by apply class_extractor_result. }
  split.
  { unfold UtilsExtractor.extractMainContent_in_page.
    destruct (UtilsExtractor.firstLongMatch d UtilsExtractor.contentSelectors);
      [exact I |].
    destruct (body d) as [[path b] |]; [| exact I].
    rewrite remove_all_text. reflexivity. }
  split; [| split]; vm_compute; reflexivity.
Qed.

Section DensityRules.
Import Density.

Lemma countAncestors_chain body current acc :
  ContentExtractor.countAncestors body current acc
  = counting (chain body current) acc.
Proof.
  revert acc. induction current as [| i parent IH]; intros acc; simpl;
    repeat case_bool_decide; try reflexivity; try contradiction.
  simpl. apply IH.
Qed.

Lemma counted_visits (d : Document) : counted d = counting (visits d) [].
Proof.
  unfold counted, visits.
  generalize (@nil (Path * nat)).
  induction (querySelectorAll d (ByTag "p")) as [| p ps IH]; intros acc;
    [reflexivity |].
  simpl. rewrite IH, countAncestors_chain. unfold counting.
  by rewrite fold_left_app.
Qed.

Lemma count_of_increment key k m :
  count_of key (ContentExtractor.increment k m)
  = (count_of key m + if bool_decide (k = key) then 1 else 0)%nat.
Proof.
  unfold count_of. induction m as [| [k' c] m IH]; simpl.
  - destruct (decide (k = key)) as [Hk | Hk].
    + rewrite !bool_decide_eq_true_2 by exact Hk. reflexivity.
    + rewrite !bool_decide_eq_false_2 by exact Hk. reflexivity.
  - destruct (decide (k' = k)) as [Hk' | Hk'].
    + subst k'. rewrite (bool_decide_eq_true_2 (k = k)) by reflexivity. simpl.
      destruct (decide (k = key)) as [Hk | Hk].
      * rewrite !bool_decide_eq_true_2 by exact Hk. simpl. lia.
      * rewrite !bool_decide_eq_false_2 by exact Hk. simpl. lia.
    + rewrite (bool_decide_eq_false_2 (k' = k)) by exact Hk'. simpl.
      destruct (decide (k' = key)) as [Hkey | Hkey].
      * rewrite (bool_decide_eq_true_2 (k' = key)) by exact Hkey. simpl.
        rewrite bool_decide_eq_false_2 by congruence. lia.
      * rewrite (bool_decide_eq_false_2 (k' = key)) by exact Hkey. exact IH.
Qed.

Lemma count_of_counting key visited m :
  count_of key (counting visited m)
  = (count_of key m
     + length (List.filter (fun v => bool_decide (v = key)) visited))%nat.
Proof.
  unfold counting. revert m.
  induction visited as [| k visited IH]; intros m; simpl; [lia |].
  rewrite IH, count_of_increment.
  case_bool_decide; simpl; lia.
Qed.

Lemma increment_keys k m :
  map fst (ContentExtractor.increment k m)
  = map fst m ++ (if bool_decide (k ∈ map fst m) then [] else [k]).
Proof.
  induction m as [| [k' c] m IH]; simpl; [reflexivity |].
  destruct (decide (k' = k)) as [Hk | Hk].
  - subst k'. rewrite (bool_decide_eq_true_2 (k = k)) by reflexivity.
    rewrite bool_decide_eq_true_2 by (by left). simpl.
    by rewrite app_nil_r.
  - rewrite (bool_decide_eq_false_2 (k' = k)) by exact Hk. simpl.
    rewrite IH. f_equal. f_equal.
    destruct (decide (k ∈ map fst m)) as [Hin | Hin].
    + rewrite !bool_decide_eq_true_2; [reflexivity | by right | exact Hin].
    + rewrite !bool_decide_eq_false_2; [reflexivity | | exact Hin].
      intros Hin'. apply elem_of_cons in Hin' as [Heq | Hin'];
        [by apply Hk | by apply Hin].
Qed.

Lemma increment_well_counted k m :
  well_counted m -> well_counted (ContentExtractor.increment k m).
Proof.
  intros [Hnd Hpos]. split.
  - rewrite increment_keys.
    destruct (decide (k ∈ map fst m)) as [Hin | Hin].
    + rewrite bool_decide_eq_true_2 by exact Hin. by rewrite app_nil_r.
    + rewrite bool_decide_eq_false_2 by exact Hin.
      apply NoDup_app. split; [exact Hnd |].
      split; [| apply NoDup_singleton].
      intros x Hx Hx'. apply list_elem_of_singleton in Hx'. by subst x.
  - clear Hnd. induction m as [| [k' c] m IH]; simpl.
    + repeat constructor.
    + inversion Hpos as [| ? ? Hc Hm]; subst.
      destruct (bool_decide (k' = k)).
      * constructor; [simpl; lia | exact Hm].
      * constructor; [exact Hc | by apply IH].
Qed.

Lemma counting_well_counted visited m :
  well_counted m -> well_counted (counting visited m).
Proof.
  unfold counting. revert m.
  induction visited as [| k visited IH]; intros m Hm; [exact Hm |].
  simpl. apply IH. by apply increment_well_counted.
Qed.

Lemma count_of_entry k c m :
  NoDup (map fst m) -> In (k, c) m -> count_of k m = c.
Proof.
  unfold count_of. induction m as [| [k' c'] m IH]; simpl; [intros _ [] |].
  intros Hnd Hin. apply NoDup_cons in Hnd as [Hnotin Hnd].
  case_bool_decide; simpl.
  - subst k'. destruct Hin as [[= <-] | Hin]; [reflexivity |].
    exfalso. apply Hnotin. apply list_elem_of_In.
    change k with (fst (k, c)). by apply in_map.
  - destruct Hin as [[= <- <-] | Hin]; [contradiction | by apply IH].
Qed.

Lemma count_of_missing k m :
  ~ In k (map fst m) -> count_of k m = 0%nat.
Proof.
  unfold count_of. induction m as [| [k' c'] m IH]; simpl; [reflexivity |].
  intros Hnotin. case_bool_decide; [exfalso; apply Hnotin; by left |].
  apply IH. intros Hin. apply Hnotin. by right.
Qed.

Lemma bestAncestor_fold (entries seen : list (Path * nat)) (m : nat)
      (best : option Path) :
  (forall e, In e seen -> (snd e <= m)%nat) ->
  match best with
  | Some b => In (b, m) seen /\ (0 < m)%nat
  | None => m = 0%nat
  end ->
  let r := fold_left
             (fun (acc : nat * option Path) entry =>
                let '(maxCount, best) := acc in
                if (maxCount <? snd entry)%nat
                then (snd entry, Some (fst entry))
                else (maxCount, best))
             entries (m, best) in
  (forall e, In e (seen ++ entries) -> (snd e <= fst r)%nat)
  /\ match snd r with
     | Some b => In (b, fst r) (seen ++ entries) /\ (0 < fst r)%nat
     | None => fst r = 0%nat
     end.
Proof.
  revert seen m best.
  induction entries as [| [k c] rest IH]; intros seen m best Hseen Hbest; simpl.
  - rewrite app_nil_r. split; [exact Hseen | exact Hbest].
  - replace (seen ++ (k, c) :: rest) with ((seen ++ [(k, c)]) ++ rest)
      by (rewrite <- app_assoc; reflexivity).
    destruct (Nat.ltb_spec m c) as [Hlt | Hge]; apply IH.
    + intros e He. apply in_app_iff in He as [He | [<- | []]].
      * specialize (Hseen e He). lia.
      * simpl. lia.
    + split; [apply in_app_iff; right; by left | lia].
    + intros e He. apply in_app_iff in He as [He | [<- | []]].
      * by apply Hseen.
      * simpl. lia.
    + destruct best as [b |]; [| exact Hbest].
      destruct Hbest as [Hb Hm]. split; [apply in_app_iff; by left | exact Hm].
Qed.

Lemma bestAncestor_spec (m : list (Path * nat)) :
  match ContentExtractor.bestAncestor m with
  | Some k => exists c, In (k, c) m /\ (0 < c)%nat
                        /\ forall e, In e m -> (snd e <= c)%nat
  | None => forall e, In e m -> snd e = 0%nat
  end.
Proof.
  unfold ContentExtractor.bestAncestor.
  pose proof (bestAncestor_fold m [] 0 None) as Hfold. simpl in Hfold.
  destruct Hfold as [Hmax Hbest]; [intros e [] | reflexivity |].
  destruct (fold_left _ m (0%nat, None)) as [c [k |]]; simpl in *.
  - destruct Hbest as [Hin Hpos]. exists c. auto.
  - intros e He. specialize (Hmax e He). lia.
Qed.

Lemma density_counts (d : Document) key :
  count_of key (counted d) = paragraphs_at_or_below d key.
Proof.
  rewrite counted_visits, count_of_counting. reflexivity.
Qed.

Lemma density_choice (d : Document) :
  match ContentExtractor.bestAncestor (counted d) with
  | Some k =>
      (0 < paragraphs_at_or_below d k)%nat
      /\ forall q, (paragraphs_at_or_below d q
                    <= paragraphs_at_or_below d k)%nat
  | None => visits d = []
  end.
Proof.
  pose proof (bestAncestor_spec (counted d)) as Hbest.
  assert (Hwell : well_counted (counted d)).
  { rewrite counted_visits. apply counting_well_counted.
    split; constructor. }
  destruct Hwell as [Hnd Hpos].
  destruct (ContentExtractor.bestAncestor (counted d)) as [k |].
  - destruct Hbest as (c & Hin & Hc & Hmax).
    rewrite <- !density_counts, (count_of_entry k c _ Hnd Hin).
    split; [exact Hc |]. intros q. rewrite <- density_counts.
    destruct (decide (q ∈ map fst (counted d))) as [Hq | Hq];
      rewrite list_elem_of_In in Hq.
    + apply in_map_iff in Hq as ([q' c'] & Heq & Hq). simpl in Heq. subst q'.
      rewrite (count_of_entry q c' _ Hnd Hq). apply (Hmax _ Hq).
    + rewrite count_of_missing by exact Hq. lia.
  - destruct (visits d) as [| v vs] eqn:Hv; [reflexivity |]. exfalso.
    assert (Hcount : (0 < count_of v (counted d))%nat).
    { rewrite density_counts. unfold paragraphs_at_or_below. rewrite Hv.
      simpl. rewrite bool_decide_eq_true_2 by reflexivity. simpl. lia. }
    destruct (decide (v ∈ map fst (counted d))) as [Hq | Hq];
      rewrite list_elem_of_In in Hq.
    + apply in_map_iff in Hq as ([q' c'] & Heq & Hq). simpl in Heq. subst q'.
      rewrite (count_of_entry v c' _ Hnd Hq) in Hcount.
      specialize (Hbest _ Hq). simpl in Hbest. lia.
    + rewrite count_of_missing in Hcount by exact Hq. lia.
Qed.
End DensityRules.

(** X20.  The density analysis of [ContentExtractor.extractMainContent]
    selects an element with the greatest number of paragraphs at or
    below it, among the elements on the way from a paragraph up to the
    body, the body left out; it selects nothing only when the document
    has no paragraph to count.  Among elements with the same number the
    first one counted wins, and a paragraph is counted before its
    ancestors: when no two paragraphs have a common ancestor below the
    body, the content is the first paragraph alone. *)
Theorem density_analysis_picks_most_paragraphs (d : Document) :
  match ContentExtractor.bestAncestor (Density.counted d) with
  | Some path =>
      ContentExtractor.densityAnalysis d = node_at d path
      /\ (0 < Density.paragraphs_at_or_below d path)%nat
      /\ forall q, (Density.paragraphs_at_or_below d q
                    <= Density.paragraphs_at_or_below d path)%nat
  | None =>
      ContentExtractor.densityAnalysis d = None /\ Density.visits d = []
  end
  /\ ContentExtractor.extractMainContent_in_page
       (snd MorePages.two_paragraphs_page) = Return "First paragraph."
  /\ ContentExtractor.extractMainContent_in_page
       (snd MorePages.three_paragraphs_page) = Return "One.Two.".
Proof.
  split; [| split; vm_compute; reflexivity].
  pose proof (density_choice d) as Hchoice.
  unfold ContentExtractor.densityAnalysis.
  change (fold_left _ (querySelectorAll d (ByTag "p")) [])
    with (Density.counted d).
  destruct (ContentExtractor.bestAncestor (Density.counted d)) as [path |].
  - destruct Hchoice as [Hpos Hmax]. auto.
  - auto.
Qed.

Section LinkOrder.
Context `{UrlParser}.
Import DocumentOrder.

Lemma class_collectLinks_order (d : Document) anchorElements links seen out :
  ContentExtractor.collectLinks d anchorElements links seen = Return out ->
  exists kept added,
    out = links ++ added
    /\ kept `sublist_of` anchorElements
    /\ Forall2 (from_anchor d) kept added.
Proof.
  revert links seen.
  induction anchorElements as [| anchor rest IH]; intros links seen; simpl.
  - intros [= <-]. exists [], []. rewrite app_nil_r.
    split; [reflexivity |]. split; constructor.
  - intros Hrun.
    assert (Hskip : forall links' seen',
              ContentExtractor.collectLinks d rest links' seen' = Return out ->
              links' = links ->
              exists kept added,
                out = links ++ added
                /\ kept `sublist_of` anchor :: rest
                /\ Forall2 (from_anchor d) kept added).
    { intros links' seen' Hrest ->.
      destruct (IH _ _ Hrest) as (kept & added & -> & Hsub & Hall).
      exists kept, added. split; [reflexivity |].
      split; [by apply sublist_cons | exact Hall]. }
    destruct (getAttribute anchor "href") as [href |] eqn:Hhref; [| eauto].
    destruct (String.eqb href ""); [eauto |].
    destruct (URL_href href (location_href d)) as [url_ |] eqn:Hurl;
      [| discriminate].
    destruct (negb (startsWith url_ "http") || bool_decide (url_ ∈ seen));
      [eauto |].
    destruct (ContentExtractor.notContentPage url_); [eauto |].
    destruct (1 <? String.length _)%nat; [| eauto].
    destruct (IH _ _ Hrun) as (kept & added & -> & Hsub & Hall).
    exists (anchor :: kept). eexists.
    split; [rewrite <- app_assoc; reflexivity |].
    split; [by apply sublist_skip |].
    simpl. constructor; [| exact Hall]. exists href. simpl. auto.
Qed.

Lemma utils_collectLinks_order (d : Document) anchorElements links out :
  UtilsExtractor.collectLinks d anchorElements links = Return out ->
  exists kept added,
    out = links ++ added
    /\ kept `sublist_of` anchorElements
    /\ Forall2 (from_anchor d) kept added.
Proof.
  revert links.
  induction anchorElements as [| anchor rest IH]; intros links; simpl.
  - intros [= <-]. exists [], []. rewrite app_nil_r.
    split; [reflexivity |]. split; constructor.
  - intros Hrun.
    assert (Hskip : forall links',
              UtilsExtractor.collectLinks d rest links' = Return out ->
              links' = links ->
              exists kept added,
                out = links ++ added
                /\ kept `sublist_of` anchor :: rest
                /\ Forall2 (from_anchor d) kept added).
    { intros links' Hrest ->.
      destruct (IH _ Hrest) as (kept & added & -> & Hsub & Hall).
      exists kept, added. split; [reflexivity |].
      split; [by apply sublist_cons | exact Hall]. }
    destruct (getAttribute anchor "href") as [href |] eqn:Hhref; [| eauto].
    destruct (String.eqb href "" || _ || _ || _ || _); [eauto |].
    destruct (URL_href href (location_href d)) as [url_ |] eqn:Hurl;
      [| discriminate].
    destruct (negb _ && startsWith url_ (location_origin d)); [| eauto].
    destruct (IH _ Hrun) as (kept & added & -> & Hsub & Hall).
    exists (anchor :: kept). eexists.
    split; [rewrite <- app_assoc; reflexivity |].
    split; [by apply sublist_skip |].
    simpl. constructor; [| exact Hall]. exists href. simpl. auto.
Qed.
End LinkOrder.

(** X16.  Both extractors return their links in the order of the
    document: the links are made, one each, from anchors that follow
    one another in the document.  So the ten links
    [ContentExtractor.extractLinks] returns are the first ten it keeps
    in document order, and the traversal queues the links of a page in
    the order of the document. *)
Theorem extractLinks_in_document_order {parser : UrlParser} (d : Document) :
  (forall links,
      ContentExtractor.extractLinks_in_page d = Return links ->
      DocumentOrder.in_document_order d links
      /\ exists all,
           ContentExtractor.collectLinks d (anchors d) [] ∅ = Return all
           /\ links = firstn 10 all
           /\ DocumentOrder.in_document_order d all)
  /\ (forall links,
        UtilsExtractor.extractLinks_in_page d = Return links ->
        DocumentOrder.in_document_order d links).
Proof.
  split.
  - intros links. unfold ContentExtractor.extractLinks_in_page.
    fold (anchors d).
    destruct (ContentExtractor.collectLinks d (anchors d) [] ∅)
      as [all | e] eqn:Hrun; [| discriminate].
    intros [= <-].
    apply class_collectLinks_order in Hrun as (kept & added & -> & Hsub & Hall).
    simpl. split.
    + exists (take 10 kept). split.
      * etrans; [apply sublist_take | exact Hsub].
      * by apply Forall2_take.
    + exists added. split; [reflexivity |]. split; [reflexivity |].
      exists kept. auto.
  - intros links Hrun. unfold UtilsExtractor.extractLinks_in_page in Hrun.
    fold (anchors d) in Hrun.
    apply utils_collectLinks_order in Hrun as (kept & added & -> & Hsub & Hall).
    exists kept. auto.
Qed.

(* ------------------------------------------------------------------ *)
(** ** The handler of the tool                                         *)
(* ------------------------------------------------------------------ *)

Section HandlerRules.
Context {W : Type} `{Puppeteer W} `{UrlParser} `{Http.Fetch W BraveSearch.Data}.

(** A search leaves the trace of the rendering session as it was. *)
Lemma searchWithBrave_trace apiKey params (s s' : Session W) c :
  BraveSearch.searchWithBrave apiKey params s = (s', c) -> trace s' = trace s.
Proof.
  unfold BraveSearch.searchWithBrave, Http.fetch, Http.response_json.
  intros Hrun. invert_async; subst; simpl in *; rewrite ?app_nil_r; try reflexivity.
  all: destruct (negb _); invert_async; subst; simpl; rewrite ?app_nil_r; reflexivity.
Qed.
End HandlerRules.

Section HandlerAnswers.
Context {W : Type} `{Puppeteer W} `{UrlParser} `{Http.Fetch W BraveSearch.Data}.
Import DeepSearchHandler.

Lemma handler_cases apiKey params (s : Session W) :
  match initialSearch apiKey params s with
  | (s1, Throw e) =>
      handler apiKey params s
      = (s1, Return (text_result true
                       ("Error performing deep search: " ++ error_text e)))
  | (s1, Return response) =>
      if (length (BraveSearch.results response) =? 0)%nat
      then handler apiKey params s
           = (s1, Return (text_result false
                            ("No search results found for query: "
                             ++ quote ++ DeepSearchTool.query params ++ quote)))
      else
        let t := traverse (map BraveSearch.url (BraveSearch.results response))
                   (DeepSearchTool.deepSearchOptions params) s1 in
        handler apiKey params s
        = (session t,
           Return (text_result false
                     (summary (DeepSearchTool.query params)
                        (DeepSearchTool.maxDepth params) (results t))))
  end.
Proof.
  unfold handler, try_catch, bind.
  destruct (initialSearch apiKey params s) as [s1 [response | e]];
    [| reflexivity].
  destruct (length (BraveSearch.results response) =? 0)%nat; reflexivity.
Qed.
End HandlerAnswers.

Section HandlerBudget.
Context {W : Type} `{Puppeteer W} `{UrlParser} `{Http.Fetch W BraveSearch.Data}.
Import DeepSearchHandler.

Lemma handler_options_in_force params :
  or_default (depth (DeepSearchTool.deepSearchOptions params)) 1
  = DeepSearchTool.maxDepth params
  /\ or_default (maxPages (DeepSearchTool.deepSearchOptions params)) 5
     = (DeepSearchTool.maxResults params * DeepSearchTool.maxDepth params)%Z
  /\ (1 <= DeepSearchTool.maxResults params * DeepSearchTool.maxDepth params <= 30)%Z.
Proof.
  assert (Hr : (1 <= DeepSearchTool.maxResults params <= 10)%Z)
    by (unfold DeepSearchTool.maxResults; lia).
  assert (Hd : (1 <= DeepSearchTool.maxDepth params <= 3)%Z)
    by (unfold DeepSearchTool.maxDepth; lia).
  unfold DeepSearchTool.deepSearchOptions, or_default. simpl.
  destruct (Z.eqb_spec (DeepSearchTool.maxDepth params) 0) as [Hz | _]; [lia |].
  destruct (Z.eqb_spec (DeepSearchTool.maxResults params
                        * DeepSearchTool.maxDepth params) 0) as [Hz | _];
    [nia |].
  split; [reflexivity |]. split; [reflexivity |]. nia.
Qed.

Lemma handler_request apiKey params :
  Http.searchParams
    (BraveSearch.request apiKey
       {| BraveSearch.q := DeepSearchTool.query params;
          BraveSearch.count := Some (DeepSearchTool.maxResults params);
          BraveSearch.offset := None |})
  = [("q", DeepSearchTool.query params);
     ("count", Number_toString (DeepSearchTool.maxResults params))].
Proof.
  assert (Hr : (1 <= DeepSearchTool.maxResults params <= 10)%Z)
    by (unfold DeepSearchTool.maxResults; lia).
  unfold BraveSearch.request, BraveSearch.appended. simpl.
  destruct (Z.eqb_spec (DeepSearchTool.maxResults params) 0); [lia |].
  reflexivity.
Qed.
End HandlerBudget.

(** X8.  The handler of the tool throws exactly when the conversion of
    one of its arguments to a string throws: [String(results)],
    [String(depth)] and the conversion of [query] are made before the
    [try], and what the first of them throws leaves the handler, before
    any search and any use of the browser.  In every other case the
    handler answers, whatever the network and the browser do, and its
    answer holds exactly one text.  The answer is an error exactly when
    the search request failed, and then its text is "Error performing
    deep search: " followed by the message of the failure; when the
    search succeeded with no result the text says so.  In both cases
    the browser was not used.  The request handler of the server
    answers a call for any other tool with an error, without a search
    and without the browser, and otherwise calls the handler, with an
    empty object when the request has no arguments: then every
    conversion returns. *)
Theorem handler_answers_unless_conversion_throws
  {W : Type} `{Puppeteer W} `{UrlParser} `{Http.Fetch W BraveSearch.Data}
  (apiKey : string) (arguments : DeepSearchHandler.Arguments) (s : Session W) :
  let run := DeepSearchHandler.deepSearchTool_handler apiKey arguments s in
  match DeepSearchHandler.converted arguments with
  | Throw thrown => run = (s, Throw thrown)
  | Return params =>
      (exists s' isError text,
          run = (s', Return (DeepSearchHandler.text_result isError text))
          /\ (isError = true <->
              throws (snd (DeepSearchHandler.initialSearch apiKey params s))
              = true))
      /\ match DeepSearchHandler.initialSearch apiKey params s with
         | (s1, Throw e) =>
             run = (s1, Return (DeepSearchHandler.text_result true
                                  ("Error performing deep search: "
                                   ++ error_text e)))
             /\ trace s1 = trace s
         | (s1, Return response) =>
             BraveSearch.results response = [] ->
             run = (s1, Return (DeepSearchHandler.text_result false
                                  ("No search results found for query: "
                                   ++ DeepSearchHandler.quote
                                   ++ DeepSearchTool.query params
                                   ++ DeepSearchHandler.quote)))
             /\ trace s1 = trace s
         end
  end
  /\ throws (snd run) = throws (DeepSearchHandler.converted arguments)
  /\ throws (DeepSearchHandler.converted arguments)
     = DeepSearchHandler.unconvertible
         (DeepSearchHandler.arguments_results arguments)
       || DeepSearchHandler.unconvertible
            (DeepSearchHandler.arguments_depth arguments)
       || DeepSearchHandler.unconvertible
            (DeepSearchHandler.arguments_query arguments)
  /\ (forall requested given,
        (requested <> Server.name ->
         Server.callTool apiKey requested given s
         = (s, Return (DeepSearchHandler.text_result true
                         ("Unknown tool: " ++ requested))))
        /\ (requested = Server.name ->
            Server.callTool apiKey requested given s
            = DeepSearchHandler.deepSearchTool_handler apiKey
                (Server.arguments_or_empty given) s))
  /\ DeepSearchHandler.converted (Server.arguments_or_empty None)
     = Return {| DeepSearchTool.query := "undefined";
                 DeepSearchTool.results := None;
                 DeepSearchTool.depth := None |}.
Proof.
  intros run.
  assert (Hanswers : forall p,
    exists s' isError text,
      DeepSearchHandler.handler apiKey p s
      = (s', Return (DeepSearchHandler.text_result isError text))
      /\ (isError = true <->
          throws (snd (DeepSearchHandler.initialSearch apiKey p s)) = true)).
  { intros p. pose proof (handler_cases apiKey p s) as Hc.
    destruct (DeepSearchHandler.initialSearch apiKey p s)
      as [s1 [response | e]]; simpl.
    - destruct (length (BraveSearch.results response) =? 0)%nat;
        eexists _, false, _; (split; [exact Hc |]); split; discriminate.
    - eexists _, true, _. split; [exact Hc |]. split; reflexivity. }
  split.
  { unfold run, DeepSearchHandler.deepSearchTool_handler.
    destruct (DeepSearchHandler.converted arguments) as [params | thrown];
      [| reflexivity].
    split; [apply Hanswers |].
    pose proof (handler_cases apiKey params s) as Hc.
    destruct (DeepSearchHandler.initialSearch apiKey params s)
      as [s1 [response | e]] eqn:Hs.
    - intros Hempty. rewrite Hempty in Hc. simpl in Hc. split; [exact Hc |].
      unfold DeepSearchHandler.initialSearch in Hs.
      eapply searchWithBrave_trace. exact Hs.
    - split; [exact Hc |].
      unfold DeepSearchHandler.initialSearch in Hs.
      eapply searchWithBrave_trace. exact Hs. }
  split.
  { unfold run, DeepSearchHandler.deepSearchTool_handler.
    destruct (DeepSearchHandler.converted arguments) as [params | thrown];
      [| reflexivity].
    destruct (Hanswers params) as (s' & isError & text & -> & _). reflexivity. }
  split.
  { unfold DeepSearchHandler.converted, DeepSearchHandler.toString,
      DeepSearchHandler.unconvertible.
    destruct (DeepSearchHandler.arguments_results arguments) as [[a | e] |];
      destruct (DeepSearchHandler.arguments_depth arguments) as [[a' | e'] |];
      destruct (DeepSearchHandler.arguments_query arguments) as [[a'' | e''] |];
      reflexivity. }
  split; [| reflexivity].
  intros requested given. unfold Server.callTool.
  destruct (String.eqb_spec requested Server.name) as [-> | Hne]; simpl.
  - split; [intros Hne; contradiction | reflexivity].
  - split; [reflexivity | intros Heq; contradiction].
Qed.

(** X9.  When the search gave results, the handler runs one traversal
    from their URLs, in their order, with the depth and the page budget
    it computed: the options it passes are never replaced by the
    defaults of [performDeepSearch], the report holds the pages of that
    traversal, and these are at most results x depth, so never more than
    30; with a depth of 1 only the URLs of the search results are
    fetched.  The search request carries the query and a count between
    1 and 10, and no offset. *)
Theorem handler_report_within_budget
  {W : Type} `{Puppeteer W} `{UrlParser} `{Http.Fetch W BraveSearch.Data}
  (apiKey : string) (params : DeepSearchTool.Params) (s : Session W) :
  let maxResults := DeepSearchTool.maxResults params in
  let maxDepth := DeepSearchTool.maxDepth params in
  (forall s1 response,
      DeepSearchHandler.initialSearch apiKey params s = (s1, Return response) ->
      BraveSearch.results response <> [] ->
      let t := traverse (map BraveSearch.url (BraveSearch.results response))
                 (DeepSearchTool.deepSearchOptions params) s1 in
      DeepSearchHandler.handler apiKey params s
      = (session t,
         Return (DeepSearchHandler.text_result false
                   (DeepSearchHandler.summary (DeepSearchTool.query params)
                      maxDepth (results t))))
      /\ (Z.of_nat (length (results t)) <= maxResults * maxDepth)%Z
      /\ (maxDepth = 1%Z ->
          forall u, u ∈ fetched_urls t ->
                    u ∈ map BraveSearch.url (BraveSearch.results response)))
  /\ or_default (depth (DeepSearchTool.deepSearchOptions params)) 1 = maxDepth
  /\ or_default (maxPages (DeepSearchTool.deepSearchOptions params)) 5
     = (maxResults * maxDepth)%Z
  /\ (1 <= maxResults * maxDepth <= 30)%Z
  /\ Http.searchParams
       (BraveSearch.request apiKey
          {| BraveSearch.q := DeepSearchTool.query params;
             BraveSearch.count := Some maxResults;
             BraveSearch.offset := None |})
     = [("q", DeepSearchTool.query params);
        ("count", Number_toString maxResults)]
  /\ (1 <= maxResults <= 10)%Z.
Proof.
  intros maxResults maxDepth.
  destruct (handler_options_in_force params) as (Hd & Hp & Hb).
  split.
  { intros s1 response Hs Hne t.
    pose proof (handler_cases apiKey params s) as Hc. rewrite Hs in Hc.
    destruct (BraveSearch.results response) as [| r rs] eqn:Hres;
      [contradiction |].
    simpl in Hc. split; [exact Hc |].
    destruct (traverse_invariants (map BraveSearch.url (r :: rs))
                (DeepSearchTool.deepSearchOptions params) s1)
      as ([_ _ _ _ Hbud] & _).
    fold t in Hbud. rewrite Hp in Hbud.
    split; [fold maxResults maxDepth in Hb; fold maxResults maxDepth in Hbud; lia |].
    intros Hone.
    apply (shallow_traversal (map BraveSearch.url (r :: rs))
             (DeepSearchTool.deepSearchOptions params) s1).
    rewrite Hd. fold maxDepth. lia. }
  split; [exact Hd |]. split; [exact Hp |]. split; [exact Hb |].
  split; [apply handler_request |].
  unfold maxResults, DeepSearchTool.maxResults. lia.
Qed.

Section SearchCases.
Context {W : Type} `{Http.Fetch W BraveSearch.Data}.

(** [searchWithBrave], by the cases of its request. *)
Lemma searchWithBrave_cases apiKey params (s : Session W) :
  match Http.fetch_ (BraveSearch.request apiKey params) (world s) with
  | (w1, Throw e) =>
      BraveSearch.searchWithBrave apiKey params s
      = ({| world := w1; trace := trace s |}, Throw e)
  | (w1, Return response) =>
      if Http.ok response then
        match Http.response_json_ response w1 with
        | (w2, Throw e) =>
            BraveSearch.searchWithBrave apiKey params s
            = ({| world := w2; trace := trace s |}, Throw e)
        | (w2, Return data) =>
            exists total query,
              BraveSearch.searchWithBrave apiKey params s
              = ({| world := w2; trace := trace s |},
                 Return {| BraveSearch.results := BraveSearch.transform data;
                           BraveSearch.total := total;
                           BraveSearch.query := query |})
        end
      else
        BraveSearch.searchWithBrave apiKey params s
        = ({| world := w1; trace := trace s |},
           Throw (Http.api_error response))
  end.
Proof.
  unfold BraveSearch.searchWithBrave, Http.fetch, Http.response_json,
    try_catch, bind, record_call, throw, ret.
  destruct (Http.fetch_ _ (world s)) as [w1 [response | e]]; simpl;
    rewrite ?app_nil_r; [| reflexivity].
  destruct (Http.ok response); simpl; [| reflexivity].
  destruct (Http.response_json_ response w1) as [w2 [data | e]]; simpl;
    rewrite ?app_nil_r; [| reflexivity].
  eexists _, _. reflexivity.
Qed.
End SearchCases.

(** X18.  What the handler answers for each way its search request can
    go.  When [fetch] fails, or the body of the answer cannot be read,
    the text is "Error performing deep search: " followed by the
    message of that failure.  When the API answers with a status that
    is not OK, the text is "Error performing deep search: Brave Search
    API error: ", the status and the status text.  When the body has no
    property [web] or no [web.results], or an empty list, the text says
    that no search results were found.  In all these cases the answer
    comes without any use of the browser.  Otherwise the URLs of the
    traversal are the [url] properties of the results in the body, in
    their order, with the empty string for a result without one. *)
Theorem handler_search_outcomes
  {W : Type} `{Puppeteer W} `{UrlParser} `{Http.Fetch W BraveSearch.Data}
  (apiKey : string) (params : DeepSearchTool.Params) (s : Session W) :
  let request :=
    BraveSearch.request apiKey
      {| BraveSearch.q := DeepSearchTool.query params;
         BraveSearch.count := Some (DeepSearchTool.maxResults params);
         BraveSearch.offset := None |} in
  let answer := DeepSearchHandler.handler apiKey params s in
  let error message :=
    Return (DeepSearchHandler.text_result true
              ("Error performing deep search: " ++ message)) in
  match Http.fetch_ request (world s) with
  | (w1, Throw e) =>
      answer = ({| world := w1; trace := trace s |}, error (error_text e))
  | (w1, Return response) =>
      if Http.ok response then
        match Http.response_json_ response w1 with
        | (w2, Throw e) =>
            answer = ({| world := w2; trace := trace s |}, error (error_text e))
        | (w2, Return data) =>
            match BraveSearch.transform data with
            | [] =>
                answer
                = ({| world := w2; trace := trace s |},
                   Return (DeepSearchHandler.text_result false
                             ("No search results found for query: "
                              ++ DeepSearchHandler.quote
                              ++ DeepSearchTool.query params
                              ++ DeepSearchHandler.quote)))
            | found =>
                let t := traverse (map BraveSearch.url found)
                           (DeepSearchTool.deepSearchOptions params)
                           {| world := w2; trace := trace s |} in
                answer
                = (session t,
                   Return (DeepSearchHandler.text_result false
                             (DeepSearchHandler.summary
                                (DeepSearchTool.query params)
                                (DeepSearchTool.maxDepth params) (results t))))
            end
        end
      else
        answer
        = ({| world := w1; trace := trace s |},
           error ("Brave Search API error: "
                  ++ Number_toString (Http.status response) ++ " "
                  ++ Http.statusText response)%string)
  end
  /\ (forall data,
        BraveSearch.transform data = [] <->
        match BraveSearch.web data with
        | Some w => match BraveSearch.web_results w with
                    | Some l => l = []
                    | None => True
                    end
        | None => True
        end)
  /\ (forall data w l,
        BraveSearch.web data = Some w -> BraveSearch.web_results w = Some l ->
        map BraveSearch.url (BraveSearch.transform data)
        = map (fun r => UtilsExtractor.or_else (BraveSearch.result_url r) "") l).
Proof.
  intros request answer error.
  split.
  { pose proof (searchWithBrave_cases apiKey
                  {| BraveSearch.q := DeepSearchTool.query params;
                     BraveSearch.count := Some (DeepSearchTool.maxResults params);
                     BraveSearch.offset := None |} s) as Hsearch.
    pose proof (handler_cases apiKey params s) as Hhandler.
    unfold DeepSearchHandler.initialSearch in Hhandler.
    fold request in Hsearch. fold answer in Hhandler.
    destruct (Http.fetch_ request (world s)) as [w1 [response | e]].
    - destruct (Http.ok response).
      + destruct (Http.response_json_ response w1) as [w2 [data | e]].
        * destruct Hsearch as (total & q & Hsearch). rewrite Hsearch in Hhandler.
          simpl in Hhandler.
          destruct (BraveSearch.transform data) as [| r rs]; exact Hhandler.
        * rewrite Hsearch in Hhandler. exact Hhandler.
      + rewrite Hsearch in Hhandler. exact Hhandler.
    - rewrite Hsearch in Hhandler. exact Hhandler. }
  split.
  { intros data. unfold BraveSearch.transform.
    destruct (BraveSearch.web data) as [w |]; [| split; auto].
    destruct (BraveSearch.web_results w) as [l |]; [| split; auto].
    destruct l; simpl; split; congruence. }
  intros data w l Hw Hl. unfold BraveSearch.transform. rewrite Hw, Hl.
  rewrite map_map. reflexivity.
Qed.

Section ReportTrim.
Import Report DeepSearchHandler.

Lemma trimStart_append_nonws (x y : string) (c : ascii) (r : string) :
  y = String c r -> is_white_space c = false ->
  trimStart (x ++ y) = (trimStart x ++ y)%string.
Proof.
  intros -> Hc. induction x as [| a x IH].
  - simpl. rewrite Hc. reflexivity.
  - change (String a x ++ String c r)%string
      with (String a (x ++ String c r)%string).
    simpl. destruct (is_white_space a); [exact IH | reflexivity].
Qed.

Lemma rev_empty (s : string) : String.rev s = "" -> s = "".
Proof.
  intros Hr. rewrite <- (rev_rev s), Hr. reflexivity.
Qed.

Lemma ends_in_text_rev (s : string) :
  ends_in_text s ->
  exists c r, String.rev s = String c r /\ is_white_space c = false.
Proof.
  intros [Hne Hfix]. unfold trimEnd in Hfix.
  assert (Hrev : trimStart (String.rev s) = String.rev s).
  { rewrite <- Hfix at 2. rewrite rev_rev. reflexivity. }
  destruct (String.rev s) as [| c r] eqn:Hs.
  - apply rev_empty in Hs. contradiction.
  - exists c, r. split; [reflexivity |].
    simpl in Hrev. destruct (is_white_space c) eqn:Hc; [| reflexivity].
    exfalso.
    assert (Hlen : forall t, (String.length (trimStart t) <= String.length t)%nat).
    { clear. induction t as [| a t IH]; simpl; [lia |].
      destruct (is_white_space a); simpl; lia. }
    specialize (Hlen r). rewrite Hrev in Hlen. simpl in Hlen. lia.
Qed.

(** Trimming the end stops at the text before it. *)
Lemma trimEnd_after_text (a b : string) :
  ends_in_text a -> trimEnd (a ++ b) = (a ++ trimEnd b)%string.
Proof.
  intros Ha. destruct (ends_in_text_rev a Ha) as (c & r & Hrev & Hc).
  unfold trimEnd. rewrite rev_append.
  rewrite (trimStart_append_nonws _ _ c r Hrev Hc).
  rewrite rev_append, rev_rev. reflexivity.
Qed.

Lemma append_empty_r (s : string) : (s ++ "")%string = s.
Proof.
  induction s as [| c s IH]; [reflexivity |].
  change (String c (s ++ "")%string = String c s). by rewrite IH.
Qed.

Lemma append_not_empty (a b : string) : b <> "" -> (a ++ b)%string <> "".
Proof.
  destruct a as [| c a]; [auto |]. intros _. discriminate.
Qed.

Lemma ends_in_text_append (a b : string) :
  ends_in_text b -> ends_in_text (a ++ b).
Proof.
  intros Hb. pose proof Hb as [Hne Hfix].
  destruct (ends_in_text_rev b Hb) as (c & r & Hrev & Hc).
  split; [by apply append_not_empty |].
  unfold trimEnd. rewrite rev_append.
  assert (Hstart : trimStart (String.rev b ++ String.rev a)
                   = (String.rev b ++ String.rev a)%string).
  { rewrite Hrev. simpl. rewrite Hc. reflexivity. }
  rewrite Hstart, <- rev_append, rev_rev. reflexivity.
Qed.

Lemma trimStart_append_text (x y : string) :
  trimStart x <> "" -> trimStart (x ++ y) = (trimStart x ++ y)%string.
Proof.
  induction x as [| a x IH]; simpl; [congruence |].
  change (String a x ++ y)%string with (String a (x ++ y)%string). simpl.
  destruct (is_white_space a); [exact IH | reflexivity].
Qed.

Lemma trimStart_append_blank (x y : string) :
  trimStart x = "" -> trimStart (x ++ y) = trimStart y.
Proof.
  induction x as [| a x IH]; simpl; [reflexivity |].
  change (String a x ++ y)%string with (String a (x ++ y)%string). simpl.
  destruct (is_white_space a); [exact IH | discriminate].
Qed.

(** Trimming the end of [a ++ b] leaves [a] alone when something is
    left of [b]. *)
Lemma trimEnd_before_text (a b v : string) :
  trimEnd b = v -> v <> "" -> trimEnd (a ++ b) = (a ++ v)%string.
Proof.
  intros <- Hv. unfold trimEnd in *. rewrite rev_append.
  rewrite trimStart_append_text.
  - rewrite rev_append, rev_rev. reflexivity.
  - intros Hs. apply Hv. rewrite Hs. reflexivity.
Qed.

(** White space at the end goes. *)
Lemma trimEnd_append_blank (y w : string) :
  trimStart (String.rev w) = "" -> trimEnd (y ++ w) = trimEnd y.
Proof.
  intros Hw. unfold trimEnd. rewrite rev_append.
  rewrite trimStart_append_blank by exact Hw. reflexivity.
Qed.

Lemma trimEnd_blank (w : string) :
  trimStart (String.rev w) = "" -> trimEnd w = "".
Proof. intros Hw. unfold trimEnd. rewrite Hw. reflexivity. Qed.

Lemma digits_end_in_text (d : Decimal.uint) :
  d <> Decimal.Nil -> ends_in_text (NilEmpty.string_of_uint d).
Proof.
  induction d as [| d IH | d IH | d IH | d IH | d IH | d IH | d IH | d IH
                  | d IH | d IH]; intros Hd; [congruence | ..].
  all: destruct d as [| d' | d' | d' | d' | d' | d' | d' | d' | d' | d'];
    [split; [discriminate | reflexivity] | ..].
  all: match goal with
       | |- ends_in_text (NilEmpty.string_of_uint (?D ?x)) =>
           let s := eval cbv in (NilEmpty.string_of_uint (D Decimal.Nil)) in
           change (ends_in_text (s ++ NilEmpty.string_of_uint x)%string)
       end.
  all: apply ends_in_text_append, IH; discriminate.
Qed.

Lemma Number_toString_ends_in_text (n : Z) : ends_in_text (Number_toString n).
Proof.
  unfold Number_toString, NilZero.string_of_int, NilZero.string_of_uint.
  destruct (Z.to_int n) as [d | d]; destruct d eqn:Hd;
    try (split; [discriminate | reflexivity]); rewrite <- Hd.
  all: try (apply digits_end_in_text; rewrite Hd; discriminate).
  all: change (ends_in_text ("-" ++ NilEmpty.string_of_uint d)%string);
    apply ends_in_text_append, digits_end_in_text; rewrite Hd; discriminate.
Qed.
End ReportTrim.

Section ReportRules.
Import Report DeepSearchHandler.

Lemma trimStart_line (r : string) :
  trimStart (newline ++ String "#" r) = String "#" r.
Proof. reflexivity. Qed.

Lemma formatResult_block (result : PageContent) :
  formatResult result = block result.
Proof.
  unfold formatResult, block, excerpt, trim.
  set (slice := slice_to 1000 (PuppeteerService.content result)).
  set (dots := if (1000 <? String.length (PuppeteerService.content result))%nat
               then "..." else "").
  change (newline ++ "# " ++ ?x)%string
    with (newline ++ String "#" (" " ++ x))%string.
  rewrite trimStart_line.
  change (String "#" (" " ++ ?x))%string with ("# " ++ x)%string.
  assert (Htail : trimEnd ("## Content" ++ newline ++ slice ++ dots ++ newline
                           ++ "        ")
                  = ("## Content" ++ trimEnd (newline ++ slice ++ dots))%string).
  { rewrite trimEnd_after_text by (split; [discriminate | reflexivity]).
    f_equal.
    replace (newline ++ slice ++ dots ++ newline ++ "        ")%string
      with ((newline ++ slice ++ dots) ++ (newline ++ "        "))%string
      by (rewrite !string_app_assoc; reflexivity).
    apply trimEnd_append_blank. reflexivity. }
  repeat first [ exact Htail
               | discriminate
               | apply trimEnd_before_text
               | apply append_not_empty ].
Qed.

Lemma block_ends_in_text (result : PageContent) : ends_in_text (block result).
Proof.
  split; [unfold block; discriminate |].
  rewrite <- formatResult_block. unfold formatResult, trim.
  apply trimEnd_fixed.
Qed.

Lemma blocks_end_in_text (pages : list PageContent) :
  Forall ends_in_text (map block pages).
Proof.
  induction pages as [| p ps IH]; simpl; constructor;
    [apply block_ends_in_text | exact IH].
Qed.

Lemma concat_ends_in_text (sep x : string) (l : list string) :
  Forall ends_in_text (x :: l) -> ends_in_text (String.concat sep (x :: l)).
Proof.
  revert x. induction l as [| y l IH]; intros x Hall.
  - simpl. by inversion Hall.
  - change (String.concat sep (x :: y :: l))
      with (x ++ sep ++ String.concat sep (y :: l))%string.
    do 2 apply ends_in_text_append. apply IH. by inversion Hall.
Qed.

Lemma summary_report (query : string) (maxDepth : Z) (pages : list PageContent) :
  summary query maxDepth pages = report query maxDepth pages.
Proof.
  unfold summary, report, header, trim.
  rewrite (map_ext _ _ formatResult_block).
  set (joined := String.concat separator (map block pages)).
  set (found := Number_toString (Z.of_nat (length pages))).
  set (tail := match pages with
               | [] => ""
               | _ :: _ => (newline ++ newline ++ joined)%string
               end).
  change (newline ++ "# Deep Search Results for " ++ ?x)%string
    with (newline ++ String "#" (" Deep Search Results for " ++ x))%string.
  rewrite trimStart_line.
  change (String "#" (" Deep Search Results for " ++ ?x))%string
    with ("# Deep Search Results for " ++ x)%string.
  assert (Hrest : trimEnd (newline ++ newline ++ joined ++ newline ++ "      ")
                  = tail).
  { unfold tail, joined. destruct pages as [| page pages].
    - reflexivity.
    - assert (Hj : ends_in_text
                     (String.concat separator (map block (page :: pages)))).
      { apply concat_ends_in_text. apply (blocks_end_in_text (page :: pages)). }
      destruct Hj as [Hne Hfix].
      assert (Hinner : trimEnd (String.concat separator (map block (page :: pages))
                                ++ newline ++ "      ")
                       = String.concat separator (map block (page :: pages))).
      { rewrite trimEnd_append_blank by reflexivity. exact Hfix. }
      repeat first [ exact Hinner | exact Hne | discriminate
                   | apply trimEnd_before_text ]. }
  assert (Htail : trimEnd (Number_toString maxDepth ++ newline ++ newline
                           ++ joined ++ newline ++ "      ")
                  = (Number_toString maxDepth ++ tail)%string).
  { rewrite trimEnd_after_text by apply Number_toString_ends_in_text.
    by rewrite Hrest. }
  assert (Hne : (Number_toString maxDepth ++ tail)%string <> "").
  { destruct (Number_toString_ends_in_text maxDepth) as [Hn _].
    destruct (Number_toString maxDepth); [contradiction | discriminate]. }
  rewrite !string_app_assoc.
  repeat first [ exact Htail
               | exact Hne
               | discriminate
               | apply trimEnd_before_text
               | apply append_not_empty ].
Qed.

Lemma slice_to_all (n : nat) (s : string) :
  (String.length s <= n)%nat -> slice_to n s = s.
Proof.
  unfold slice_to. revert s. induction n as [| n IH]; intros s Hlen.
  - destruct s; [reflexivity | simpl in Hlen; lia].
  - destruct s as [| c s]; [reflexivity |]. simpl in *.
    rewrite IH by lia. reflexivity.
Qed.

Lemma slice_to_length (n : nat) (s : string) :
  (n <= String.length s)%nat -> String.length (slice_to n s) = n.
Proof.
  unfold slice_to. revert s. induction n as [| n IH]; intros s Hlen.
  - destruct s; reflexivity.
  - destruct s as [| c s]; simpl in *; [lia |]. rewrite IH by lia. reflexivity.
Qed.

Lemma excerpt_cases (content : string) :
  ((String.length content <= 1000)%nat ->
   excerpt content = trimEnd (newline ++ content))
  /\ ((1000 < String.length content)%nat ->
      excerpt content = (newline ++ slice_to 1000 content ++ "...")%string
      /\ String.length (slice_to 1000 content) = 1000%nat).
Proof.
  unfold excerpt. split; intros Hlen.
  - destruct (Nat.ltb_spec 1000 (String.length content)); [lia |].
    rewrite slice_to_all by exact Hlen. by rewrite append_empty_r.
  - destruct (Nat.ltb_spec 1000 (String.length content)); [| lia].
    split; [| apply slice_to_length; lia].
    assert (Hdots : ends_in_text "...") by (split; [discriminate | reflexivity]).
    apply (ends_in_text_append (newline ++ slice_to 1000 content)) in Hdots.
    rewrite string_app_assoc in Hdots. apply Hdots.
Qed.
End ReportRules.

(** X15.  The text the handler returns, written out.  It is the header
    "# Deep Search Results for", the query between double quotes, and on
    the next line the number of pages and the depth; when there are
    pages, an empty line follows and the texts of the pages, separated
    by a rule.  The text of a page is its title after "# ", its URL, its
    description when it has one, and under "## Content" the content:
    all of it except the white space at its end when it has at most
    1000 characters, and otherwise its first 1000 characters followed
    by three dots.  The two calls of [trim] remove nothing else. *)
Theorem handler_report_written_out
  (query : string) (maxDepth : Z) (pages : list PageContent) :
  DeepSearchHandler.summary query maxDepth pages
  = Report.report query maxDepth pages
  /\ DeepSearchHandler.summary query maxDepth []
     = Report.header query maxDepth 0
  /\ (forall page, DeepSearchHandler.formatResult page = Report.block page)
  /\ (forall content,
        ((String.length content <= 1000)%nat ->
         Report.excerpt content = trimEnd (DeepSearchHandler.newline ++ content))
        /\ ((1000 < String.length content)%nat ->
            Report.excerpt content
            = (DeepSearchHandler.newline
               ++ DeepSearchHandler.slice_to 1000 content ++ "...")%string
            /\ String.length (DeepSearchHandler.slice_to 1000 content)
               = 1000%nat)).
Proof.
  split; [apply summary_report |].
  split.
  { rewrite summary_report. unfold Report.report. apply append_empty_r. }
  split; [apply formatResult_block | apply excerpt_cases].
Qed.

(* ------------------------------------------------------------------ *)
(** ** The deep search service                                         *)
(* ------------------------------------------------------------------ *)

Section ServiceRules.
Context {W : Type} `{Puppeteer W} `{UrlParser}.

(** [ContentExtractor.extractContent] returns a page for the URL asked,
    and opens at most one page of the browser; a page with an error
    has no links. *)
Lemma extractContent_returns url_ (s : Session W) :
  exists s' page evs,
    ContentExtractor.extractContent url_ s = (s', Return page)
    /\ ContentExtractor.url page = url_
    /\ trace s' = trace s ++ evs
    /\ (length (opened evs) <= 1)%nat.
Proof.
  destruct (extractContent_cases url_ s)
    as [(s1 & e & Hnew & Hrun)
       | (s1 & pg & s2 & c & s3 & closing & Hnew & Htry & Hclose & Hrun)].
  - apply newPage_events in Hnew
      as [(pg & [=] & _) | [[_ Htr] | (pg & _ & Htr)]].
    + exists s1, (ContentExtractor.extractContent_catch url_ e), [].
      rewrite app_nil_r. simpl. auto.
    + exists s1, (ContentExtractor.extractContent_catch url_ e), [NewPage pg].
      simpl. auto.
  - apply newPage_events in Hnew
      as [(pg' & [= <-] & Hp) | [[[=] _] | (pg' & [=] & _)]].
    apply extractContent_try_events in Htry as (mid & Ht & Ho & Hc & Hret).
    apply page_close_events in Hclose.
    eexists s3, _, (NewPage pg :: Goto pg url_ :: mid ++ [Close pg]).
    split; [exact Hrun |]. split.
    { destruct c as [r | e]; [apply (Hret r eq_refl) | reflexivity]. }
    split.
    { rewrite Hclose, Ht, Hp, <- !app_assoc. reflexivity. }
    unfold opened in *. simpl. rewrite omap_app, Ho. simpl. lia.
Qed.
End ServiceRules.

Section RelatedRules.
Context {W : Type} `{Puppeteer W} `{UrlParser}.
Import Enriched.

Lemma processRelatedPage_pages depth link relatedPages (s : Session W) :
  exists s' group evs,
    DeepSearchService.processRelatedPage depth link relatedPages s
    = (s', Return (relatedPages ++ group))
    /\ related_to depth link group
    /\ trace s' = trace s ++ evs
    /\ (length (opened evs) <= length group)%nat.
Proof.
  unfold DeepSearchService.processRelatedPage, try_catch, bind.
  destruct (extractContent_returns (Link.url link) s)
    as (s1 & page & evs1 & -> & Hurl & Htr1 & Hop1).
  destruct (Z.ltb_spec 1 depth) as [Hdeep | Hshallow]; simpl.
  - destruct (ContentExtractor.links page) as [| nextLevelLink others] eqn:Hl;
      simpl.
    + exists s1, [page], evs1. unfold ret.
      split; [reflexivity |]. split; [apply related_page; auto |].
      split; [exact Htr1 | simpl; lia].
    + destruct (extractContent_returns (Link.url nextLevelLink) s1)
        as (s2 & nested & evs2 & -> & Hurl2 & Htr2 & Hop2).
      exists s2, [page; nested], (evs1 ++ evs2). unfold ret.
      split; [by rewrite <- app_assoc |].
      split; [eapply related_nested; eauto |].
      split; [rewrite Htr2, Htr1, app_assoc; reflexivity |].
      unfold opened in *. rewrite omap_app, length_app. simpl. lia.
  - exists s1, [page], evs1. unfold ret.
    split; [reflexivity |]. split; [apply related_page; auto; left; lia |].
    split; [exact Htr1 | simpl; lia].
Qed.

Lemma processRelatedPages_loop_pages depth pagesToProcess relatedPages
      (s : Session W) :
  exists s' groups evs,
    DeepSearchService.processRelatedPages_loop depth pagesToProcess
      relatedPages s
    = (s', Return (relatedPages ++ concat groups))
    /\ Forall2 (related_to depth) pagesToProcess groups
    /\ trace s' = trace s ++ evs
    /\ (length (opened evs) <= length (concat groups))%nat.
Proof.
  revert relatedPages s.
  induction pagesToProcess as [| link rest IH]; intros relatedPages s; simpl.
  - exists s, [], []. unfold ret. simpl. rewrite !app_nil_r.
    split; [reflexivity |]. split; [constructor |]. split; [reflexivity | lia].
  - unfold bind.
    destruct (processRelatedPage_pages depth link relatedPages s)
      as (s1 & group & evs1 & -> & Hg & Htr1 & Hop1).
    destruct (IH (relatedPages ++ group) s1)
      as (s2 & groups & evs2 & -> & Hgs & Htr2 & Hop2).
    exists s2, (group :: groups), (evs1 ++ evs2). simpl.
    split; [by rewrite <- app_assoc |].
    split; [by constructor |].
    split; [rewrite Htr2, Htr1, app_assoc; reflexivity |].
    unfold opened in *. rewrite omap_app, !length_app. lia.
Qed.

Lemma related_to_length depth link group :
  related_to depth link group -> (1 <= length group <= 2)%nat.
Proof. destruct 1; simpl; lia. Qed.

Lemma related_groups_length depth links groups :
  Forall2 (related_to depth) links groups ->
  (length links <= length (concat groups) <= 2 * length links)%nat.
Proof.
  induction 1 as [| link group links groups Hg _ IH]; simpl; [lia |].
  apply related_to_length in Hg. rewrite length_app. lia.
Qed.


Lemma processRelatedPages_pages links depth (s : Session W) :
  exists s' pages evs,
    DeepSearchService.processRelatedPages links depth s = (s', Return pages)
    /\ related_pages depth links pages
    /\ trace s' = trace s ++ evs
    /\ (length (opened evs) <= length pages <= 6)%nat.
Proof.
  unfold DeepSearchService.processRelatedPages.
  destruct (processRelatedPages_loop_pages depth (firstn 3 links) [] s)
    as (s' & groups & evs & Hrun & Hg & Htr & Hop).
  exists s', (concat groups), evs. split; [exact Hrun |].
  split; [exists groups; auto |]. split; [exact Htr |].
  apply related_groups_length in Hg. rewrite length_take in Hg. lia.
Qed.
End RelatedRules.

Section ResultRules.
Context {W : Type} `{Puppeteer W} `{UrlParser}.
Import Enriched.

Lemma processSearchResult_enriched depth result enrichedResults (s : Session W) :
  exists s' r evs,
    DeepSearchService.processSearchResult depth result enrichedResults s
    = (s', Return (enrichedResults ++ [r]))
    /\ enriched_from depth result r
    /\ trace s' = trace s ++ evs
    /\ (length (opened evs) <= 7)%nat
    /\ ((depth <= 0)%Z -> (length (opened evs) <= 1)%nat).
Proof.
  unfold DeepSearchService.processSearchResult, try_catch, bind.
  destruct (extractContent_returns (BraveSearchClient.url result) s)
    as (s1 & page & evs1 & -> & Hurl & Htr1 & Hop1).
  destruct (Z.ltb_spec 0 depth) as [Hpos | Hnone]; simpl.
  - destruct (ContentExtractor.links page) as [| l ls] eqn:Hl; simpl.
    + eexists s1, _, evs1. unfold ret. split; [reflexivity |].
      split.
      { unfold enriched_from. simpl. do 3 (split; [reflexivity |]).
        exists page. split; [reflexivity |]. split; [exact Hurl |]. by right. }
      split; [exact Htr1 |]. split; lia.
    + destruct (processRelatedPages_pages (l :: ls) depth s1)
        as (s2 & pages & evs2 & Hrun & Hrel & Htr2 & Hop2).
      rewrite Hrun. eexists s2, _, (evs1 ++ evs2). unfold ret.
      split; [reflexivity |].
      split.
      { unfold enriched_from. simpl. do 3 (split; [reflexivity |]).
        exists page. split; [reflexivity |]. split; [exact Hurl |].
        rewrite Hl. split; [exact Hpos |]. split; [discriminate | exact Hrel]. }
      split; [rewrite Htr2, Htr1, app_assoc; reflexivity |].
      unfold opened in *. rewrite omap_app, length_app. split; lia.
  - eexists s1, _, evs1. unfold ret. split; [reflexivity |].
    split.
    { unfold enriched_from. simpl. do 3 (split; [reflexivity |]).
      exists page. split; [reflexivity |]. split; [exact Hurl |]. by left. }
    split; [exact Htr1 |]. split; lia.
Qed.

Lemma processSearchResults_loop_enriched depth searchResults enrichedResults
      (s : Session W) :
  exists s' added evs,
    DeepSearchService.processSearchResults_loop depth searchResults
      enrichedResults s
    = (s', Return (enrichedResults ++ added))
    /\ Forall2 (enriched_from depth) searchResults added
    /\ trace s' = trace s ++ evs
    /\ (length (opened evs) <= 7 * length searchResults)%nat
    /\ ((depth <= 0)%Z -> (length (opened evs) <= length searchResults)%nat).
Proof.
  revert enrichedResults s.
  induction searchResults as [| result rest IH]; intros enrichedResults s;
    simpl.
  - exists s, [], []. unfold ret. rewrite !app_nil_r. simpl.
    split; [reflexivity |]. split; [constructor |].
    split; [reflexivity |]. split; lia.
  - unfold bind.
    destruct (processSearchResult_enriched depth result enrichedResults s)
      as (s1 & r & evs1 & -> & Hr & Htr1 & Hop1 & Hshallow1).
    destruct (IH (enrichedResults ++ [r]) s1)
      as (s2 & added & evs2 & -> & Hadded & Htr2 & Hop2 & Hshallow2).
    exists s2, (r :: added), (evs1 ++ evs2).
    split; [by rewrite <- app_assoc |].
    split; [by constructor |].
    split; [rewrite Htr2, Htr1, app_assoc; reflexivity |].
    unfold opened in *. rewrite omap_app, length_app.
    split; [lia |]. intros Hd. specialize (Hshallow1 Hd).
    specialize (Hshallow2 Hd). lia.
Qed.
End ResultRules.

Section ClientRules.
Context {W : Type} `{Http.Fetch W BraveSearchClient.Data}.

(** A search leaves the trace of the rendering session as it was, and
    an empty query is refused before any request. *)
Lemma webSearch_trace apiKey params (s s' : Session W) c :
  BraveSearchClient.webSearch apiKey params s = (s', c) -> trace s' = trace s.
Proof.
  unfold BraveSearchClient.webSearch, Http.fetch, Http.response_json.
  destruct (String.eqb _ ""); [intros [= <- _]; reflexivity |].
  intros Hrun. invert_async; subst; simpl in *; rewrite ?app_nil_r;
    try reflexivity.
  all: destruct (negb _); invert_async; subst; simpl; rewrite ?app_nil_r;
    try reflexivity.
  all: repeat match goal with
         | H : context [match ?x with _ => _ end] |- _ => destruct x
         end; invert_async; subst; simpl; rewrite ?app_nil_r; reflexivity.
Qed.

End ClientRules.

Section SummaryRules.
Import DeepSearchService Enriched.

Lemma related_pages_length depth links pages :
  related_pages depth links pages -> (length pages <= 6)%nat.
Proof.
  intros (groups & -> & Hg). apply related_groups_length in Hg.
  rewrite length_take in Hg. lia.
Qed.

Lemma successful_within_total (validResults : list EnrichedSearchResult) :
  (successfulRelatedPages validResults <= totalRelatedPages validResults)%nat.
Proof.
  unfold successfulRelatedPages, totalRelatedPages.
  induction validResults as [| r rest IH]; simpl; [lia |].
  destruct (relatedPages r) as [pages |]; [| lia].
  pose proof (List.filter_length_le no_error pages). lia.
Qed.

Lemma total_related_bound depth searchResults (results : list EnrichedSearchResult) :
  Forall2 (enriched_from depth) searchResults results ->
  (totalRelatedPages (List.filter isValid results)
   <= 6 * length (List.filter isValid results))%nat.
Proof.
  unfold totalRelatedPages.
  induction 1 as [| result r searchResults results Hr _ IH]; simpl; [lia |].
  destruct (isValid r); simpl; [| exact IH].
  destruct Hr as (_ & _ & _ & page & _ & _ & Hrel).
  destruct (relatedPages r) as [pages |]; [| lia].
  destruct Hrel as (_ & _ & Hrel). apply related_pages_length in Hrel. lia.
Qed.
End SummaryRules.


Section DeepSearchRules.
Context {W : Type} `{Puppeteer W} `{UrlParser}
        `{Http.Fetch W BraveSearchClient.Data}.

Lemma deepSearch_run apiKey MAX_PAGES_PER_SEARCH params (s : Session W) :
  let depth := DeepSearchService.actualDepth params in
  let run := DeepSearchService.deepSearch apiKey MAX_PAGES_PER_SEARCH params s in
  match DeepSearchService.initialSearch apiKey MAX_PAGES_PER_SEARCH params s
  with
  | (s1, Throw e) => run = (s1, Throw e) /\ trace s1 = trace s
  | (s1, Return searchResults) =>
      exists s' enriched evs,
        run = (s', Return
                     {| DeepSearchService.response_query :=
                          DeepSearchService.query params;
                        DeepSearchService.results := enriched;
                        DeepSearchService.summary :=
                          DeepSearchService.generateSummary
                            (DeepSearchService.query params) enriched |})
        /\ Forall2 (Enriched.enriched_from depth) searchResults enriched
        /\ trace s' = trace s ++ evs
        /\ (length (opened evs) <= 7 * length searchResults)%nat
        /\ ((depth <= 0)%Z ->
            (length (opened evs) <= length searchResults)%nat)
  end.
Proof.
  intros depth run.
  unfold run, DeepSearchService.deepSearch, try_catch, bind.
  destruct (DeepSearchService.initialSearch apiKey MAX_PAGES_PER_SEARCH
              params s) as [s1 [searchResults | e]] eqn:Hsearch.
  - unfold DeepSearchService.initialSearch in Hsearch.
    apply webSearch_trace in Hsearch.
    unfold DeepSearchService.processSearchResults.
    destruct (processSearchResults_loop_enriched depth searchResults [] s1)
      as (s' & added & evs & Hrun & Hadded & Htr & Hop & Hshallow).
    fold depth. rewrite Hrun. simpl.
    exists s', added, evs. unfold ret.
    split; [reflexivity |]. split; [exact Hadded |].
    split; [by rewrite Htr, Hsearch |]. split; assumption.
  - unfold throw. split; [reflexivity |].
    unfold DeepSearchService.initialSearch in Hsearch.
    by apply webSearch_trace in Hsearch.
Qed.
End DeepSearchRules.


Lemma summary_texts_differ a b :
  ("No valid results found for " ++ a)%string
  <> ("Deep search for " ++ b)%string.
Proof. discriminate. Qed.

(** X12.  The counters of the summary of a deep search: the pages
    counted as successfully extracted are among the results, the
    related pages counted are those of the successful results only, at
    most six for each, and the related pages counted as successful are
    among them.  The summary says that no valid result was found exactly
    when no result counts as successful; a page whose error message is
    the empty string counts as successful. *)
Theorem deepSearch_summary_counts
  {W : Type} `{Puppeteer W} `{UrlParser}
  `{Http.Fetch W BraveSearchClient.Data}
  (apiKey : string) (MAX_PAGES_PER_SEARCH : option string)
  (params : DeepSearchService.DeepSearchParams) (s : Session W) :
  match DeepSearchService.deepSearch apiKey MAX_PAGES_PER_SEARCH params s with
  | (_, Return response) =>
      let results := DeepSearchService.results response in
      let valid := List.filter DeepSearchService.isValid results in
      DeepSearchService.summary response
      = DeepSearchService.generateSummary (DeepSearchService.query params)
          results
      /\ (length valid <= length results)%nat
      /\ (DeepSearchService.successfulRelatedPages valid
          <= DeepSearchService.totalRelatedPages valid
          <= 6 * length valid)%nat
      /\ (valid = [] <->
          DeepSearchService.summary response
          = ("No valid results found for " ++ DeepSearchHandler.quote
             ++ DeepSearchService.query params ++ DeepSearchHandler.quote
             ++ ".")%string)
  | (_, Throw _) => True
  end
  /\ (forall page,
        ContentExtractor.error page = Some "" ->
        DeepSearchService.no_error page = true)
  /\ (forall page message,
        ContentExtractor.error page = Some message -> message <> "" ->
        DeepSearchService.no_error page = false).
Proof.
  split.
  - pose proof (deepSearch_run apiKey MAX_PAGES_PER_SEARCH params s) as Hd.
    simpl in Hd.
    destruct (DeepSearchService.initialSearch apiKey MAX_PAGES_PER_SEARCH
                params s) as [s1 [searchResults | e]].
    + destruct Hd as (s' & enriched & evs & -> & Henriched & _). simpl.
      split; [reflexivity |].
      split; [apply List.filter_length_le |].
      split.
      { split; [apply successful_within_total |].
        eapply total_related_bound. exact Henriched. }
      unfold DeepSearchService.generateSummary.
      destruct (List.filter DeepSearchService.isValid enriched) as [| v vs];
        simpl.
      * split; reflexivity.
      * split; [discriminate |]. intros Heq. exfalso.
        eapply summary_texts_differ. symmetry. exact Heq.
    + destruct Hd as [-> _]. exact I.
  - split.
    + intros page He. unfold DeepSearchService.no_error. by rewrite He.
    + intros page message He Hne. unfold DeepSearchService.no_error.
      rewrite He. by apply String.eqb_neq.
Qed.

(* ------------------------------------------------------------------ *)
(** ** The shared browser                                              *)
(* ------------------------------------------------------------------ *)

Section UtilsBrowserRules.
Import UtilsBrowser.

Lemma utils_calls_start_launches (n : nat) (st : State) :
  browserInstance st = None ->
  run st (repeat GetBrowser n)
  = ({| browserInstance := None;
        pendingLaunches := n + pendingLaunches st;
        pendingCloses := pendingCloses st;
        listeners := listeners st;
        launches := n + launches st |}, []).
Proof.
  revert st. induction n as [| n IH]; intros st Hnone; simpl.
  - destruct st; simpl in *; subst; reflexivity.
  - unfold getBrowser_starts. rewrite Hnone.
    rewrite IH by reflexivity. simpl.
    do 2 f_equal; lia.
Qed.

Lemma last_nonempty {A} (x : A) (l : list A) (d1 d2 : A) :
  List.last (x :: l) d1 = List.last (x :: l) d2.
Proof.
  revert x. induction l as [| y l IH]; intros x; [reflexivity |].
  change (List.last (y :: l) d1 = List.last (y :: l) d2). apply IH.
Qed.

Lemma utils_launches_resolve (bs : list Browser) (st : State) :
  (length bs <= pendingLaunches st)%nat ->
  run st (map LaunchResolves bs)
  = ({| browserInstance := List.last (map Some bs) (browserInstance st);
        pendingLaunches := pendingLaunches st - length bs;
        pendingCloses := pendingCloses st;
        listeners := rev bs ++ listeners st;
        launches := launches st |}, map Returns bs).
Proof.
  revert st. induction bs as [| b bs IH]; intros st Hlen; simpl.
  - rewrite Nat.sub_0_r. destruct st; reflexivity.
  - simpl in Hlen.
    destruct (Nat.ltb_spec 0 (pendingLaunches st)) as [Hpos | Hzero]; [| lia].
    unfold getBrowser_resumes. rewrite IH by (simpl; lia). simpl.
    f_equal. f_equal.
    + destruct bs as [| b0 bs]; [reflexivity |].
      change (List.last (map Some (b0 :: bs)) (Some b)
              = List.last (map Some (b0 :: bs)) (browserInstance st)).
      simpl map. apply last_nonempty.
    + lia.
    + by rewrite <- app_assoc.
Qed.

Lemma run_app (st : State) (l1 l2 : list Action) :
  run st (l1 ++ l2)
  = let '(st1, o1) := run st l1 in
    let '(st2, o2) := run st1 l2 in
    (st2, o1 ++ o2).
Proof.
  revert st. induction l1 as [| a l1 IH]; intros st; simpl.
  - destruct (run st l2). reflexivity.
  - destruct (step st a) as [st1 o]. rewrite IH.
    destruct (run st1 l1) as [st2 o1]. destruct (run st2 l2) as [st3 o2].
    destruct o; reflexivity.
Qed.
End UtilsBrowserRules.

(** X13.  [getBrowser] of [utils/browser.ts] starts one launch for every
    call made while no browser is stored, also while other launches are
    in flight: [n] calls that start before any launch has completed
    call [puppeteer.launch] [n] times.  When these launches resolve,
    every call returns the browser of its own launch and the variable
    keeps only the last one.  A call made while a browser is stored
    returns that browser and launches nothing. *)
Theorem utils_getBrowser_launches_per_call (bs : list UtilsBrowser.Browser) :
  let n := length bs in
  let calls := repeat UtilsBrowser.GetBrowser n in
  UtilsBrowser.pendingLaunches (fst (UtilsBrowser.run UtilsBrowser.initial calls))
  = n
  /\ UtilsBrowser.run UtilsBrowser.initial
       (calls ++ map UtilsBrowser.LaunchResolves bs)
     = ({| UtilsBrowser.browserInstance :=
             List.last (map Some bs) None;
           UtilsBrowser.pendingLaunches := 0;
           UtilsBrowser.pendingCloses := 0;
           UtilsBrowser.listeners := rev bs;
           UtilsBrowser.launches := n |},
        map UtilsBrowser.Returns bs)
  /\ (forall st b,
        UtilsBrowser.browserInstance st = Some b ->
        UtilsBrowser.step st UtilsBrowser.GetBrowser
        = (st, Some (UtilsBrowser.Returns b))).
Proof.
  intros n calls.
  pose proof (utils_calls_start_launches n UtilsBrowser.initial eq_refl) as Hcalls.
  fold calls in Hcalls. simpl in Hcalls.
  split; [rewrite Hcalls; simpl; lia |].
  split.
  - rewrite run_app, Hcalls.
    rewrite utils_launches_resolve by (simpl; unfold n; lia). simpl.
    rewrite !Nat.add_0_r, app_nil_r. unfold n.
    rewrite Nat.sub_diag. reflexivity.
  - intros st b Hb. simpl. unfold UtilsBrowser.getBrowser_starts.
    rewrite Hb. reflexivity.
Qed.

Section ManagedBrowserRules.
Import ManagedBrowser.

Lemma without_self i : without i [i] = [].
Proof. unfold without. simpl. by rewrite Nat.eqb_refl. Qed.

Lemma existsb_single i j : existsb (Nat.eqb i) [j] = true -> i = j.
Proof.
  simpl. rewrite orb_false_r. apply Nat.eqb_eq.
Qed.

Lemma result_of_settle i j r st :
  result_of i (initBrowser_resumes j r st)
  = if Nat.eqb j i then Some r else result_of i st.
Proof. unfold result_of. simpl. destruct (Nat.eqb j i); reflexivity. Qed.

Lemma one_initialization_step st a :
  one_initialization st -> one_initialization (fst (step st a)).
Proof.
  intros Hst. pose proof Hst as [Hfresh Hphase].
  destruct a as [| i b | i | i | b | | |]; simpl.
  - (* GetBrowser *)
    unfold getBrowser_starts.
    destruct (browser st); [exact Hst |].
    destruct (isInitializing st) eqn:Hinit; [exact Hst |].
    destruct Hphase as [(_ & Haw & Hl) | [(i & Ht & _) | (i & Ht & _)]];
      try congruence.
    simpl. split.
    + intros i. unfold result_of. simpl. rewrite Haw, Hl.
      intros [[<- | []] | [[<- | []] | Hr]]; [lia | lia |].
      specialize (Hfresh i (or_intror (or_intror Hr))). lia.
    + right. left. exists (launches st). simpl. rewrite Haw, Hl.
      do 3 (split; [reflexivity |]).
      change (result_of (launches st) st = None).
      destruct (result_of (launches st) st) eqn:Hr; [| reflexivity].
      assert (Hlt : (launches st < launches st)%nat); [| lia].
      apply Hfresh. right. right. congruence.
  - (* LaunchResolves *)
    destruct (existsb (Nat.eqb i) (launching st)) eqn:Hin;
      [| exact Hst].
    destruct Hphase as [(_ & _ & Hl) | [(j & Ht & Haw & Hl & Hr) | (j & _ & _ & Hl & _)]];
      try (rewrite Hl in Hin; discriminate).
    rewrite Hl in Hin. apply existsb_single in Hin. subst j. simpl. split.
    + intros k. rewrite result_of_settle. simpl. rewrite Haw, Hl, without_self.
      intros [Hk | [[] | Hk]].
      * apply Hfresh. left. by rewrite Haw.
      * destruct (Nat.eqb_spec i k) as [Heq | _].
        -- subst k. apply Hfresh. left. rewrite Haw. by left.
        -- apply Hfresh. by right; right.
    + right. right. exists i. simpl. rewrite Hl, without_self.
      split; [exact Ht |]. split; [exact Haw |]. split; [reflexivity |].
      rewrite result_of_settle, Nat.eqb_refl. discriminate.
  - (* LaunchRejects *)
    destruct (existsb (Nat.eqb i) (launching st)) eqn:Hin;
      [| exact Hst].
    destruct Hphase as [(_ & _ & Hl) | [(j & Ht & Haw & Hl & Hr) | (j & _ & _ & Hl & _)]];
      try (rewrite Hl in Hin; discriminate).
    rewrite Hl in Hin. apply existsb_single in Hin. subst j. simpl. split.
    + intros k. rewrite result_of_settle. simpl. rewrite Haw, Hl, without_self.
      intros [Hk | [[] | Hk]].
      * apply Hfresh. left. by rewrite Haw.
      * destruct (Nat.eqb_spec i k) as [Heq | _].
        -- subst k. apply Hfresh. left. rewrite Haw. by left.
        -- apply Hfresh. by right; right.
    + right. right. exists i. simpl. rewrite Hl, without_self.
      split; [exact Ht |]. split; [exact Haw |]. split; [reflexivity |].
      rewrite result_of_settle, Nat.eqb_refl. discriminate.
  - (* GetBrowserResumes *)
    destruct (existsb (Nat.eqb i) (awaiting st)) eqn:Hin;
      [| exact Hst].
    destruct (result_of i st) as [result |] eqn:Hr; [| exact Hst].
    destruct Hphase as [(_ & Haw & _) | [(j & Ht & Haw & Hl & Hrj) | (j & Ht & Haw & Hl & Hrj)]];
      try (rewrite Haw in Hin; discriminate);
      rewrite Haw in Hin; apply existsb_single in Hin; subst j;
      [congruence |].
    simpl. split.
    + intros k. unfold result_of. simpl. rewrite Haw, Hl, without_self.
      intros [[] | [[] | Hk]]. apply Hfresh. by right; right.
    + left. simpl. rewrite Haw, Hl, without_self. auto.
  - (* Disconnects *)
    destruct (existsb (Nat.eqb b) (listeners st)); exact Hst.
  - (* CloseBrowser *)
    unfold closeBrowser_starts. destruct (browser st); exact Hst.
  - destruct (0 <? pendingCloses st)%nat; exact Hst.
  - destruct (0 <? pendingCloses st)%nat; exact Hst.
Qed.

Lemma one_initialization_run actions st :
  one_initialization st -> one_initialization (fst (run st actions)).
Proof.
  revert st. induction actions as [| a rest IH]; intros st Hst; simpl;
    [exact Hst |].
  pose proof (one_initialization_step st a Hst) as Hstep.
  destruct (step st a) as [st1 o]. simpl in Hstep.
  specialize (IH st1 Hstep). destruct (run st1 rest) as [st2 os]. exact IH.
Qed.

Lemma one_initialization_initial : one_initialization initial.
Proof.
  split; [| left; auto].
  intros i [[] | [[] | Hr]]. exfalso. apply Hr. reflexivity.
Qed.

Lemma managed_calls_while_initializing (n : nat) (st : State) :
  browser st = None -> isInitializing st = true ->
  run st (repeat GetBrowser n) = (st, repeat ReturnsInitPromise n).
Proof.
  intros Hb Hi. induction n as [| n IH]; simpl; [reflexivity |].
  unfold getBrowser_starts. rewrite Hb, Hi, IH. reflexivity.
Qed.

Lemma managed_calls_share (n : nat) :
  run initial (repeat GetBrowser (S n))
  = ({| browser := None; isInitializing := true; initPromise := Some 0%nat;
        launching := [0%nat]; settled := []; awaiting := [0%nat];
        pendingCloses := 0; listeners := []; launches := 1 |},
     repeat ReturnsInitPromise n).
Proof.
  change (repeat GetBrowser (S n)) with (GetBrowser :: repeat GetBrowser n).
  cbn [run step]. unfold getBrowser_starts at 1. cbn [browser isInitializing initial].
  rewrite managed_calls_while_initializing by reflexivity. reflexivity.
Qed.
End ManagedBrowserRules.

(** X14.  [getBrowser] of [BrowserManager] never has two launches in
    flight, whatever the order in which calls start, launches complete,
    suspended calls go on, browsers disconnect and [closeBrowser] runs:
    while a launch is in flight the flag [isInitializing] is set, and a
    call that starts then returns the stored promise.  So [n + 1] calls
    that start before the launch has completed call [puppeteer.launch]
    once, and [n] of them return the promise of the first. *)
Theorem managed_getBrowser_single_launch
  (actions : list ManagedBrowser.Action) (n : nat) :
  let st := fst (ManagedBrowser.run ManagedBrowser.initial actions) in
  (length (ManagedBrowser.launching st) <= 1)%nat
  /\ (ManagedBrowser.launching st <> [] ->
      ManagedBrowser.isInitializing st = true
      /\ ManagedBrowser.awaiting st = ManagedBrowser.launching st)
  /\ (ManagedBrowser.launching st <> [] ->
      ManagedBrowser.launches (fst (ManagedBrowser.step st ManagedBrowser.GetBrowser))
      = ManagedBrowser.launches st)
  /\ ManagedBrowser.launches
       (fst (ManagedBrowser.run ManagedBrowser.initial
               (repeat ManagedBrowser.GetBrowser (S n)))) = 1%nat
  /\ snd (ManagedBrowser.run ManagedBrowser.initial
            (repeat ManagedBrowser.GetBrowser (S n)))
     = repeat ManagedBrowser.ReturnsInitPromise n.
Proof.
  intros st.
  pose proof (one_initialization_run actions ManagedBrowser.initial
                one_initialization_initial) as [_ Hphase].
  fold st in Hphase.
  assert (Hflight : ManagedBrowser.launching st <> [] ->
                    ManagedBrowser.isInitializing st = true
                    /\ ManagedBrowser.awaiting st = ManagedBrowser.launching st).
  { destruct Hphase as [(_ & _ & Hl) | [(i & Ht & Haw & Hl & _) | (i & _ & _ & Hl & _)]];
      rewrite Hl; [congruence | | congruence].
    intros _. split; [exact Ht | exact Haw]. }
  split.
  { destruct Hphase as [(_ & _ & Hl) | [(i & _ & _ & Hl & _) | (i & _ & _ & Hl & _)]];
      rewrite Hl; simpl; lia. }
  split; [exact Hflight |].
  split.
  { intros Hne. destruct (Hflight Hne) as [Ht _]. simpl.
    unfold ManagedBrowser.getBrowser_starts.
    destruct (ManagedBrowser.browser st); [reflexivity |].
    rewrite Ht. reflexivity. }
  rewrite managed_calls_share. split; reflexivity.
Qed.

(* ------------------------------------------------------------------ *)
(** ** The configuration                                               *)
(* ------------------------------------------------------------------ *)

Section ConfigRules.
Variable JsNumber : Type.
Variable Number_ : string -> JsNumber.

Lemma flag_values v d s :
  (d = "true" \/ d = "false") -> Config.flag v d = Some s ->
  (s = "true" \/ s = "false")
  /\ (v = None /\ s = d \/ v = Some s).
Proof.
  unfold Config.flag. intros Hd. destruct v as [x |].
  - destruct (String.eqb_spec x "true") as [-> | _]; simpl.
    { intros [= <-]. auto. }
    destruct (String.eqb_spec x "false") as [-> | _]; [| discriminate].
    intros [= <-]. auto.
  - intros [= <-]. auto.
Qed.
End ConfigRules.

(** X17.  The configuration is exported only when the API key is set
    and not empty and each of the two switches is not set or is "true"
    or "false"; otherwise the process ends.  In an exported
    configuration [isHeadless] and [isDebugMode], which are read from
    the environment and not from the validated values, agree with
    them: [isHeadless] is [true] exactly when [PUPPETEER_HEADLESS] is
    "true", and [isDebugMode] exactly when [DEBUG_MODE] is "true". *)
Theorem config_switches_agree
  (JsNumber : Type) (Number_ : string -> JsNumber) (env : Config.Env) :
  match Config.config JsNumber Number_ env with
  | Some c =>
      Config.BRAVE_API_KEY JsNumber c <> ""
      /\ Config.env_BRAVE_API_KEY env = Some (Config.BRAVE_API_KEY JsNumber c)
      /\ (Config.PUPPETEER_HEADLESS JsNumber c = "true"
          \/ Config.PUPPETEER_HEADLESS JsNumber c = "false")
      /\ (Config.DEBUG_MODE JsNumber c = "true"
          \/ Config.DEBUG_MODE JsNumber c = "false")
      /\ (Config.isHeadless JsNumber c = true
          <-> Config.PUPPETEER_HEADLESS JsNumber c = "true")
      /\ (Config.isDebugMode JsNumber c = true
          <-> Config.DEBUG_MODE JsNumber c = "true")
  | None =>
      Config.env_BRAVE_API_KEY env = None
      \/ Config.env_BRAVE_API_KEY env = Some ""
      \/ (exists v, Config.env_PUPPETEER_HEADLESS env = Some v
                    /\ v <> "true" /\ v <> "false")
      \/ (exists v, Config.env_DEBUG_MODE env = Some v
                    /\ v <> "true" /\ v <> "false")
  end.
Proof.
  unfold Config.config.
  destruct (Config.required (Config.env_BRAVE_API_KEY env)) as [key |] eqn:Hkey.
  - destruct (Config.flag (Config.env_PUPPETEER_HEADLESS env) "true")
      as [headless |] eqn:Hh.
    + destruct (Config.flag (Config.env_DEBUG_MODE env) "false")
        as [debugMode |] eqn:Hd.
      * simpl.
        apply flag_values in Hh as [Hhv Hhe]; [| by left].
        apply flag_values in Hd as [Hdv Hde]; [| by right].
        unfold Config.required in Hkey.
        destruct (Config.env_BRAVE_API_KEY env) as [k |]; [| discriminate].
        destruct (String.eqb_spec k "") as [Heq | Hne]; [discriminate |].
        injection Hkey as <-.
        split; [exact Hne |]. split; [reflexivity |].
        split; [exact Hhv |]. split; [exact Hdv |].
        split.
        -- destruct Hhe as [[-> ->] | ->]; simpl; [split; reflexivity |].
           destruct Hhv as [-> | ->]; simpl; split; congruence.
        -- destruct Hde as [[-> ->] | ->]; simpl; [split; discriminate |].
           destruct Hdv as [-> | ->]; simpl; split; congruence.
      * right. right. right. unfold Config.flag in Hd.
        destruct (Config.env_DEBUG_MODE env) as [v |]; [| discriminate].
        exists v. split; [reflexivity |].
        destruct (String.eqb_spec v "true"); [discriminate |].
        destruct (String.eqb_spec v "false"); [discriminate |]. auto.
    + right. right. left. unfold Config.flag in Hh.
      destruct (Config.env_PUPPETEER_HEADLESS env) as [v |]; [| discriminate].
      exists v. split; [reflexivity |].
      destruct (String.eqb_spec v "true"); [discriminate |].
      destruct (String.eqb_spec v "false"); [discriminate |]. auto.
  - unfold Config.required in Hkey.
    destruct (Config.env_BRAVE_API_KEY env) as [k |]; [| by left].
    destruct (String.eqb_spec k "") as [Heq | _]; [| discriminate].
    subst k. right. by left.
Qed.

(* ------------------------------------------------------------------ *)
(** ** The parameters of the tool                                       *)
(* ------------------------------------------------------------------ *)

Import DeepSearchTool.

Section ParseInt.
Import Decimal.
Local Open Scope Z_scope.

Lemma parse_digits_string_of_uint (d : Decimal.uint) (acc : Z) :
  parse_digits 10 (Some acc) (NilEmpty.string_of_uint d)
  = Some (uint_value d acc).
Proof.
  revert acc. induction d; intros acc; simpl; try reflexivity;
    cbn [digit_value]; rewrite IHd; reflexivity.
Qed.

Lemma parse_digits_string_of_uint_first (d : Decimal.uint) :
  d <> Nil ->
  parse_digits 10 None (NilEmpty.string_of_uint d) = Some (uint_value d 0).
Proof.
  destruct d; intros Hd; [congruence | ..]; simpl;
    apply parse_digits_string_of_uint.
Qed.

Lemma uint_value_pos (d : Decimal.uint) (p : positive) :
  uint_value d (Z.pos p) = Z.pos (Pos.of_uint_acc d p).
Proof.
  revert p. induction d; intros p; simpl; try reflexivity;
    rewrite <- IHd; f_equal; lia.
Qed.

Lemma uint_value_of_uint (d : Decimal.uint) : uint_value d 0 = Z.of_uint d.
Proof.
  unfold Z.of_uint. induction d; simpl; try reflexivity; try exact IHd;
    apply uint_value_pos.
Qed.

Lemma digits_need_no_trim (d : Decimal.uint) :
  trimStart (NilEmpty.string_of_uint d) = NilEmpty.string_of_uint d.
Proof. destruct d; reflexivity. Qed.

Lemma digits_have_no_hex_prefix (d : Decimal.uint) :
  strip_hex_prefix (NilEmpty.string_of_uint d) = None.
Proof. destruct d as [| d | d | d | d | d | d | d | d | d | d]; try reflexivity; destruct d; reflexivity. Qed.

Lemma parseInt_digits (d : Decimal.uint) :
  d <> Nil -> parseInt (NilEmpty.string_of_uint d) = Some (Z.of_uint d).
Proof.
  intros Hd. unfold parseInt. rewrite digits_need_no_trim.
  assert (Hsign : match NilEmpty.string_of_uint d with
                  | String "-" r => (-1, r)
                  | String "+" r => (1, r)
                  | _ => (1, NilEmpty.string_of_uint d)
                  end = (1, NilEmpty.string_of_uint d)).
  { destruct d; reflexivity. }
  rewrite Hsign, digits_have_no_hex_prefix.
  rewrite parse_digits_string_of_uint_first by exact Hd.
  rewrite uint_value_of_uint. f_equal; lia.
Qed.

Lemma parseInt_minus_digits (d : Decimal.uint) :
  d <> Nil ->
  parseInt (String "-" (NilEmpty.string_of_uint d)) = Some (- Z.of_uint d).
Proof.
  intros Hd. unfold parseInt.
  change (trimStart (String "-" (NilEmpty.string_of_uint d)))
    with (String "-" (NilEmpty.string_of_uint d)).
  cbv iota beta. rewrite digits_have_no_hex_prefix.
  rewrite parse_digits_string_of_uint_first by exact Hd.
  rewrite uint_value_of_uint. f_equal; lia.
Qed.

(** [parseInt(String(n)) = n] for an integer [n]. *)
Lemma parseInt_Number_toString (n : Z) : parseInt (Number_toString n) = Some n.
Proof.
  unfold Number_toString.
  destruct n as [| p | p]; simpl.
  - reflexivity.
  - pose proof (DecimalPos.Unsigned.to_uint_nonnil p) as Hnil.
    pose proof (DecimalPos.Unsigned.of_to p) as Hof.
    unfold NilZero.string_of_uint.
    destruct (Pos.to_uint p) eqn:Hd; try congruence;
      rewrite <- Hd in *; rewrite parseInt_digits by exact Hnil;
      unfold Z.of_uint; rewrite Hof; reflexivity.
  - pose proof (DecimalPos.Unsigned.to_uint_nonnil p) as Hnil.
    pose proof (DecimalPos.Unsigned.of_to p) as Hof.
    unfold NilZero.string_of_uint.
    destruct (Pos.to_uint p) eqn:Hd; try congruence;
      rewrite <- Hd in *; rewrite parseInt_minus_digits by exact Hnil;
      unfold Z.of_uint; rewrite Hof; reflexivity.
Qed.
End ParseInt.

(** C6, as stated, fails: a requested [results] of 0 is not clamped to
    1, it gives the default 3. *)
Lemma zero_results_gives_the_default :
  maxResults {| query := "q"; results := Some (Num 0); depth := None |} = 3%Z
  /\ clamp 1 10 0 = 1%Z.
Proof. split; reflexivity. Qed.

(** C6, amended.  The effective [results] is the default 3 when the
    argument is absent, does not parse as an integer, or parses as 0,
    and otherwise the parsed integer clamped to the interval from 1 to
    10; the effective [depth] is the parsed integer clamped to the
    interval from 1 to 3, with 1 for an absent or unparsable argument
    (a depth of 0 gives 1 either way).  A number argument that
    JavaScript prints in decimal notation parses as itself.  Both values
    always lie in their interval; [results] = 50 gives 10 and [depth] =
    0 gives 1. *)
Theorem handler_effective_parameters (params : Params) :
  let requested_results := parseInt (String_ (with_default (results params) 3)) in
  let requested_depth := parseInt (String_ (with_default (depth params) 1)) in
  maxResults params
  = match requested_results with
    | Some n => if (n =? 0)%Z then 3%Z else clamp 1 10 n
    | None => 3%Z
    end
  /\ maxDepth params
     = clamp 1 3 (match requested_depth with Some n => n | None => 1%Z end)
  /\ (1 <= maxResults params <= 10)%Z
  /\ (1 <= maxDepth params <= 3)%Z
  /\ (forall n, prints_as_decimal n -> results params = Some (Num n) ->
        n <> 0%Z -> maxResults params = clamp 1 10 n)
  /\ (forall n, prints_as_decimal n -> depth params = Some (Num n) ->
        maxDepth params = clamp 1 3 n)
  /\ (results params = None -> maxResults params = 3%Z)
  /\ (depth params = None -> maxDepth params = 1%Z)
  /\ maxResults {| query := query params; results := Some (Num 50);
                   depth := depth params |} = 10%Z
  /\ maxDepth {| query := query params; results := results params;
                 depth := Some (Num 0) |} = 1%Z.
Proof.
  intros requested_results requested_depth.
  assert (Hr : maxResults params
               = match requested_results with
                 | Some n => if (n =? 0)%Z then 3%Z else clamp 1 10 n
                 | None => 3%Z
                 end).
  { unfold maxResults, clamp, or_default. fold requested_results.
    destruct requested_results as [n |]; [| reflexivity].
    destruct (n =? 0)%Z; reflexivity. }
  assert (Hd : maxDepth params
               = clamp 1 3 (match requested_depth with
                            | Some n => n
                            | None => 1%Z
                            end)).
  { unfold maxDepth, clamp, or_default. fold requested_depth.
    destruct requested_depth as [n |]; [| reflexivity].
    destruct (Z.eqb_spec n 0) as [-> |]; reflexivity. }
  split; [exact Hr |]. split; [exact Hd |].
  split; [unfold maxResults; lia |]. split; [unfold maxDepth; lia |].
  split.
  { intros n _ Hn Hnz. rewrite Hr. unfold requested_results.
    rewrite Hn. simpl. rewrite parseInt_Number_toString.
    destruct (Z.eqb_spec n 0); [contradiction | reflexivity]. }
  split.
  { intros n _ Hn. rewrite Hd. unfold requested_depth.
    rewrite Hn. simpl. rewrite parseInt_Number_toString. reflexivity. }
  split; [intros Hn; unfold maxResults; rewrite Hn; reflexivity |].
  split; [intros Hn; unfold maxDepth; rewrite Hn; reflexivity |].
  split; reflexivity.
Qed.
